(** * MyData: chunked, resumable staging uploads and folder scanning

    A shallow embedding of the parts of MyData that move files to the
    MyTardis staging area ([mydata/utils/openssh.py]), look up users
    ([mydata/models/user.py]), request verification
    ([mydata/models/datafile.py]) and scan the local folder hierarchy
    ([FoldersModel.py]).

    The Python code is Python 2: [/] on integers is floor division and [%]
    is the matching remainder, which are [Z.div] and [Z.modulo]. *)

From Stdlib Require Import ZArith Lia Bool Ascii String.
From stdpp Require Import base tactics option list gmap strings.

Local Open Scope Z_scope.

(** ** Exceptions and outcomes

    The exception classes of [mydata/utils/exceptions.py] that the modelled
    code raises, together with the built-in ones it can run into. *)

Inductive Exn :=
| SshException (returncode : Z)
| ScpException (returncode : Z)
| DoesNotExist (message : string)
| MultipleObjectsReturned (message : string)
| InvalidFolderStructure (message : string)
| PyException (message : string)      (* a plain [Exception] *)
| ValueError                          (* [response.json()] on a bad body *)
| IndexError
| IOError                             (* [seek] to a negative offset *)
| ConnectionError                     (* [requests.get] could not reach the server *)
| UnboundLocalError
| ZeroDivisionError.

(** The outcome of running a piece of code: a value, a raised exception, or
    [Diverge] when a [while] loop was still running after the fuel given to
    the model. *)

Inductive Res (A : Type) :=
| Val (a : A)
| Raise (e : Exn)
| Diverge.

Arguments Val {A} a.
Arguments Raise {A} e.
Arguments Diverge {A}.

(** ** Chunk size selection

    [[
    chunkSize = defaultChunkSize
    # Aim for approximately 50 progress bar increments:
    numIncrements = 50
    while (fileSize / chunkSize) > numIncrements and chunkSize < maxChunkSize:
        chunkSize = chunkSize * 2
    ]]
    The same loop opens [UploadLargeFileFromPosixSystem] and
    [UploadLargeFileFromWindows]. *)

Definition numIncrements : Z := 50.

Fixpoint chooseChunkSize (fuel : nat) (fileSize chunkSize maxChunkSize : Z)
  : Res Z :=
  match fuel with
  | O => Diverge
  | S fuel' =>
      if chunkSize =? 0 then Raise ZeroDivisionError
      else if (numIncrements <? fileSize / chunkSize)
                && (chunkSize <? maxChunkSize)
           then chooseChunkSize fuel' fileSize (chunkSize * 2) maxChunkSize
           else Val chunkSize
  end.

(** The number of chunks a file of [fileSize] bytes is cut into:
    [ceil (fileSize / chunkSize)]. *)

Definition chunkCount (fileSize chunkSize : Z) : Z :=
  (fileSize + chunkSize - 1) / chunkSize.

(** The selection as the specification words it: the chunk size doubles
    until the chunk count, [ceil (fileSize / chunkSize)], is at most 50 or
    the cap is reached. *)

Fixpoint specChunkSize (fuel : nat) (fileSize chunkSize maxChunkSize : Z)
  : Res Z :=
  match fuel with
  | O => Diverge
  | S fuel' =>
      if chunkSize =? 0 then Raise ZeroDivisionError
      else if (numIncrements <? chunkCount fileSize chunkSize)
                && (chunkSize <? maxChunkSize)
           then specChunkSize fuel' fileSize (chunkSize * 2) maxChunkSize
           else Val chunkSize
  end.

(** ** Paths

    [os.path.dirname] and [os.path.basename] are the two halves of
    [posixpath.split]: cut after the last slash, then strip the trailing
    slashes of the head unless the head is slashes only.  (On Windows
    [ntpath] agrees with this on the slash-separated staging paths.) *)

Local Open Scope string_scope.

Definition isSlash (c : ascii) : bool := Ascii.eqb c "/"%char.

Fixpoint allSlashes (s : string) : bool :=
  match s with
  | EmptyString => true
  | String c s' => isSlash c && allSlashes s'
  end.

Fixpoint rstripSlashes (s : string) : string :=
  match s with
  | EmptyString => EmptyString
  | String c s' =>
      match rstripSlashes s' with
      | EmptyString => if isSlash c then EmptyString else String c EmptyString
      | r => String c r
      end
  end.

(** [p[:i]] and [p[i:]] for [i = p.rfind('/') + 1], when there is a slash. *)
Fixpoint splitLastSlash (p : string) : option (string * string) :=
  match p with
  | EmptyString => None
  | String c p' =>
      match splitLastSlash p' with
      | Some (h, t) => Some (String c h, t)
      | None => if isSlash c then Some (String c EmptyString, p') else None
      end
  end.

Definition pathSplit (p : string) : string * string :=
  match splitLastSlash p with
  | None => (EmptyString, p)
  | Some (h, t) => (if allSlashes h then h else rstripSlashes h, t)
  end.

Definition dirname (p : string) : string := fst (pathSplit p).
Definition basename (p : string) : string := snd (pathSplit p).

(** [remoteChunkPath = "%s/.%s.chunk" % (dirname, basename)] *)
Definition remoteChunkPathOf (remoteFilePath : string) : string :=
  dirname remoteFilePath ++ "/." ++ basename remoteFilePath ++ ".chunk".

Local Close Scope string_scope.

(** ** The world an upload runs in

    What the uploaders do is start subprocesses ([ssh], [scp], [dd]) and
    call back into the application.  Each of these is recorded as an
    [Event], in program order.  Command lines are not modelled as text: an
    event names the command and the paths it is given. *)

Inductive LogLevel := Debug | Warning | Error.

Inductive Event :=
| Mkdir (remoteDir : string)                      (* ssh host "mkdir -p dir" *)
| RmChunk (remoteChunkPath : string)              (* ssh host "/bin/rm -f chunk" *)
| Dd (bs skip : Z)                                (* dd bs= skip= count=1 if= of= *)
| ReadChunk (offset size : Z)                     (* seek + read into the chunk file *)
| Scp (remotePath : string) (data : list Byte.byte) (* scp localfile host:remotePath *)
| Cat (append : bool) (src dst : string)          (* ssh host "cat src > dst" or ">>" *)
| Progress (bytesUploaded : option Z) (fileSize : Z) (message : option string)
| Log (level : LogLevel) (message : string).

(** The commands that reach the staging server. *)
Definition isRemoteOp (e : Event) : bool :=
  match e with
  | Mkdir _ | RmChunk _ | Scp _ _ | Cat _ _ _ => true
  | _ => false
  end.

Definition remoteOps (t : list Event) : list Event := List.filter isRemoteOp t.

(** The bytes an event puts on the wire. *)
Definition bytesSentBy (e : Event) : Z :=
  match e with
  | Scp _ data => Z.of_nat (length data)
  | _ => 0
  end.

Definition bytesSent (t : list Event) : Z :=
  List.fold_right (fun e acc => bytesSentBy e + acc) 0 t.

(** The upload progress last reported to the callback, if any. *)
Definition lastProgress (t : list Event) : option (option Z) :=
  List.fold_left
    (fun acc e => match e with Progress b _ _ => Some b | _ => acc end) t None.

(** What the code cannot decide: the exit status of the n-th subprocess it
    starts, the two cancellation flags at the n-th time it looks at them,
    and whether the n-th [os.unlink] / [os.rmdir] fails. *)
Record Env := mkEnv {
  exitCode : nat -> Z;
  shuttingDown : nat -> bool;      (* foldersController.IsShuttingDown() *)
  canceled : nat -> bool;          (* uploadModel.Canceled() *)
  osFails : nat -> bool
}.

Record World := mkWorld {
  localFile : list Byte.byte;                 (* the content of filePath *)
  localChunk : option (list Byte.byte);       (* the local temporary chunk file *)
  remote : gmap string (list Byte.byte);      (* files on the staging server *)
  remoteDirsCreated : gset string;            (* REMOTE_DIRS_CREATED *)
  procs : nat;                                (* subprocesses started *)
  polls : nat;                                (* looks at the flags *)
  oscalls : nat;                              (* unlink / rmdir calls *)
  events : list Event
}.

Definition setLocalChunk (c : option (list Byte.byte)) (w : World) : World :=
  mkWorld (localFile w) c (remote w) (remoteDirsCreated w)
          (procs w) (polls w) (oscalls w) (events w).

Definition setRemote (r : gmap string (list Byte.byte)) (w : World) : World :=
  mkWorld (localFile w) (localChunk w) r (remoteDirsCreated w)
          (procs w) (polls w) (oscalls w) (events w).

Definition setRemoteDirsCreated (d : gset string) (w : World) : World :=
  mkWorld (localFile w) (localChunk w) (remote w) d
          (procs w) (polls w) (oscalls w) (events w).

Definition addEvent (e : Event) (w : World) : World :=
  mkWorld (localFile w) (localChunk w) (remote w) (remoteDirsCreated w)
          (procs w) (polls w) (oscalls w) (events w ++ [e]).

Definition tickProcs (w : World) : World :=
  mkWorld (localFile w) (localChunk w) (remote w) (remoteDirsCreated w)
          (S (procs w)) (polls w) (oscalls w) (events w).

Definition tickPolls (w : World) : World :=
  mkWorld (localFile w) (localChunk w) (remote w) (remoteDirsCreated w)
          (procs w) (S (polls w)) (oscalls w) (events w).

Definition tickOscalls (w : World) : World :=
  mkWorld (localFile w) (localChunk w) (remote w) (remoteDirsCreated w)
          (procs w) (polls w) (S (oscalls w)) (events w).

(** ** A state and exception monad

    [St W A]: code that runs on a state of type [W] and ends with a value of
    type [A], an exception, or out of fuel.  The state an exception leaves
    behind is kept: what Python code did before it raised stays done. *)

Definition St (W A : Type) : Type := W -> Res A * W.

Definition ret {W A} (a : A) : St W A := fun w => (Val a, w).

Definition raise {W A} (e : Exn) : St W A := fun w => (Raise e, w).

Definition bind {W A B} (m : St W A) (f : A -> St W B) : St W B :=
  fun w =>
    match m w with
    | (Val a, w') => f a w'
    | (Raise e, w') => (Raise e, w')
    | (Diverge, w') => (Diverge, w')
    end.

Definition liftRes {W A} (r : Res A) : St W A := fun w => (r, w).

(** [try: body except <those for which handles e>: handler] *)
Definition tryExcept {W A} (body : St W A) (handles : Exn -> bool)
    (handler : Exn -> St W A) : St W A :=
  fun w =>
    match body w with
    | (Raise e, w') => if handles e then handler e w' else (Raise e, w')
    | r => r
    end.

Declare Scope upload_scope.
Delimit Scope upload_scope with upload.
Notation "x <- c1 ;; c2" := (bind c1 (fun x => c2))
  (at level 100, c1 at next level, right associativity) : upload_scope.
Notation "c1 ;; c2" := (bind c1 (fun _ => c2))
  (at level 100, right associativity) : upload_scope.

Local Open Scope upload_scope.

(** The uploaders run on the [World]. *)
Abbreviation M := (St World).

Definition emit (e : Event) : M unit := fun w => (Val tt, addEvent e w).

(** [logger.debug], [logger.warning], [logger.error]: states that keep a
    log.  Messages are the format strings of the source, before [%]. *)
Class HasLog (W : Type) := addLog : LogLevel -> string -> W -> W.

Definition logger {W} `{HasLog W} (level : LogLevel) (message : string)
  : St W unit :=
  fun w => (Val tt, addLog level message w).

#[export] Instance worldLog : HasLog World :=
  fun level message => addEvent (Log level message).

Definition progressCallback (bytesUploaded : option Z) (fileSize : Z)
    (message : option string) : M unit :=
  emit (Progress bytesUploaded fileSize message).

(** What a loop body hands back: the state for the next test of the loop
    condition, or a [return] out of the enclosing function. *)
Inductive Ctl (S : Type) :=
| Next (s : S)
| Return.

Arguments Next {S} s.
Arguments Return {S}.

(** [while cond(s): body]; [Next s] is the state the loop fell out with. *)
Fixpoint while {W S} (fuel : nat) (cond : S -> bool)
    (body : S -> St W (Ctl S)) (s : S) : St W (Ctl S) :=
  match fuel with
  | O => liftRes Diverge
  | Datatypes.S fuel' =>
      if cond s then
        r <- body s ;;
        match r with
        | Next s' => while fuel' cond body s'
        | Return => ret Return
        end
      else ret (Next s)
  end.

Section Uploaders.

Variable env : Env.

(** [subprocess.Popen] followed by the wait for the process to exit.  The
    command is recorded, the environment supplies the exit status, and the
    command's effect on the files takes place when that status is zero. *)
Definition popen (e : Event) (effect : World -> World) : M Z :=
  fun w =>
    let rc := exitCode env (procs w) in
    let w1 := tickProcs (addEvent e w) in
    (Val rc, if rc =? 0 then effect w1 else w1).

(** [foldersController.IsShuttingDown() or uploadModel.Canceled()] *)
Definition shouldAbort : M bool :=
  fun w => (Val (shuttingDown env (polls w) || canceled env (polls w)),
            tickPolls w).

(** [uploadModel.Canceled()] on its own. *)
Definition uploadCanceled : M bool :=
  fun w => (Val (canceled env (polls w)), tickPolls w).

(** [try: os.unlink(chunkFile) except: logger.error(traceback)] *)
Definition unlinkChunkFile : M unit :=
  fun w =>
    let w1 := tickOscalls w in
    if osFails env (oscalls w)
    then (Val tt, addEvent (Log Error "os.unlink failed") w1)
    else (Val tt, setLocalChunk None w1).

(** The effects of the commands on the files. *)

Definition ddEffect (bs skip : Z) (w : World) : World :=
  setLocalChunk
    (Some (take (Z.to_nat bs) (drop (Z.to_nat (skip * bs)) (localFile w)))) w.

Definition scpEffect (remotePath : string) (data : list Byte.byte)
    (w : World) : World :=
  setRemote (<[remotePath := data]> (remote w)) w.

Definition catEffect (append : bool) (src dst : string) (w : World) : World :=
  let chunk := default [] (remote w !! src) in
  let old := if append then default [] (remote w !! dst) else [] in
  setRemote (<[dst := old ++ chunk]> (remote w)) w.

Definition rmEffect (path : string) (w : World) : World :=
  setRemote (delete path (remote w)) w.

Definition getLocalChunk : M (list Byte.byte) :=
  fun w => (Val (default [] (localChunk w)), w).

Definition getLocalFile : M (list Byte.byte) :=
  fun w => (Val (localFile w), w).


(** ** The large-file uploader on POSIX systems *)

Record Settings := mkSettings {
  largeFileSize : Z;        (* settingsModel.GetLargeFileSize() *)
  defaultChunkSize : Z;     (* settingsModel.GetDefaultChunkSize() *)
  maxChunkSize : Z          (* settingsModel.GetMaxChunkSize() *)
}.

(** The resume decision of [UploadLargeFileFromPosixSystem]: the state
    [(bytesUploaded, skip)] the chunk loop starts from.
    [[
    skip = 0
    if 0 < bytesUploaded < fileSize and (bytesUploaded % chunkSize == 0):
        progressCallback(bytesUploaded, fileSize, message="Performing seek ...")
        skip = bytesUploaded / chunkSize
        progressCallback(bytesUploaded, fileSize)
    else:
        # Overwrite staging file if it is bigger that local file:
        bytesUploaded = long(0)
    ]] *)
Definition posixResume (fileSize chunkSize bytesUploaded : Z) : M (Z * Z) :=
  if (0 <? bytesUploaded) && (bytesUploaded <? fileSize)
       && (bytesUploaded mod chunkSize =? 0)
  then
    progressCallback (Some bytesUploaded) fileSize
      (Some "Performing seek on file, so we can resume the upload.") ;;
    progressCallback (Some bytesUploaded) fileSize None ;;
    ret (bytesUploaded, bytesUploaded / chunkSize)
  else ret (0, 0).

(** One pass through the body of [while bytesUploaded < fileSize:]. *)
Definition posixChunkBody (fileSize chunkSize : Z)
    (remoteFilePath remoteChunkPath : string) (st : Z * Z) : M (Ctl (Z * Z)) :=
  let '(bytesUploaded, skip) := st in
  abort <- shouldAbort ;;
  if abort then
    logger Debug "UploadLargeFileFromPosixSystem 1: Aborting upload" ;;
    ret Return
  else
    (* chunkFile = tempfile.NamedTemporaryFile(delete=False) *)
    (fun w => (Val tt, setLocalChunk (Some []) w)) ;;
    logger Debug "ddCommandString" ;;
    rc <- popen (Dd chunkSize skip) (ddEffect chunkSize skip) ;;
    if negb (rc =? 0) then raise (PyException "dd") else
    (* the "<n> bytes ..." line that dd prints *)
    chunk <- getLocalChunk ;;
    let bytesTransferred := Z.of_nat (length chunk) in
    let skip := skip + 1 in
    logger Debug "scpCommandString" ;;
    rc <- popen (Scp remoteChunkPath chunk) (scpEffect remoteChunkPath chunk) ;;
    if negb (rc =? 0) then raise (ScpException rc) else
    unlinkChunkFile ;;
    let redirect := 0 <? bytesUploaded in
    rc <- popen (Cat redirect remoteChunkPath remoteFilePath)
                (catEffect redirect remoteChunkPath remoteFilePath) ;;
    if negb (rc =? 0) then raise (SshException rc) else
    let bytesUploaded := bytesUploaded + bytesTransferred in
    progressCallback (Some bytesUploaded) fileSize None ;;
    abort <- shouldAbort ;;
    if abort then
      logger Debug "UploadLargeFileFromPosixSystem 2: Aborting upload" ;;
      ret Return
    else ret (Next (bytesUploaded, skip)).

Definition posixChunkLoop (fuel : nat) (fileSize chunkSize : Z)
    (remoteFilePath remoteChunkPath : string) : Z * Z -> M (Ctl (Z * Z)) :=
  while fuel (fun st => fst st <? fileSize)
        (posixChunkBody fileSize chunkSize remoteFilePath remoteChunkPath).

(** The removal of the remote chunk file that follows the loop. *)
Definition posixCleanup (remoteChunkPath : string) : M unit :=
  rc <- popen (RmChunk remoteChunkPath) (rmEffect remoteChunkPath) ;;
  if negb (rc =? 0) then raise (SshException rc) else ret tt.

Definition UploadLargeFileFromPosixSystem (fuel : nat) (cfg : Settings)
    (fileSize : Z) (remoteFilePath : string) (bytesUploaded : Z) : M unit :=
  let remoteChunkPath := remoteChunkPathOf remoteFilePath in
  let remoteDir := dirname remoteFilePath in
  logger Debug "mkdirCmdString" ;;
  rc <- popen (Mkdir remoteDir) id ;;
  if negb (rc =? 0) then
    logger Error "'%s' returned %d" ;;
    raise (SshException rc)
  else
  logger Debug "rmCommandString" ;;
  rc <- popen (RmChunk remoteChunkPath) (rmEffect remoteChunkPath) ;;
  if negb (rc =? 0) then raise (SshException rc) else
  chunkSize <- liftRes (chooseChunkSize fuel fileSize (defaultChunkSize cfg)
                                        (maxChunkSize cfg)) ;;
  st <- posixResume fileSize chunkSize bytesUploaded ;;
  r <- posixChunkLoop fuel fileSize chunkSize remoteFilePath remoteChunkPath st ;;
  match r with
  | Return => ret tt
  | Next _ => posixCleanup remoteChunkPath
  end.

(** ** The large-file uploader on Windows *)

Local Open Scope string_scope.

(** [\S] of the [re] module on byte strings. *)
Definition isSpace (c : ascii) : bool :=
  match nat_of_ascii c with
  | 9%nat | 10%nat | 11%nat | 12%nat | 13%nat | 32%nat => true
  | _ => false
  end.

(** What the second group of the pattern matches: up to the first newline. *)
Fixpoint untilNewline (s : string) : string :=
  match s with
  | EmptyString => EmptyString
  | String c s' =>
      if Ascii.eqb c "010"%char then EmptyString else String c (untilNewline s')
  end.

(** [s.replace("\\", "/")] *)
Fixpoint backslashToSlash (s : string) : string :=
  match s with
  | EmptyString => EmptyString
  | String c s' =>
      String (if Ascii.eqb c "\"%char then "/"%char else c) (backslashToSlash s')
  end.

(** [GetCygwinPath]: ["C:\path\to\file"] becomes ["/cygdrive/C/path/to/file"];
    the path is taken to be its own [os.path.realpath]. *)
Definition GetCygwinPath (path : string) : Res string :=
  match path with
  | String d (String ":" rest) =>
      if isSpace d
      then Raise (PyException "OpenSSH.GetCygwinPath: doesn't look like a valid path.")
      else Val ("/cygdrive/" ++ String d (backslashToSlash (untilNewline rest)))
  | _ => Raise (PyException "OpenSSH.GetCygwinPath: doesn't look like a valid path.")
  end.

Local Close Scope string_scope.

(** [[
    smallChunkSize = chunkSize
    count = 1
    while (smallChunkSize > 8 * 1024 * 1024) and \
            (smallChunkSize % 2 == 0) and count < 32:
        smallChunkSize /= 2
        count *= 2
    ]]
    [count] doubles from 1 and stops the loop at 32, so five rounds are all
    there can be. *)
Fixpoint smallChunking (rounds : nat) (smallChunkSize count : Z) : Z * Z :=
  match rounds with
  | O => (smallChunkSize, count)
  | S rounds' =>
      if (8 * 1024 * 1024 <? smallChunkSize) && (smallChunkSize mod 2 =? 0)
           && (count <? 32)
      then smallChunking rounds' (smallChunkSize / 2) (count * 2)
      else (smallChunkSize, count)
  end.

(** [datafile.read(n)]: what was read and what is left; a negative [n]
    reads to the end of the file. *)
Definition pyRead (n : Z) (rest : list Byte.byte)
  : list Byte.byte * list Byte.byte :=
  if n <? 0 then (rest, []) else (take (Z.to_nat n) rest, drop (Z.to_nat n) rest).

(** [for _ in range(count): chunkFile.write(datafile.read(smallChunkSize))] *)
Fixpoint readSmallChunks (count : nat) (smallChunkSize : Z)
    (rest : list Byte.byte) : list Byte.byte :=
  match count with
  | O => []
  | S count' =>
      let '(smallChunk, rest') := pyRead smallChunkSize rest in
      smallChunk ++ readSmallChunks count' smallChunkSize rest'
  end.

(** The [with open(filePath) ... with open(chunkFilePath, 'wb')] block: the
    chunk at [skip * chunkSize] is copied into the local chunk file. *)
Definition writeChunkFile (chunkSize skip : Z) : M unit :=
  fun w =>
    let w1 := addEvent (ReadChunk (skip * chunkSize) chunkSize) w in
    if skip * chunkSize <? 0 then (Raise IOError, setLocalChunk (Some []) w1)
    else
      let '(smallChunkSize, count) := smallChunking 5 chunkSize 1 in
      let data := readSmallChunks (Z.to_nat count) smallChunkSize
                    (drop (Z.to_nat (skip * chunkSize)) (localFile w)) in
      (Val tt, setLocalChunk (Some data) w1).

(** [[
    if 0 < bytesUploaded < fileSize and (bytesUploaded % chunkSize == 0):
        ...
        skip = bytesUploaded / chunkSize
    elif bytesUploaded > 0 and (bytesUploaded % chunkSize != 0):
        bytesUploaded = long(0)
    ]] *)
Definition windowsResume (fileSize chunkSize bytesUploaded : Z) : M (Z * Z) :=
  if (0 <? bytesUploaded) && (bytesUploaded <? fileSize)
       && (bytesUploaded mod chunkSize =? 0)
  then
    progressCallback (Some bytesUploaded) fileSize
      (Some "Performing seek on file, so we can resume the upload.") ;;
    progressCallback (Some bytesUploaded) fileSize None ;;
    ret (bytesUploaded, bytesUploaded / chunkSize)
  else if (0 <? bytesUploaded) && negb (bytesUploaded mod chunkSize =? 0)
  then
    logger Debug "Setting bytesUploaded to 0, because the size of the partially uploaded file in MyTardis's staging area is not a whole number of chunks." ;;
    ret (0, 0)
  else ret (bytesUploaded, 0).

Definition windowsChunkBody (fileSize chunkSize : Z)
    (privateKeyFilePath remoteFilePath remoteChunkPath : string)
    (st : Z * Z) : M (Ctl (Z * Z)) :=
  let '(bytesUploaded, skip) := st in
  abort <- shouldAbort ;;
  if abort then
    logger Debug "UploadLargeFileFromWindows 1: Aborting upload" ;;
    ret Return
  else
    logger Debug "Writing chunk to %s" ;;
    writeChunkFile chunkSize skip ;;
    chunk <- getLocalChunk ;;
    let bytesTransferred := Z.of_nat (length chunk) in
    let skip := skip + 1 in
    abort <- shouldAbort ;;
    if abort then
      logger Debug "UploadLargeFileFromWindows 2: Aborting upload" ;;
      ret Return
    else
    _ <- liftRes (GetCygwinPath privateKeyFilePath) ;;
    logger Debug "scpCommandString" ;;
    rc <- popen (Scp remoteChunkPath chunk) (scpEffect remoteChunkPath chunk) ;;
    if negb (rc =? 0) then raise (ScpException rc) else
    unlinkChunkFile ;;
    let redirect := 0 <? bytesUploaded in
    _ <- liftRes (GetCygwinPath privateKeyFilePath) ;;
    rc <- popen (Cat redirect remoteChunkPath remoteFilePath)
                (catEffect redirect remoteChunkPath remoteFilePath) ;;
    if negb (rc =? 0) then raise (SshException rc) else
    let bytesUploaded := bytesUploaded + bytesTransferred in
    progressCallback (Some bytesUploaded) fileSize None ;;
    abort <- shouldAbort ;;
    if abort then
      logger Debug "UploadLargeFileFromWindows 3: Aborting upload" ;;
      ret Return
    else ret (Next (bytesUploaded, skip)).

(** [try: os.rmdir(tempChunkDir) except: logger.error(traceback)]; the
    directory cannot be removed while the chunk file is still in it. *)
Definition windowsCleanup : M unit :=
  fun w =>
    let w1 := tickOscalls w in
    if osFails env (oscalls w) || bool_decide (is_Some (localChunk w))
    then (Val tt, addEvent (Log Error "os.rmdir failed") w1)
    else (Val tt, w1).

Definition UploadLargeFileFromWindows (fuel : nat) (cfg : Settings)
    (fileSize : Z) (privateKeyFilePath remoteFilePath : string)
    (bytesUploaded : Z) : M unit :=
  let remoteDir := dirname remoteFilePath in
  logger Debug "mkdirCmdString" ;;
  rc <- popen (Mkdir remoteDir) id ;;
  if negb (rc =? 0) then raise (SshException rc) else
  let remoteChunkPath := remoteChunkPathOf remoteFilePath in
  chunkSize <- liftRes (chooseChunkSize fuel fileSize (defaultChunkSize cfg)
                                        (maxChunkSize cfg)) ;;
  st <- windowsResume fileSize chunkSize bytesUploaded ;;
  r <- while fuel (fun st => fst st <? fileSize)
         (windowsChunkBody fileSize chunkSize privateKeyFilePath
                           remoteFilePath remoteChunkPath) st ;;
  match r with
  | Return => ret tt
  | Next _ => windowsCleanup
  end.

(** ** Small files and the dispatch in [UploadFile] *)

(** [if remoteDir not in REMOTE_DIRS_CREATED: mkdir -p ...] *)
Definition ensureRemoteDir (remoteDir : string) : M unit :=
  fun w =>
    if bool_decide (remoteDir ∈ remoteDirsCreated w) then (Val tt, w)
    else
      (logger Debug "mkdirCmdString" ;;
       rc <- popen (Mkdir remoteDir) id ;;
       if negb (rc =? 0) then raise (SshException rc) else
       fun w' => (Val tt, setRemoteDirsCreated
                            ({[remoteDir]} ∪ remoteDirsCreated w') w')) w.

(** [scp file host:dir] leaves the file in [dir] under its own name. *)
Definition scpIntoDir (remoteDir localPath : string) : string :=
  (remoteDir ++ "/" ++ basename localPath)%string.

Definition UploadSmallFileFromPosixSystem (filePath : string) (fileSize : Z)
    (remoteFilePath : string) : M unit :=
  let remoteDir := dirname remoteFilePath in
  ensureRemoteDir remoteDir ;;
  stop <- uploadCanceled ;;
  if stop then
    logger Debug "UploadSmallFileFromPosixSystem: Aborting upload"
  else
    logger Debug "scpCommandString" ;;
    data <- getLocalFile ;;
    let dest := scpIntoDir remoteDir filePath in
    rc <- popen (Scp dest data) (scpEffect dest data) ;;
    if negb (rc =? 0) then raise (ScpException rc) else
    progressCallback (Some fileSize) fileSize None.

Definition UploadSmallFileFromWindows (filePath : string) (fileSize : Z)
    (privateKeyFilePath remoteFilePath : string) : M unit :=
  let remoteDir := dirname remoteFilePath in
  ensureRemoteDir remoteDir ;;
  stop <- uploadCanceled ;;
  if stop then
    logger Debug "UploadSmallFileFromWindows: Aborting upload"
  else
    _ <- liftRes (GetCygwinPath privateKeyFilePath) ;;
    cygFilePath <- liftRes (GetCygwinPath filePath) ;;
    logger Debug "scpCommandString" ;;
    data <- getLocalFile ;;
    let dest := scpIntoDir remoteDir cygFilePath in
    rc <- popen (Scp dest data) (scpEffect dest data) ;;
    if negb (rc =? 0) then raise (ScpException rc) else
    progressCallback (Some fileSize) fileSize None.

(** [UploadFile]: [bytesUploadedPreviously] is what
    [uploadModel.GetBytesUploadedPreviously()] returns, [None] for [None];
    [isWindows] is [sys.platform.startswith("win")]. *)
Definition UploadFile (isWindows : bool) (fuel : nat) (cfg : Settings)
    (filePath : string) (fileSize : Z) (privateKeyFilePath remoteFilePath : string)
    (bytesUploadedPreviously : option Z) : M unit :=
  let transfer (bytesUploaded : Z) : M unit :=
    if isWindows then
      if largeFileSize cfg <? fileSize
      then UploadLargeFileFromWindows fuel cfg fileSize privateKeyFilePath
                                      remoteFilePath bytesUploaded
      else UploadSmallFileFromWindows filePath fileSize privateKeyFilePath
                                      remoteFilePath
    else
      if largeFileSize cfg <? fileSize
      then UploadLargeFileFromPosixSystem fuel cfg fileSize remoteFilePath
                                          bytesUploaded
      else UploadSmallFileFromPosixSystem filePath fileSize remoteFilePath
  in
  match bytesUploadedPreviously with
  | None =>
      progressCallback None fileSize (Some "Uploading...") ;;
      transfer 0
  | Some bytesUploaded =>
      if (0 <? bytesUploaded) && (bytesUploaded <? fileSize) then
        progressCallback (Some bytesUploaded) fileSize
                         (Some "Found %s uploaded previously") ;;
        transfer bytesUploaded
      else if bytesUploaded =? fileSize then
        logger Debug "UploadFile returning because file has already been uploaded."
      else if fileSize <? bytesUploaded then
        logger Error "Possibly due to a bug in MyData, the file size on the remote server is larger than the local file size" ;;
        transfer bytesUploaded
      else if (0 <? bytesUploaded) && (bytesUploaded <? fileSize) then
        logger Debug "MyData will attempt to resume the partially completed upload" ;;
        transfer bytesUploaded
      else if bytesUploaded =? 0 then
        progressCallback (Some bytesUploaded) fileSize (Some "Uploading...") ;;
        transfer bytesUploaded
      else transfer bytesUploaded
  end.

End Uploaders.

Local Close Scope upload_scope.

(** ** Users and verification: [models/user.py], [models/datafile.py] *)

Local Open Scope upload_scope.

(** A group of a user record; [GroupModel] wraps the JSON it is given. *)
Record GroupModel := mkGroupModel {
  groupId : Z;
  groupName : string
}.

Record UserRecordJson := mkUserRecordJson {
  json_id : Z;
  json_username : string;
  json_first_name : string;
  json_last_name : string;
  json_email : string;
  json_groups : list GroupModel
}.

Record UserModel := mkUserModel {
  userId : option Z;
  dataViewId : option Z;
  username : option string;
  name : option string;
  email : option string;
  groups : list GroupModel;
  userRecordJson : option UserRecordJson;
  userNotFoundInMyTardis : bool
}.

Definition userNotFoundString : string := "USER NOT FOUND IN MYTARDIS".

(** [UserModel.__init__] with [dataViewId=None] and
    [userNotFoundInMyTardis=False]. *)
Definition newUserModel (username name email : option string)
    (userRecordJson : option UserRecordJson) : UserModel :=
  match userRecordJson with
  | None => mkUserModel None None username name email [] None false
  | Some j =>
      mkUserModel (Some (json_id j)) None
        (match username with None => Some (json_username j) | _ => username end)
        (match name with
         | None => Some (json_first_name j ++ " " ++ json_last_name j)%string
         | _ => name
         end)
        (match email with None => Some (json_email j) | _ => email end)
        (json_groups j) userRecordJson false
  end.

Definition SetDataViewId (dataViewId : Z) (u : UserModel) : UserModel :=
  mkUserModel (userId u) (Some dataViewId) (username u) (name u) (email u)
              (groups u) (userRecordJson u) (userNotFoundInMyTardis u).

(** [if self.x: return self.x else: return userNotFoundString] *)
Definition orNotFound (x : option string) : string :=
  match x with
  | Some (String c s) => String c s
  | _ => userNotFoundString
  end.

Definition GetUsername (u : UserModel) : string := orNotFound (username u).
Definition GetName (u : UserModel) : string := orNotFound (name u).
Definition GetEmail (u : UserModel) : string := orNotFound (email u).

(** The JSON the API answers a lookup with:
    [{meta: {total_count}, objects: [...]}]. *)
Record UsersJson := mkUsersJson {
  total_count : Z;
  objects : list UserRecordJson
}.

(** A [requests] response; [body] is [None] when [response.json()] raises. *)
Record Response := mkResponse {
  status_code : Z;
  text : string;
  body : option UsersJson
}.

(** What is asked of the server. *)
Inductive Query :=
| UserByUsername (username : string)   (* /api/v1/user/?format=json&username= *)
| UserByEmail (email : string)         (* /api/v1/user/?format=json&email__iexact= *)
| VerifyDataFile (datafileId : Z).     (* /api/v1/dataset_file/<id>/verify/ *)

Section Lookups.

Context {W : Type} `{HasLog W}.

(** [requests.get]: [None] when the request itself raises. *)
Variable requestsGet : Query -> option Response.

Definition GetUserByUsername (username : string) : St W UserModel :=
  match requestsGet (UserByUsername username) with
  | None => raise (PyException "traceback")
  | Some response =>
      if negb (status_code response =? 200) then
        raise (PyException (text response))
      else
        match body response with
        | None => logger Error "traceback" ;; raise ValueError
        | Some userRecordsJson =>
            let numUserRecordsFound := total_count userRecordsJson in
            if numUserRecordsFound =? 0 then
              raise (DoesNotExist "User was not found in MyTardis")
            else
              logger Debug "Found user record for username" ;;
              match objects userRecordsJson with
              | [] => raise IndexError
              | first :: _ =>
                  ret (newUserModel (Some username) None None (Some first))
              end
        end
  end.

Definition GetUserByEmail (email : string) : St W UserModel :=
  match requestsGet (UserByEmail email) with
  | None => raise (PyException "traceback")
  | Some response =>
      if negb (status_code response =? 200) then
        logger Debug "url" ;;
        raise (PyException (text response))
      else
        match body response with
        | None => logger Error "traceback" ;; raise ValueError
        | Some userRecordsJson =>
            let numUserRecordsFound := total_count userRecordsJson in
            if numUserRecordsFound =? 0 then
              raise (DoesNotExist "User with email was not found in MyTardis")
            else
              logger Debug "Found user record for email" ;;
              match objects userRecordsJson with
              | [] => raise IndexError
              | first :: _ =>
                  ret (newUserModel None None None (Some first))
              end
        end
  end.

(** [DataFileModel.Verify] *)
Definition Verify (datafileId : Z) : St W bool :=
  match requestsGet (VerifyDataFile datafileId) with
  | None => raise ConnectionError
  | Some response =>
      (if (status_code response <? 200) || (300 <=? status_code response)
       then
         logger Warning "Failed to verify datafile id" ;;
         logger Warning (text response)
       else ret tt) ;;
      (* Returning True doesn't mean that the file has been verified. *)
      ret true
  end.

End Lookups.

Local Close Scope upload_scope.

(** ** Folder scanning: [FoldersModel.py] *)

Local Open Scope upload_scope.

(** The local directory tree under the data directory.  A node is what
    [os.walk(path).next()[1]] lists for it, in listing order, together with
    the creation time [os.path.getctime] reports, in microseconds. *)
#[warnings="-register-all"]
Inductive Dir := MkDir (ctime : Z) (subdirs : list (string * Dir)).

Definition ctimeOf (d : Dir) : Z := match d with MkDir c _ => c end.
Definition walkDirs (d : Dir) : list (string * Dir) :=
  match d with MkDir _ l => l end.

(** [posixpath.join(a, b)] *)
Definition pathJoin (a b : string) : string :=
  if String.prefix "/" b then b
  else if String.eqb a EmptyString || String.eqb (String.substring (String.length a - 1) 1 a) "/"
       then (a ++ b)%string
       else (a ++ "/" ++ b)%string.

(** [s.lower()] on a byte string. *)
Definition lowerChar (c : ascii) : ascii :=
  let n := nat_of_ascii c in
  if (65 <=? n)%nat && (n <=? 90)%nat then ascii_of_nat (n + 32) else c.

Fixpoint lower (s : string) : string :=
  match s with
  | EmptyString => EmptyString
  | String c s' => String (lowerChar c) (lower s')
  end.

(** [q in s] *)
Fixpoint isSubstring (q s : string) : bool :=
  String.prefix q s
  || match s with
     | EmptyString => false
     | String _ s' => isSubstring q s'
     end.

(** A row of the folders view: the fields [FolderModel] is built with and
    the ones set right after. *)
Record FolderModel := mkFolderModel {
  folderDataViewId : Z;
  folder : string;
  location : string;
  folder_type : string;
  owner : UserModel;
  group : option GroupModel;
  created : Z;
  experimentTitle : string
}.

(** [self.ufd] is either the very list [self.foldersData] or a list of its
    own. *)
Inductive Ufd :=
| UfdIsFoldersData
| UfdList (rows : list FolderModel).

Record FoldersView := mkFoldersView {
  foldersData : list FolderModel;
  ufd : Ufd;
  ffd : list FolderModel;
  filtered : bool;
  searchString : string;
  maxDataViewId : Z
}.

(** What [Refresh] derives from the settings before it scans. *)
Record AgePolicy := mkAgePolicy {
  ignoreOldDatasets : bool;
  ignoreIntervalSeconds : Z;
  ignoreIntervalNumber : Z;
  ignoreIntervalUnit : string
}.

(** The users view, as far as the scan uses it. *)
Record UsersView := mkUsersView {
  usersRows : list UserModel;
  usersMaxDataViewId : Z
}.

Record Output := mkOutput {
  logs : list (LogLevel * string);
  stdout : list string;               (* what [print] wrote *)
  statusMessages : list string;       (* SetStatusMessage *)
  progressTicks : nat                 (* incrementProgressDialog() *)
}.

Record Scan := mkScan {
  view : FoldersView;
  agePolicy : AgePolicy;
  users : UsersView;
  output : Output;
  abortPolls : nat;
  clockReads : nat
}.

Definition setView (v : FoldersView) (s : Scan) : Scan :=
  mkScan v (agePolicy s) (users s) (output s) (abortPolls s) (clockReads s).
Definition setUsers (u : UsersView) (s : Scan) : Scan :=
  mkScan (view s) (agePolicy s) u (output s) (abortPolls s) (clockReads s).
Definition setOutput (o : Output) (s : Scan) : Scan :=
  mkScan (view s) (agePolicy s) (users s) o (abortPolls s) (clockReads s).

#[export] Instance scanLog : HasLog Scan :=
  fun level message s =>
    setOutput (mkOutput (logs (output s) ++ [(level, message)])
                        (stdout (output s)) (statusMessages (output s))
                        (progressTicks (output s))) s.

(** [print traceback.format_exc()] *)
Definition printTraceback : St Scan unit :=
  fun s => (Val tt,
            setOutput (mkOutput (logs (output s))
                                (stdout (output s) ++ ["traceback"])
                                (statusMessages (output s))
                                (progressTicks (output s))) s).

Definition setStatusMessage (message : string) : St Scan unit :=
  fun s => (Val tt,
            setOutput (mkOutput (logs (output s)) (stdout (output s))
                                (statusMessages (output s) ++ [message])
                                (progressTicks (output s))) s).

Definition incrementProgressDialog : St Scan unit :=
  fun s => (Val tt,
            setOutput (mkOutput (logs (output s)) (stdout (output s))
                                (statusMessages (output s))
                                (S (progressTicks (output s)))) s).

(** [for x in xs: body] where the body neither breaks nor returns. *)
Fixpoint forEach {W A} (xs : list A) (body : A -> St W unit) : St W unit :=
  match xs with
  | [] => ret tt
  | x :: xs' => body x ;; forEach xs' body
  end.

(** [for x in xs: body] where the body updates a local variable. *)
Fixpoint foldEach {W A B} (xs : list A) (b : B) (body : B -> A -> St W B)
  : St W B :=
  match xs with
  | [] => ret b
  | x :: xs' => b' <- body b x ;; foldEach xs' b' body
  end.

(** [for x in xs: body] where the body may [return] from the function. *)
Fixpoint forEachCtl {W A} (xs : list A) (body : A -> St W (Ctl unit))
  : St W (Ctl unit) :=
  match xs with
  | [] => ret (Next tt)
  | x :: xs' =>
      r <- body x ;;
      match r with
      | Next _ => forEachCtl xs' body
      | Return => ret Return
      end
  end.

(** *** [Filter] and [AddRow] *)

Definition matchesQuery (q : string) (fd : FolderModel) : bool :=
  isSubstring q (lower (folder fd))
  || isSubstring q (lower (location fd))
  || isSubstring q (lower (GetUsername (owner fd)))
  || isSubstring q (experimentTitle fd).

(** The body of the first loop of [Filter], for one [row]. *)
Definition filterOutRow (q : string) (row : nat) : St FoldersView unit :=
  fun v =>
    match foldersData v !! row with
    | None => (Raise IndexError, v)
    | Some fd =>
        if negb (matchesQuery q fd) then
          (Val tt, mkFoldersView (delete row (foldersData v)) (ufd v)
                                 (ffd v ++ [fd]) true (searchString v)
                                 (maxDataViewId v))
        else (Val tt, v)
    end.

(** [[
    row = 0
    while row < self.GetRowCount() and \
            self.CompareFolderRecords(self.foldersData[row], ffd, 0, True) < 0:
        row = row + 1
    ]] *)
Fixpoint insertionRow (rows : list FolderModel) (item : FolderModel) : nat :=
  match rows with
  | [] => O
  | r :: rows' =>
      if folderDataViewId r <? folderDataViewId item
      then S (insertionRow rows' item)
      else O
  end.

(** The body of the second loop of [Filter], for one [filteredRow]. *)
Definition filterInRow (q : string) (filteredRow : nat) : St FoldersView unit :=
  fun v =>
    match ffd v !! filteredRow with
    | None => (Raise IndexError, v)
    | Some item =>
        if matchesQuery q item then
          let row := insertionRow (foldersData v) item in
          let rows' :=
            if (row =? length (foldersData v))%nat
            then foldersData v ++ [item]
            else take row (foldersData v) ++ item :: drop row (foldersData v) in
          let ffd' := delete filteredRow (ffd v) in
          (Val tt, mkFoldersView rows' (ufd v) ffd'
                     (if (length ffd' =? 0)%nat then false else filtered v)
                     (searchString v) (maxDataViewId v))
        else (Val tt, v)
    end.

Definition Filter (searchString : string) : St FoldersView unit :=
  fun v =>
    let q := lower searchString in
    let v1 := mkFoldersView (foldersData v)
                (if filtered v then ufd v else UfdList (foldersData v))
                (ffd v) (filtered v) searchString (maxDataViewId v) in
    (forEach (reverse (seq 0 (length (foldersData v1)))) (filterOutRow q) ;;
     n <- (fun v2 => (Val (length (ffd v2)), v2)) ;;
     forEach (reverse (seq 0 n)) (filterInRow q)) v1.

Definition AddRow (value : FolderModel) : St FoldersView unit :=
  Filter EmptyString ;;
  (fun v => (Val tt, mkFoldersView (foldersData v ++ [value]) UfdIsFoldersData
                                   [] (filtered v) (searchString v)
                                   (maxDataViewId v))) ;;
  s <- (fun v => (Val (searchString v), v)) ;;
  Filter s.

Definition GetMaxDataViewIdFromExistingRows (v : FoldersView) : Z :=
  List.fold_left
    (fun maxDataViewId fd =>
       if maxDataViewId <? folderDataViewId fd then folderDataViewId fd
       else maxDataViewId)
    (foldersData v) 0.

Definition GetMaxDataViewId : St FoldersView Z :=
  fun v =>
    let v' :=
      if maxDataViewId v <? GetMaxDataViewIdFromExistingRows v
      then mkFoldersView (foldersData v) (ufd v) (ffd v) (filtered v)
                         (searchString v) (GetMaxDataViewIdFromExistingRows v)
      else v in
    (Val (maxDataViewId v'), v').

(** Running a piece of view code inside the scan. *)
Definition onView {A} (m : St FoldersView A) : St Scan A :=
  fun s => let '(r, v) := m (view s) in (r, setView v s).

(** [usersModel.AddRow]: the row is appended and its id becomes the largest
    id of the users view. *)
Definition usersAddRow (u : UserModel) : St Scan unit :=
  fun s => (Val tt,
            setUsers (mkUsersView (usersRows (users s) ++ [u])
                                  (default (usersMaxDataViewId (users s))
                                           (dataViewId u))) s).

(** *** The scan itself *)

Definition dq : string := String "034"%char EmptyString.

(** ['Username / "MyTardis" / Experiment / Dataset'] *)
Definition usernameMyTardisExperimentDataset : string :=
  ("Username / " ++ dq ++ "MyTardis" ++ dq ++ " / Experiment / Dataset")%string.

Record ScanSettings := mkScanSettings {
  dataDirectory : string;             (* GetDataDirectory() *)
  folderStructure : string;           (* GetFolderStructure() *)
  instrumentName : string;            (* GetInstrumentName() *)
  defaultOwner : UserModel;           (* GetDefaultOwner() *)
  runningInBackgroundMode : bool      (* RunningInBackgroundMode() *)
}.

Section Scanning.

Variable settingsModel : ScanSettings.

(** The server, the [shouldAbort] callback at its n-th call and
    [datetime.now()] (microseconds) at its n-th call. *)
Variable requestsGet : Query -> option Response.
Variable abortAt : nat -> bool.
Variable nowAt : nat -> Z.

Definition shouldAbortScan : St Scan bool :=
  fun s => (Val (abortAt (abortPolls s)),
            mkScan (view s) (agePolicy s) (users s) (output s)
                   (S (abortPolls s)) (clockReads s)).

(** [[
    ctime = datetime.fromtimestamp(os.path.getctime(datasetFolderPath))
    age = datetime.now() - ctime
    age.total_seconds() > self.ignoreIntervalSeconds
    ]] *)
Definition olderThanInterval (datasetFolder : Dir) : St Scan bool :=
  fun s =>
    let age := nowAt (clockReads s) - ctimeOf datasetFolder in
    (Val (ignoreIntervalSeconds (agePolicy s) * 1000000 <? age),
     mkScan (view s) (agePolicy s) (users s) (output s)
            (abortPolls s) (S (clockReads s))).

(** The age test that opens the body of every loop over dataset folders:
    [true] when the folder is skipped with a warning. *)
Definition ignoredAsOld (datasetFolder : Dir) : St Scan bool :=
  ignoring <- (fun s => (Val (ignoreOldDatasets (agePolicy s)), s)) ;;
  if ignoring : bool then
    old <- olderThanInterval datasetFolder ;;
    if old : bool then
      logger Warning "Ignoring, because it is older than" ;;
      ret true
    else ret false
  else ret false.

(** [dataViewId = self.GetMaxDataViewId() + 1; folderModel = FolderModel(...);
    ...; self.AddRow(folderModel)] *)
Definition addDatasetFolder (datasetFolderName location : string)
    (datasetFolder : Dir) (owner : UserModel) (group : option GroupModel)
    (experimentTitle : string) : St Scan unit :=
  maxId <- onView GetMaxDataViewId ;;
  let dataViewId := maxId + 1 in
  onView (AddRow (mkFolderModel dataViewId datasetFolderName location "Dataset"
                                owner group (ctimeOf datasetFolder)
                                experimentTitle)).

Definition ImportFoldersUsingSpecialSchema (mytardisFolderPath : string)
    (mytardisFolder : Dir) (owner : UserModel) : St Scan unit :=
  forEach (walkDirs mytardisFolder) (fun '(expFolderName, expFolder) =>
    let expFolderPath := pathJoin mytardisFolderPath expFolderName in
    forEach (walkDirs expFolder) (fun '(datasetFolderName, datasetFolder) =>
      skip <- ignoredAsOld datasetFolder ;;
      if skip : bool then ret tt
      else addDatasetFolder datasetFolderName expFolderPath datasetFolder
                            owner None expFolderName)).

(** The [try] block of [ImportUserFolders]. *)
Definition importUserFoldersBody (userFolderPath : string) (userFolder : Dir)
    (owner : UserModel) : St Scan unit :=
  let folderStructure := folderStructure settingsModel in
  if String.eqb folderStructure "Username / Dataset"
     || String.eqb folderStructure "Email / Dataset" then
    logger Debug "Scanning for dataset folders..." ;;
    forEach (walkDirs userFolder) (fun '(datasetFolderName, datasetFolder) =>
      if String.eqb (lower datasetFolderName) "mytardis" then
        logger Debug "Found '%s' folder in %s folder." ;;
        ImportFoldersUsingSpecialSchema
          (pathJoin userFolderPath datasetFolderName) datasetFolder owner
      else
        skip <- ignoredAsOld datasetFolder ;;
        if skip : bool then ret tt
        else
          addDatasetFolder datasetFolderName userFolderPath datasetFolder
            owner None
            (instrumentName settingsModel ++ " - " ++ GetName owner)%string)
  else if String.eqb folderStructure usernameMyTardisExperimentDataset then
    logger Debug "Scanning for a MyTardis folder..." ;;
    foundMyTardisFolder <-
      foldEach (walkDirs userFolder) false
        (fun foundMyTardisFolder '(folderName, subfolder) =>
           if String.eqb (lower folderName) "mytardis" then
             logger Debug "Found '%s' folder in %s folder." ;;
             ImportFoldersUsingSpecialSchema
               (pathJoin userFolderPath folderName) subfolder owner ;;
             ret true
           else ret foundMyTardisFolder) ;;
    if foundMyTardisFolder : bool then ret tt
    else raise (InvalidFolderStructure "MyTardis folder not found in %s")
  else ret tt.

(** [[
    try:
        ...
    except:
        print traceback.format_exc()
    ]] *)
Definition ImportUserFolders (userFolderPath : string) (userFolder : Dir)
    (owner : UserModel) : St Scan unit :=
  tryExcept (importUserFoldersBody userFolderPath userFolder owner)
            (fun _ => true) (fun _ => printTraceback).

(** The part of [ImportGroupFolders] that follows the checks on the
    instrument folders: the user folders of the instrument folder and their
    dataset folders. *)
Definition importInstrumentFolder (groupFolderPath instrumentFolderName : string)
    (instrumentFolder : Dir) (groupModel : GroupModel) : St Scan unit :=
  let instrumentFolderPath := pathJoin groupFolderPath instrumentFolderName in
  let defaultOwner := defaultOwner settingsModel in
  logger Debug "Scanning for user folders..." ;;
  forEach (walkDirs instrumentFolder) (fun '(userFolderName, userFolder) =>
    let userFolderPath := pathJoin instrumentFolderPath userFolderName in
    owner <- tryExcept (GetUserByUsername requestsGet userFolderName)
               (fun e => match e with DoesNotExist _ => true | _ => false end)
               (fun _ => ret defaultOwner) ;;
    logger Debug "Scanning for dataset folders..." ;;
    forEach (walkDirs userFolder) (fun '(datasetFolderName, datasetFolder) =>
      skip <- ignoredAsOld datasetFolder ;;
      if skip : bool then ret tt
      else
        addDatasetFolder datasetFolderName userFolderPath datasetFolder
          owner (Some groupModel)
          (instrumentFolderName ++ " - " ++ userFolderName)%string)).

(** The [try] block of [ImportGroupFolders]. *)
Definition importGroupFoldersBody (groupFolderPath : string) (groupFolder : Dir)
    (groupModel : GroupModel) : St Scan unit :=
  logger Debug "Scanning for instrument folders..." ;;
  let instrumentFolders := walkDirs groupFolder in
  match instrumentFolders with
  | _ :: _ :: _ =>
      logger Error "Multiple instrument folders found in %s" ;;
      raise (InvalidFolderStructure "Multiple instrument folders found in %s")
  | [] =>
      logger Error "No instrument folder was found in %s" ;;
      raise (InvalidFolderStructure "No instrument folder was found in %s")
  | [(instrumentFolderName, instrumentFolder)] =>
      (if negb (String.eqb instrumentFolderName (instrumentName settingsModel))
       then
         logger Warning "Instrument folder name doesn't match instrument name in MyData Settings"
         (* raise InvalidFolderStructure(message=message) *)
       else ret tt) ;;
      importInstrumentFolder groupFolderPath instrumentFolderName
                             instrumentFolder groupModel
  end.

(** [[
    except InvalidFolderStructure:
        raise
    except:
        logger.error(traceback.format_exc())
    ]] *)
Definition ImportGroupFolders (groupFolderPath : string) (groupFolder : Dir)
    (groupModel : GroupModel) : St Scan unit :=
  tryExcept (importGroupFoldersBody groupFolderPath groupFolder groupModel)
            (fun e => match e with InvalidFolderStructure _ => false | _ => true end)
            (fun _ => logger Error "traceback").

(** [if shouldAbort(): SetStatusMessage("Data uploads canceled"); return] *)
Definition returnIfAborted (rest : St Scan (Ctl unit)) : St Scan (Ctl unit) :=
  abort <- shouldAbortScan ;;
  if abort : bool then setStatusMessage "Data uploads canceled" ;; ret Return
  else rest.

(** The body of the loop of [ScanForUserFolders].  The variable
    [userRecord] is [None] here while nothing has been assigned to it. *)
Definition scanUserFolder (userFolderName : string) (userFolder : Dir)
  : St Scan (Ctl unit) :=
  let folderStructure := folderStructure settingsModel in
  let dataDir := dataDirectory settingsModel in
  returnIfAborted (
    (if String.prefix "Username" folderStructure then
       logger Debug "Found folder assumed to be username"
     else if String.prefix "Email" folderStructure then
       logger Debug "Found folder assumed to be email"
     else ret tt) ;;
    usersDataViewId <-
      (fun s => (Val (usersMaxDataViewId (users s) + 1), s)) ;;
    userRecord <-
      tryExcept
        (if String.prefix "Username" folderStructure then
           u <- GetUserByUsername requestsGet userFolderName ;;
           ret (Some (Some u))
         else if String.prefix "Email" folderStructure then
           u <- GetUserByEmail requestsGet userFolderName ;;
           ret (Some (Some u))
         else ret None)
        (fun e => match e with DoesNotExist _ => true | _ => false end)
        (fun _ => ret (Some None)) ;;
    returnIfAborted (
      match userRecord with
      | None => raise UnboundLocalError
      | Some (Some userRecord) =>
          let userRecord := SetDataViewId usersDataViewId userRecord in
          usersAddRow userRecord ;;
          ImportUserFolders (pathJoin dataDir userFolderName) userFolder
                            userRecord ;;
          returnIfAborted (incrementProgressDialog ;; ret (Next tt))
      | Some None =>
          logger Warning "Didn't find a MyTardis user record for folder" ;;
          returnIfAborted (
            let userRecord :=
              SetDataViewId usersDataViewId
                (newUserModel (Some userFolderName)
                              (Some "USER NOT FOUND IN MYTARDIS")
                              (Some "USER NOT FOUND IN MYTARDIS") None) in
            usersAddRow userRecord ;;
            returnIfAborted (
              ImportUserFolders (pathJoin dataDir userFolderName)
                                userFolder userRecord ;;
              incrementProgressDialog ;;
              ret (Next tt)))
      end)).

Definition ScanForUserFolders (dataDir : Dir) : St Scan unit :=
  forEachCtl (walkDirs dataDir)
             (fun '(userFolderName, userFolder) =>
                scanUserFolder userFolderName userFolder) ;;
  ret tt.

End Scanning.

Local Close Scope upload_scope.

(** ** Helpers for the statements and worlds for the examples *)

(** A world to run examples in: nothing on the server yet. *)
Definition emptyWorld (file : list Byte.byte) : World :=
  mkWorld file None ∅ ∅ 0 0 0 [].

(** A server that answers every request with status 500. *)
Definition serverError : Query -> option Response :=
  fun _ => Some (mkResponse 500 "Internal Server Error" None).

Definition userQuery (byEmail : bool) (key : string) : Query :=
  if byEmail then UserByEmail key else UserByUsername key.

Definition lookupUser {W : Type} `{HasLog W}
    (requestsGet : Query -> option Response) (byEmail : bool) (key : string)
  : St W UserModel :=
  if byEmail then GetUserByEmail requestsGet key
  else GetUserByUsername requestsGet key.

Definition aliceJson : UserRecordJson :=
  mkUserRecordJson 1 "alice" "Alice" "A" "alice@example.org" [].
Definition alice2Json : UserRecordJson :=
  mkUserRecordJson 2 "alice" "Alice" "B" "alice@example.org" [].

(** A server that knows two records for every user query. *)
Definition twoMatches : Query -> option Response :=
  fun _ => Some (mkResponse 200 "OK" (Some (mkUsersJson 2 [aliceJson; alice2Json]))).

(** A server that knows no record at all. *)
Definition noMatch : Query -> option Response :=
  fun _ => Some (mkResponse 200 "OK" (Some (mkUsersJson 0 []))).


(** The two cancellation flags as the uploaders read them:
    [IsShuttingDown() or Canceled()] at the n-th look. *)
Definition flagsAt (env : Env) (n : nat) : bool :=
  shuttingDown env n || canceled env n.

(** The bytes of chunk number [skip] of the local file. *)
Definition chunkOf (chunkSize skip : Z) (w : World) : list Byte.byte :=
  take (Z.to_nat chunkSize) (drop (Z.to_nat (skip * chunkSize)) (localFile w)).

(** The state and the world at the head of a [while] loop after [n] passes
    through its body, when the loop gets that far: every pass found the
    condition true and its body came back with [Next]. *)
Fixpoint loopHead {W S} (cond : S -> bool) (body : S -> St W (Ctl S))
    (n : nat) (s : S) (w : W) : option (S * W) :=
  match n with
  | O => Some (s, w)
  | Datatypes.S n' =>
      match loopHead cond body n' s w with
      | Some (s1, w1) =>
          if cond s1 then
            match body s1 w1 with
            | (Val (Next s2), w2) => Some (s2, w2)
            | _ => None
            end
          else None
      | None => None
      end
  end.

(** The block numbers [dd] was asked for, in order. *)
Definition ddSkips (t : list Event) : list Z :=
  List.flat_map (fun e => match e with Dd _ skip => [skip] | _ => [] end) t.

(** The chunk the POSIX uploader starts from for a remote size of
    [bytesUploaded]: the next chunk after the ones already there when that
    size is a whole number of chunks below the file size, chunk 0
    otherwise. *)
Definition posixFirstChunk (fileSize chunkSize bytesUploaded : Z) : Z :=
  if (0 <? bytesUploaded) && (bytesUploaded <? fileSize)
       && (bytesUploaded mod chunkSize =? 0)
  then bytesUploaded / chunkSize
  else 0.

(** The number of chunks from chunk [skip] to the end of the file. *)
Definition chunksLeft (fileSize chunkSize skip : Z) : nat :=
  Z.to_nat (chunkCount (fileSize - skip * chunkSize) chunkSize).

(** The world the chunk loop of the POSIX uploader starts in, when the two
    commands before it ([mkdir -p] and [rm -f] of the chunk) exit with 0:
    the chunk file is gone from the server and, on a resume, the progress
    has been reported twice. *)
Definition posixLoopStart (fileSize chunkSize : Z) (remoteFilePath : string)
    (bytesUploaded : Z) (w : World) : World :=
  let w2 :=
    rmEffect (remoteChunkPathOf remoteFilePath)
      (tickProcs
         (addEvent (RmChunk (remoteChunkPathOf remoteFilePath))
            (addLog Debug "rmCommandString"
               (tickProcs
                  (addEvent (Mkdir (dirname remoteFilePath))
                     (addLog Debug "mkdirCmdString" w)))))) in
  if (0 <? bytesUploaded) && (bytesUploaded <? fileSize)
       && (bytesUploaded mod chunkSize =? 0)
  then
    addEvent (Progress (Some bytesUploaded) fileSize None)
      (addEvent
         (Progress (Some bytesUploaded) fileSize
            (Some "Performing seek on file, so we can resume the upload."))
         w2)
  else w2.

(** What one whole pass through the body of the chunk loop does to the
    world [w], started with [bytesUploaded = b] on chunk [skip]: the chunk
    went to the chunk path and from there onto the file, three commands ran,
    the flags were read twice and the new byte count was reported last. *)
Definition chunkSent (fileSize cs : Z) (final chunkP : string) (b skip : Z)
    (w w' : World) : Prop :=
  let chunk := chunkOf cs skip w in
  let b' := b + Z.of_nat (length chunk) in
  localFile w' = localFile w
  /\ remote w' =
       <[final := (if 0 <? b then default [] (remote w !! final) else [])
                  ++ chunk]> (<[chunkP := chunk]> (remote w))
  /\ procs w' = S (S (S (procs w)))
  /\ polls w' = S (S (polls w))
  /\ remoteDirsCreated w' = remoteDirsCreated w
  /\ exists evs,
       events w' = events w ++ evs ++ [Progress (Some b') fileSize None]
       /\ remoteOps evs = [Scp chunkP chunk; Cat (0 <? b) chunkP final]
       /\ bytesSent evs = Z.of_nat (length chunk)
       /\ ddSkips evs = [skip].

(** The loop state [st'] and the world [w'] after [n] whole passes of a
    loop that started in [w] on chunk [skip], with [skip * cs] bytes taken
    to be on the server. *)
Definition afterChunks (fileSize cs : Z) (final : string) (n : nat)
    (skip : Z) (w : World) (st' : Z * Z) (w' : World) : Prop :=
  st' = (Z.min ((skip + Z.of_nat n) * cs) fileSize, skip + Z.of_nat n)
  /\ localFile w' = localFile w
  /\ procs w' = (procs w + 3 * n)%nat
  /\ polls w' = (polls w + 2 * n)%nat
  /\ remoteDirsCreated w' = remoteDirsCreated w
  /\ (n = O -> w' = w)
  /\ ((1 <= n)%nat ->
      (skip + Z.of_nat n - 1) * cs < fileSize
      /\ remote w' !! final =
           Some ((if 0 <? skip * cs then default [] (remote w !! final)
                  else [])
                 ++ take (Z.to_nat (Z.of_nat n * cs))
                         (drop (Z.to_nat (skip * cs)) (localFile w)))
      /\ exists evs,
           events w' = events w ++ evs ++ [Progress (Some (fst st')) fileSize None]
           /\ bytesSent evs = fst st' - skip * cs
           /\ ddSkips evs = map (fun i => skip + Z.of_nat i) (seq 0 n)
           /\ length (remoteOps evs) = (2 * n)%nat).

(** An environment in which every command exits with 0, nobody cancels and
    no local file operation fails. *)
Definition quietEnv : Env :=
  mkEnv (fun _ => 0) (fun _ => false) (fun _ => false) (fun _ => false).

(** A local file of ten bytes and settings that cut it into chunks of four
    bytes: large-file threshold 5, default chunk size 4, cap 64. *)
Definition tenBytes : list Byte.byte :=
  [Byte.x01; Byte.x02; Byte.x03; Byte.x04; Byte.x05;
   Byte.x06; Byte.x07; Byte.x08; Byte.x09; Byte.x0a].

Definition smallSettings : Settings := mkSettings 5 4 64.

(** The ten-byte file with its first four bytes on the server already. *)
Definition fourBytesUploaded : World :=
  mkWorld tenBytes None {["/staging/f.dat"%string := take 4 tenBytes]} ∅ 0 0 0 [].

(** An environment in which the twelfth command, and only it, exits
    with 1.  In an upload of the ten-byte file from scratch that is the
    removal of the remote chunk file after the loop. *)
Definition lastRmFailsEnv : Env :=
  mkEnv (fun n => if (n =? 11)%nat then 1 else 0)
        (fun _ => false) (fun _ => false) (fun _ => false).

(** An environment in which the upload is canceled from the second look at
    the flags on: after the first chunk. *)
Definition cancelAfterFirstChunkEnv : Env :=
  mkEnv (fun _ => 0) (fun _ => false) (fun n => (1 <=? n)%nat) (fun _ => false).

(** The world at the head of the chunk loop after the first chunk of the
    ten-byte file, in an upload from scratch in which nothing fails. *)
Definition afterFirstChunk : World :=
  match
    loopHead (fun st => fst st <? 10)
      (posixChunkBody quietEnv 10 4 "/staging/f.dat"
                      (remoteChunkPathOf "/staging/f.dat"))
      1 (0, 0) (emptyWorld tenBytes)
  with
  | Some (_, w') => w'
  | None => emptyWorld tenBytes
  end.

(** *** Folder scans *)

Definition isInvalidFolderStructure (e : Exn) : bool :=
  match e with InvalidFolderStructure _ => true | _ => false end.

(** Code that ends, from every state, with a value or with an exception
    that [ok] lets through. *)
Definition raisesOnly {W A} (ok : Exn -> bool) (m : St W A) : Prop :=
  forall w,
    match fst (m w) with
    | Val _ => True
    | Raise e => ok e = true
    | Diverge => False
    end.

(** Code that ends with a value or with an exception other than
    [InvalidFolderStructure]. *)
Definition noStructureError {W A} (m : St W A) : Prop :=
  raisesOnly (fun e => negb (isInvalidFolderStructure e)) m.

(** Code that ends with a value. *)
Definition neverRaises {W A} (m : St W A) : Prop :=
  raisesOnly (fun _ => false) m.

(** The same settings, running in the background or not. *)
Definition withBackgroundMode (background : bool) (cfg : ScanSettings)
  : ScanSettings :=
  mkScanSettings (dataDirectory cfg) (folderStructure cfg)
                 (instrumentName cfg) (defaultOwner cfg) background.

(** A scan that has found nothing yet and ignores no dataset for its age. *)
Definition emptyView : FoldersView :=
  mkFoldersView [] UfdIsFoldersData [] false EmptyString 0.

Definition emptyScan : Scan :=
  mkScan emptyView (mkAgePolicy false 0 0 EmptyString) (mkUsersView [] 0)
         (mkOutput [] [] [] 0) 0 0.

(** A server that knows one record for every user query. *)
Definition oneMatch : Query -> option Response :=
  fun _ => Some (mkResponse 200 "OK" (Some (mkUsersJson 1 [aliceJson]))).

Definition facilityOwner : UserModel :=
  newUserModel (Some "facility"%string) (Some "Facility Manager"%string)
               (Some "facility@example.org"%string) None.

(** Settings for the group schema, run by hand: the instrument is called
    "Microscope A". *)
Definition groupSettings : ScanSettings :=
  mkScanSettings "/data" "User Group / Instrument / Full Name / Dataset"
                 "Microscope A" facilityOwner false.

(** A group folder whose one instrument folder is called "Microscope B",
    with one user folder and one dataset folder in it. *)
Definition mismatchGroupFolder : Dir :=
  MkDir 0 [("Microscope B"%string,
            MkDir 0 [("alice"%string,
                      MkDir 0 [("ds1"%string, MkDir 0 [])])])].

(** Settings for the schema with the "MyTardis" folder. *)
Definition specialSchemaSettings : ScanSettings :=
  mkScanSettings "/data" usernameMyTardisExperimentDataset
                 "Microscope A" facilityOwner false.

(** A data directory for that schema: the folder of alice has no
    "MyTardis" folder, the folder of bob has one with a dataset in it. *)
Definition aliceWithoutMyTardis : Dir :=
  MkDir 0 [("scans"%string, MkDir 0 [])].

Definition dataDirWithOneBadUser : Dir :=
  MkDir 0 [("alice"%string, aliceWithoutMyTardis);
           ("bob"%string,
            MkDir 0 [("MyTardis"%string,
                      MkDir 0 [("exp1"%string,
                                MkDir 0 [("ds1"%string, MkDir 0 [])])])])].

(** *** Words for the statements about the folders view *)

From Stdlib Require Import Sorted Permutation.

(** Where the second loop of [Filter] puts a row back: in front of the
    first row whose id is not below its own. *)
Definition insertById (item : FolderModel) (rows : list FolderModel)
  : list FolderModel :=
  take (insertionRow rows item) rows ++ item :: drop (insertionRow rows item) rows.

(** The rows of [items] that match [q], put back one after the other. *)
Definition insertMatching (q : string) (items rows : list FolderModel)
  : list FolderModel :=
  List.fold_left
    (fun acc item => if matchesQuery q item then insertById item acc else acc)
    items rows.

Definition idsOf (rows : list FolderModel) : list Z :=
  map folderDataViewId rows.

(** A view with nothing hidden whose rows have ids in ascending order,
    none twice. *)
Definition unfilteredAscending (v : FoldersView) : Prop :=
  ffd v = [] /\ StronglySorted Z.lt (idsOf (foldersData v)).

(** Code that takes every state to one related to it by [R]. *)
Definition always {W A} (R : W -> W -> Prop) (m : St W A) : Prop :=
  forall w, R w (snd (m w)).

(** [v'] is [v] with rows added at the end, still unfiltered and
    ascending if [v] was. *)
Definition growsFrom (v v' : FoldersView) : Prop :=
  unfilteredAscending v ->
  unfilteredAscending v'
  /\ exists added, foldersData v' = foldersData v ++ added.

(** The relation between the states of a scan: the view grows. *)
Definition scanGrows (s s' : Scan) : Prop := growsFrom (view s) (view s').

(** Two rows to look at: ids 1 and 2, the second one not matching "a". *)
Definition rowA : FolderModel :=
  mkFolderModel 1 "alpha" "/data/alice" "Dataset" facilityOwner None 0 "exp".
Definition rowB : FolderModel :=
  mkFolderModel 2 "beta" "/dt/bob" "Dataset"
                (newUserModel (Some "bob"%string) None None None) None 0 "exp".
Definition twoRows : FoldersView :=
  mkFoldersView [rowA; rowB] UfdIsFoldersData [] false EmptyString 0.

(** *** Words for the statements about the uploaders *)

(** [w'] has the remote files of [w], but for the paths in [touched]. *)
Definition sameRemoteBut (touched : string -> Prop) (w w' : World) : Prop :=
  forall p, ~ touched p -> remote w' !! p = remote w !! p.

(** The remote paths an upload of [filePath] to [remoteFilePath] may write:
    the file, its chunk file, and what [scp] into the directory of the file
    makes of a local name. *)
Definition uploadPaths (remoteFilePath : string) (p : string) : Prop :=
  p = remoteFilePath
  \/ p = remoteChunkPathOf remoteFilePath
  \/ exists localPath, p = scpIntoDir (dirname remoteFilePath) localPath.

Definition isMkdir (e : Event) : bool :=
  match e with Mkdir _ => true | _ => false end.

(** [w'] is [w] after more events, none of them a [mkdir]. *)
Definition noMkdirSince (w w' : World) : Prop :=
  exists evs, events w' = events w ++ evs /\ forallb (fun e => negb (isMkdir e)) evs = true.

(** [c in s] for a character. *)
Fixpoint hasChar (c : ascii) (s : string) : bool :=
  match s with
  | EmptyString => false
  | String c' s' => Ascii.eqb c c' || hasChar c s'
  end.

(** A Windows path of a private key, and the ten-byte file when it is
    large for the settings and a longer file is on the server already. *)
Definition windowsKeyPath : string := "C:\Users\me\.ssh\MyData".

Definition twelveBytesUploaded : World :=
  mkWorld tenBytes None
          {["/staging/f.dat"%string := tenBytes ++ [Byte.x0b; Byte.x0c]]}
          ∅ 0 0 0 [].

(** ** Quoting and the size of the remote file: [openssh.py] *)

Local Open Scope upload_scope.

(** [s.replace(c, new)] for a [c] of one character. *)
Fixpoint replaceChar (c : ascii) (new : string) (s : string) : string :=
  match s with
  | EmptyString => EmptyString
  | String x s' =>
      if Ascii.eqb x c then (new ++ replaceChar c new s')%string
      else String x (replaceChar c new s')
  end.

Definition backslash : ascii := "\"%char.
Definition quoteChar : ascii := "034"%char.

(** [OpenSSH.DoubleQuote]: ['"' + string.replace('"', r'\"') + '"'] *)
Definition DoubleQuote (s : string) : string :=
  (dq ++ replaceChar quoteChar (String backslash dq) s ++ dq)%string.

(** [OpenSSH.DoubleQuoteRemotePath]:
    [[
    path = string.replace('"', r'\"')
    path = path.replace('`', r'\\`')
    path = path.replace('$', r'\\$')
    return '"%s"' % path
    ]]
    [r'\\`'] is two backslashes and a backtick. *)
Definition DoubleQuoteRemotePath (s : string) : string :=
  let path := replaceChar quoteChar (String backslash dq) s in
  let path := replaceChar "`" (String backslash (String backslash "`")) path in
  let path := replaceChar "$" (String backslash (String backslash "$")) path in
  (dq ++ path ++ dq)%string.

(** Every [c] in [s] comes right after a backslash; [prev] says whether
    the character before [s] is one. *)
Fixpoint escapedFrom (prev : bool) (c : ascii) (s : string) : bool :=
  match s with
  | EmptyString => true
  | String x s' =>
      (if Ascii.eqb x c then prev else true)
      && escapedFrom (Ascii.eqb x backslash) c s'
  end.

Definition escapedIn (c : ascii) (s : string) : bool := escapedFrom false c s.

(** *** [CountBytesUploadedToStaging]: what it makes of the output of
    [ssh host "wc -c file"] *)

(** [\d] and the longest prefix of characters of one kind. *)
Definition isDigit (c : ascii) : bool :=
  let n := nat_of_ascii c in (48 <=? n)%nat && (n <=? 57)%nat.

Fixpoint spanChars (f : ascii -> bool) (s : string) : string * string :=
  match s with
  | EmptyString => (EmptyString, EmptyString)
  | String c s' =>
      if f c then let '(a, b) := spanChars f s' in (String c a, b)
      else (EmptyString, s)
  end.

(** [re.search(r"^(\d+)\s+\S+", line)]: the first group, when the line
    matches.  [\d+] takes every leading digit, [\s+] all the white space
    that follows, and one more character has to be there for [\S+]. *)
Definition wcMatch (line : string) : option string :=
  let '(digits, rest) := spanChars isDigit line in
  let '(spaces, name) := spanChars isSpace rest in
  match digits, spaces, name with
  | String _ _, String _ _, String _ _ => Some digits
  | _, _, _ => None
  end.

(** [long(digits)] *)
Definition pyLong (digits : string) : Z :=
  List.fold_left (fun acc c => acc * 10 + (Z.of_nat (nat_of_ascii c) - 48))
                 (list_ascii_of_string digits) 0.

(** How the function ends: with the byte count, or with one of the three
    exceptions it raises. *)
Inductive CountOutcome :=
| Counted (bytesUploaded : Z)
| FileNotFoundOnStaging
| StagingHostRefusedSshConnection
| StagingHostSshPermissionDenied.

(** What one line of the output decides, if anything: the branches of the
    [if] in the loop over the lines, but for the last. *)
Definition lineOutcome (line : string) : option CountOutcome :=
  match wcMatch line with
  | Some digits => Some (Counted (pyLong digits))
  | None =>
      if isSubstring "No such file or directory" line
      then Some FileNotFoundOnStaging
      else if String.eqb line "ssh_exchange_identification: read: Connection reset by peer"
              || String.eqb line "ssh_exchange_identification: Connection closed by remote host"
      then Some StagingHostRefusedSshConnection
      else if String.eqb line "Permission denied (publickey,password)."
      then Some StagingHostSshPermissionDenied
      else None
  end.

(** [for line in lines: ...; return bytesUploaded], with [bytesUploaded]
    still [long(0)] at the end. *)
Fixpoint countFromLines {W} `{HasLog W} (lines : list string)
  : St W CountOutcome :=
  match lines with
  | [] => ret (Counted 0)
  | line :: lines' =>
      match lineOutcome line with
      | Some StagingHostRefusedSshConnection =>
          logger Error "stdout" ;;
          logger Error "The MyTardis staging host refused MyData's attempted SSH connection." ;;
          ret StagingHostRefusedSshConnection
      | Some StagingHostSshPermissionDenied =>
          logger Error "MyData was unable to authenticate into the MyTardis staging host." ;;
          ret StagingHostSshPermissionDenied
      | Some outcome => ret outcome
      | None => logger Debug line ;; countFromLines lines'
      end
  end.

(** [CountBytesUploadedToStaging]; [lines] is [stdout.splitlines()] of the
    [ssh] process. *)
Definition CountBytesUploadedToStaging {W} `{HasLog W} (isWindows : bool)
    (privateKeyFilePath : string) (lines : list string) : St W CountOutcome :=
  (if isWindows then
     _ <- liftRes (GetCygwinPath privateKeyFilePath) ;; ret tt
   else ret tt) ;;
  logger Debug "cmdString" ;;
  countFromLines lines.

(** The log after [lines] have gone to [logger.debug] one by one. *)
Definition debugLogged {W} `{HasLog W} (lines : list string) (w : W) : W :=
  List.fold_left (fun w line => addLog Debug line w) lines w.

Local Close Scope upload_scope.

(** Every character of [s] is of the kind [f]. *)
Fixpoint allChars (f : ascii -> bool) (s : string) : bool :=
  match s with
  | EmptyString => true
  | String c s' => f c && allChars f s'
  end.

(** *** Words for the statements about the rows a scan adds *)

(** The rows of a view, shown or hidden. *)
Definition allRows (v : FoldersView) : list FolderModel :=
  foldersData v ++ ffd v.

(** A dataset row as the scans make them: of type "Dataset", with an owner
    and a group of the kinds given, and, when old datasets are ignored
    under the policy [pol], found no older than the interval at one of the
    readings of the clock from the [lo]-th to the one before the [hi]-th. *)
Definition datasetRow (pol : AgePolicy) (nowAt : nat -> Z)
    (ownerOk : UserModel -> Prop) (groupOk : option GroupModel -> Prop)
    (lo hi : nat) (row : FolderModel) : Prop :=
  folder_type row = "Dataset"%string
  /\ ownerOk (owner row)
  /\ groupOk (group row)
  /\ (ignoreOldDatasets pol = true ->
      exists n, (lo <= n < hi)%nat
                /\ nowAt n - created row <= ignoreIntervalSeconds pol * 1000000).

(** From [s] to [s'] the age policy [pol] stays, the clock is only read,
    and every row there is in [s'] was in [s] or is such a dataset row,
    dated at a reading of the clock made in between. *)
Definition addsDatasetRows (pol : AgePolicy) (nowAt : nat -> Z)
    (ownerOk : UserModel -> Prop) (groupOk : option GroupModel -> Prop)
    (s s' : Scan) : Prop :=
  agePolicy s = pol ->
  agePolicy s' = pol
  /\ (clockReads s <= clockReads s')%nat
  /\ forall row,
       In row (allRows (view s')) ->
       In row (allRows (view s))
       \/ datasetRow pol nowAt ownerOk groupOk (clockReads s) (clockReads s') row.

(** A scan that ignores datasets older than a week, and a data directory
    read at a time when the folder of alice is new and that of bob two
    weeks old. *)
Definition weekPolicy : AgePolicy := mkAgePolicy true 604800 1 "weeks".

Definition weekScan : Scan :=
  mkScan emptyView weekPolicy (mkUsersView [] 0) (mkOutput [] [] [] 0) 0 0.

Definition plainSettings : ScanSettings :=
  mkScanSettings "/data" "Username / Dataset" "Microscope A" facilityOwner false.

Definition oneNewOneOld : Dir :=
  MkDir 0 [("alice"%string, MkDir 0 [("new"%string, MkDir 2000000000000 [])]);
           ("bob"%string, MkDir 0 [("old"%string, MkDir 0 [])])].

(** The row the scan makes of the folder "alpha" of alice for the facility
    owner. *)
Definition alphaRow : FolderModel :=
  mkFolderModel 1 "alpha" "/data/alice" "Dataset" facilityOwner None 0
                "Microscope A - Facility Manager".

(** * Properties

    ** Chunk size selection *)

Lemma chooseChunkSize_run (S0 m : Z) (n : nat) :
  forall c, 0 < c -> Z.to_nat (S0 / c) = n ->
  exists k : nat,
    (forall fuel, (k < fuel)%nat ->
        chooseChunkSize fuel S0 c m = Val (c * 2 ^ Z.of_nat k))
    /\ (S0 / (c * 2 ^ Z.of_nat k) <= numIncrements \/ m <= c * 2 ^ Z.of_nat k)
    /\ (forall j : nat, (j < k)%nat ->
          numIncrements < S0 / (c * 2 ^ Z.of_nat j) /\ c * 2 ^ Z.of_nat j < m).
Proof.
  induction n as [n IH] using lt_wf_ind. intros c Hc Hn.
  destruct (Z.ltb_spec numIncrements (S0 / c)) as [Hbig | Hsmall];
    [destruct (Z.ltb_spec c m) as [Hlt | Hge] |].
  - (* the loop doubles *)
    assert (Hhalf : S0 / (c * 2) < S0 / c).
    { rewrite <- Z.div_div by lia.
      unfold numIncrements in Hbig. apply Z.div_lt; lia. }
    assert (Hpos : 0 <= S0 / (c * 2)).
    { rewrite <- Z.div_div by lia. unfold numIncrements in Hbig.
      apply Z.div_pos; lia. }
    destruct (IH (Z.to_nat (S0 / (c * 2)))) with (c := c * 2)
      as (k & Hrun & Hstop & Hmin); [lia | lia | reflexivity |].
    assert (Hpow : forall i : nat,
               c * 2 * 2 ^ Z.of_nat i = c * 2 ^ Z.of_nat (S i)).
    { intros i. rewrite Nat2Z.inj_succ, Z.pow_succ_r by lia. ring. }
    exists (S k). split; [| split].
    + intros [| fuel] Hf; [lia |]. simpl.
      destruct (Z.eqb_spec c 0) as [-> | _]; [lia |].
      destruct (Z.ltb_spec numIncrements (S0 / c)); [| lia].
      destruct (Z.ltb_spec c m); [| lia]. simpl.
      rewrite Hrun by lia. f_equal. apply Hpow.
    + rewrite <- Hpow. exact Hstop.
    + intros [| j] Hj.
      * simpl. rewrite Z.mul_1_r. split; assumption.
      * rewrite <- Hpow. apply Hmin. lia.
  - (* the cap stops the loop *)
    exists O. simpl. rewrite Z.mul_1_r. split; [| split].
    + intros [| fuel] Hf; [lia |]. simpl.
      destruct (Z.eqb_spec c 0) as [-> | _]; [lia |].
      destruct (Z.ltb_spec c m); [lia |]. now rewrite andb_false_r.
    + now right.
    + intros j Hj. lia.
  - (* few enough chunks *)
    exists O. simpl. rewrite Z.mul_1_r. split; [| split].
    + intros [| fuel] Hf; [lia |]. simpl.
      destruct (Z.eqb_spec c 0) as [-> | _]; [lia |].
      destruct (Z.ltb_spec numIncrements (S0 / c)); [lia |]. reflexivity.
    + now left.
    + intros j Hj. lia.
Qed.

Lemma chooseChunkSize_fuel_mono (S0 m : Z) :
  forall fuel c v, chooseChunkSize fuel S0 c m = Val v ->
  forall fuel', (fuel <= fuel')%nat -> chooseChunkSize fuel' S0 c m = Val v.
Proof.
  induction fuel as [| fuel IH]; intros c v Hrun fuel' Hle; [discriminate |].
  destruct fuel' as [| fuel']; [lia |]. simpl in *.
  destruct (c =? 0); [discriminate |].
  destruct ((numIncrements <? S0 / c) && (c <? m)); [| assumption].
  apply IH with (fuel' := fuel') in Hrun; [assumption | lia].
Qed.

Lemma chooseChunkSize_pos (S0 m : Z) :
  forall fuel c v, 0 < c -> chooseChunkSize fuel S0 c m = Val v -> 0 < v.
Proof.
  induction fuel as [| fuel IH]; intros c v Hc Hrun; [discriminate |].
  simpl in Hrun. destruct (c =? 0); [discriminate |].
  destruct ((numIncrements <? S0 / c) && (c <? m)).
  - apply IH in Hrun; [assumption | lia].
  - now inversion Hrun; subst.
Qed.

(** C3, as stated, fails: a file of 101 bytes with a default chunk size of 2
    and a cap of 1000 keeps the chunk size 2, which is below the cap and cuts
    the file into 51 chunks; the selection worded with the chunk count picks
    4. *)
Lemma chooseChunkSize_count_above_50 :
  chooseChunkSize 10 101 2 1000 = Val 2
  /\ ~ (chunkCount 101 2 <= numIncrements \/ 1000 <= 2)
  /\ specChunkSize 10 101 2 1000 = Val 4.
Proof.
  split; [reflexivity | split; [| reflexivity]].
  unfold chunkCount, numIncrements. intros [H | H]; [| lia].
  revert H. now vm_compute.
Qed.

(** C3, amended: for a default chunk size [d > 0] the chosen chunk size is
    [d * 2^k] for the least [k] at which [floor (S / (d * 2^k)) <= 50] or
    [d * 2^k >= m]; with enough fuel the loop ends there.  So the floor of
    [S / chunkSize] is at most 50 unless the cap was reached, and the chunk
    size does not exceed a cap that is itself a power-of-two multiple of
    [d]. *)
Theorem chooseChunkSize_least_doubling (S0 d m : Z) :
  0 < d ->
  exists k : nat,
    (forall fuel, (k < fuel)%nat ->
        chooseChunkSize fuel S0 d m = Val (d * 2 ^ Z.of_nat k))
    /\ (S0 / (d * 2 ^ Z.of_nat k) <= numIncrements \/ m <= d * 2 ^ Z.of_nat k)
    /\ (forall j : nat, (j < k)%nat ->
          numIncrements < S0 / (d * 2 ^ Z.of_nat j) /\ d * 2 ^ Z.of_nat j < m)
    /\ (forall t : nat, m = d * 2 ^ Z.of_nat t -> d * 2 ^ Z.of_nat k <= m).
Proof.
  intros Hd.
  destruct (chooseChunkSize_run S0 m (Z.to_nat (S0 / d)) d Hd eq_refl)
    as (k & Hrun & Hstop & Hmin).
  exists k. repeat split; try assumption; try (apply Hmin; assumption).
  intros t ->. apply Z.mul_le_mono_nonneg_l; [lia |].
  apply Z.pow_le_mono_r; [lia |].
  destruct k as [| k]; [lia |].
  destruct (Hmin k) as [_ Hlt]; [lia |].
  apply Z.mul_lt_mono_pos_l in Hlt; [| assumption].
  apply Z.pow_lt_mono_r_iff in Hlt; lia.
Qed.

(** The 300 MB file of the end-to-end scenario: default chunk size 1 MB, cap
    256 MB. *)
Lemma chooseChunkSize_least_doubling_witness :
  exists k : nat,
    (forall fuel, (k < fuel)%nat ->
        chooseChunkSize fuel (300 * 1024 * 1024) (1024 * 1024)
                        (256 * 1024 * 1024)
        = Val (1024 * 1024 * 2 ^ Z.of_nat k))
    /\ ((300 * 1024 * 1024) / (1024 * 1024 * 2 ^ Z.of_nat k) <= numIncrements
        \/ 256 * 1024 * 1024 <= 1024 * 1024 * 2 ^ Z.of_nat k)
    /\ (forall j : nat, (j < k)%nat ->
          numIncrements < (300 * 1024 * 1024) / (1024 * 1024 * 2 ^ Z.of_nat j)
          /\ 1024 * 1024 * 2 ^ Z.of_nat j < 256 * 1024 * 1024)
    /\ (forall t : nat, 256 * 1024 * 1024 = 1024 * 1024 * 2 ^ Z.of_nat t ->
          1024 * 1024 * 2 ^ Z.of_nat k <= 256 * 1024 * 1024).
Proof.
  apply (chooseChunkSize_least_doubling (300 * 1024 * 1024) (1024 * 1024)
                                        (256 * 1024 * 1024)).
  lia.
Defined.

Example chooseChunkSize_scenario_B :
  chooseChunkSize 20 (300 * 1024 * 1024) (1024 * 1024) (256 * 1024 * 1024)
  = Val (8 * 1024 * 1024).
Proof. reflexivity. Qed.

(** ** Verification requests and user lookups *)

Section LookupProperties.

Context {W : Type} `{HasLog W}.
Variable requestsGet : Query -> option Response.

Lemma Verify_run (datafileId : Z) (response : Response) (w : W) :
  requestsGet (VerifyDataFile datafileId) = Some response ->
  Verify requestsGet datafileId w =
    (Val true,
     if (status_code response <? 200) || (300 <=? status_code response)
     then addLog Warning (text response)
            (addLog Warning "Failed to verify datafile id" w)
     else w).
Proof.
  intros Hget. unfold Verify. rewrite Hget.
  destruct ((status_code response <? 200) || (300 <=? status_code response));
    reflexivity.
Qed.

End LookupProperties.

(** C10: whatever status the server answers a verification request with,
    [Verify] returns [True]; a status outside 200..299 only adds two
    warnings to the log, so the returned value is the same for an accepted
    and for a rejected request. *)
Theorem Verify_returns_True_whatever_the_status
    {W : Type} `{HasLog W} (requestsGet : Query -> option Response)
    (datafileId : Z) (response : Response) (w : W) :
  requestsGet (VerifyDataFile datafileId) = Some response ->
  fst (Verify requestsGet datafileId w) = Val true
  /\ (status_code response < 200 \/ 300 <= status_code response ->
      snd (Verify requestsGet datafileId w) =
        addLog Warning (text response)
               (addLog Warning "Failed to verify datafile id" w))
  /\ (200 <= status_code response < 300 ->
      snd (Verify requestsGet datafileId w) = w).
Proof.
  intros Hget. rewrite (Verify_run requestsGet datafileId response w Hget).
  simpl. split; [reflexivity | split]; intros Hs.
  - destruct (Z.ltb_spec (status_code response) 200);
      destruct (Z.leb_spec 300 (status_code response));
      try reflexivity; lia.
  - destruct (Z.ltb_spec (status_code response) 200);
      destruct (Z.leb_spec 300 (status_code response));
      try reflexivity; lia.
Qed.

Lemma Verify_returns_True_whatever_the_status_witness :
  fst (Verify serverError 7 (emptyWorld [])) = Val true
  /\ (500 < 200 \/ 300 <= 500 ->
      snd (Verify serverError 7 (emptyWorld [])) =
        addLog Warning "Internal Server Error"
               (addLog Warning "Failed to verify datafile id" (emptyWorld [])))
  /\ (200 <= 500 < 300 ->
      snd (Verify serverError 7 (emptyWorld [])) = emptyWorld []).
Proof.
  apply (Verify_returns_True_whatever_the_status
           serverError 7 (mkResponse 500 "Internal Server Error" None)
           (emptyWorld [])).
  reflexivity.
Defined.

(** *** User lookups *)

(** C6, as stated, fails: with two matching records both lookups return the
    user built from the first record and raise nothing, so no ambiguity is
    signalled. *)
Lemma lookup_with_two_matches_picks_first :
  fst (GetUserByUsername twoMatches "alice" (emptyWorld []))
    = Val (newUserModel (Some "alice"%string) None None (Some aliceJson))
  /\ fst (GetUserByEmail twoMatches "alice@example.org" (emptyWorld []))
    = Val (newUserModel None None None (Some aliceJson))
  /\ ~ (exists message,
          fst (GetUserByUsername twoMatches "alice" (emptyWorld []))
          = Raise (MultipleObjectsReturned message)).
Proof.
  split; [reflexivity | split; [reflexivity |]].
  intros [message Hm]. discriminate Hm.
Qed.

(** C6, amended: a lookup by username or by email that the server answers
    with status 200 and a JSON body raises [DoesNotExist] when
    [total_count] is zero, which is not the plain [Exception] raised for a
    failed request or a status other than 200; when [total_count] is not
    zero it returns the user built from the first record of [objects],
    however many records there are. *)
Theorem user_lookup_not_found_or_first
    {W : Type} `{HasLog W} (requestsGet : Query -> option Response)
    (byEmail : bool) (key : string) (response : Response) (json : UsersJson)
    (w : W) :
  requestsGet (userQuery byEmail key) = Some response ->
  status_code response = 200 ->
  body response = Some json ->
  (total_count json = 0 ->
     exists message,
       lookupUser requestsGet byEmail key w = (Raise (DoesNotExist message), w)
       /\ forall text, DoesNotExist message <> PyException text)
  /\ (total_count json <> 0 ->
      forall first rest, objects json = first :: rest ->
        fst (lookupUser requestsGet byEmail key w)
        = Val (newUserModel (if byEmail then None else Some key) None None
                            (Some first))).
Proof.
  intros Hget Hstatus Hbody.
  split.
  - intros Hzero.
    destruct byEmail; simpl in Hget; unfold lookupUser;
      [unfold GetUserByEmail | unfold GetUserByUsername];
      rewrite Hget, Hstatus, Hbody, Hzero; simpl;
      eexists; (split; [reflexivity | intros t; discriminate]).
  - intros Hnz first rest Hobjs.
    assert (Hneq : (total_count json =? 0) = false) by (apply Z.eqb_neq; exact Hnz).
    destruct byEmail; simpl in Hget; unfold lookupUser;
      [unfold GetUserByEmail | unfold GetUserByUsername];
      rewrite Hget, Hstatus, Hbody; simpl; rewrite Hneq, Hobjs; reflexivity.
Qed.

Lemma user_lookup_not_found_or_first_witness :
  (total_count (mkUsersJson 0 []) = 0 ->
     exists message,
       lookupUser noMatch false "bob" (emptyWorld [])
         = (Raise (DoesNotExist message), emptyWorld [])
       /\ forall text, DoesNotExist message <> PyException text)
  /\ (total_count (mkUsersJson 0 []) <> 0 ->
      forall first rest, objects (mkUsersJson 0 []) = first :: rest ->
        fst (lookupUser noMatch false "bob" (emptyWorld []))
        = Val (newUserModel (Some "bob"%string) None None (Some first))).
Proof.
  apply (user_lookup_not_found_or_first noMatch false "bob"
           (mkResponse 200 "OK" (Some (mkUsersJson 0 []))) (mkUsersJson 0 [])
           (emptyWorld [])); reflexivity.
Defined.

(** A failed request and a status other than 200 are plain exceptions. *)
Lemma user_lookup_transport_error
    {W : Type} `{HasLog W} (requestsGet : Query -> option Response)
    (byEmail : bool) (key : string) (w : W) :
  (requestsGet (userQuery byEmail key) = None
   \/ exists response, requestsGet (userQuery byEmail key) = Some response
                       /\ status_code response <> 200) ->
  exists text, fst (lookupUser requestsGet byEmail key w) = Raise (PyException text).
Proof.
  intros [Hnone | (response & Hget & Hstatus)];
    destruct byEmail; simpl in *; unfold lookupUser;
    [unfold GetUserByEmail | unfold GetUserByUsername
    | unfold GetUserByEmail | unfold GetUserByUsername].
  1,2: rewrite Hnone; eexists; reflexivity.
  all: rewrite Hget; apply Z.eqb_neq in Hstatus; rewrite Hstatus; simpl;
       eexists; reflexivity.
Qed.

(** ** The chunk loop of the POSIX uploader *)

Lemma remoteOps_app t1 t2 : remoteOps (t1 ++ t2) = remoteOps t1 ++ remoteOps t2.
Proof. unfold remoteOps. apply List.filter_app. Qed.

Lemma bytesSent_app t1 t2 : bytesSent (t1 ++ t2) = bytesSent t1 + bytesSent t2.
Proof.
  unfold bytesSent. induction t1 as [| e t1 IH]; simpl; [reflexivity |].
  rewrite IH. lia.
Qed.

Lemma lastProgress_snoc_progress t b f m :
  lastProgress (t ++ [Progress b f m]) = Some b.
Proof. unfold lastProgress. now rewrite List.fold_left_app. Qed.

Lemma lastProgress_snoc_log t l m :
  lastProgress (t ++ [Log l m]) = lastProgress t.
Proof. unfold lastProgress. now rewrite List.fold_left_app. Qed.

Lemma posixChunkBody_ok env fileSize cs final chunkP b skip w :
  chunkP <> final ->
  flagsAt env (polls w) = false ->
  exitCode env (procs w) = 0 ->
  exitCode env (S (procs w)) = 0 ->
  exitCode env (S (S (procs w))) = 0 ->
  exists w1,
    posixChunkBody env fileSize cs final chunkP (b, skip) w =
      (if flagsAt env (S (polls w))
       then (Val Return,
             addEvent (Log Debug "UploadLargeFileFromPosixSystem 2: Aborting upload") w1)
       else (Val (Next (b + Z.of_nat (length (chunkOf cs skip w)), skip + 1)),
             w1))
    /\ chunkSent fileSize cs final chunkP b skip w w1.
Proof.
  intros Hneq Hflag Hdd Hscp Hcat. unfold flagsAt in *.
  unfold posixChunkBody, bind, shouldAbort, logger, popen, getLocalChunk,
    unlinkChunkFile, progressCallback, emit, raise, ret.
  simpl. rewrite Hflag. simpl. rewrite Hdd. simpl. rewrite Hscp. simpl.
  destruct (osFails env (oscalls w)) eqn:Hos; simpl; rewrite Hcat; simpl;
    match goal with |- context [_ (tickPolls ?x)] => exists (tickPolls x) end;
    (split; [destruct (shuttingDown env (S (polls w))
                       || canceled env (S (polls w))); reflexivity |]);
    unfold chunkSent, chunkOf; simpl;
    rewrite lookup_insert_eq, lookup_insert_ne by assumption;
    (repeat split; try reflexivity);
    [ exists [Log Debug "ddCommandString"; Dd cs skip;
              Log Debug "scpCommandString";
              Scp chunkP (take (Z.to_nat cs)
                            (drop (Z.to_nat (skip * cs)) (localFile w)));
              Log Error "os.unlink failed"; Cat (0 <? b) chunkP final]
    | exists [Log Debug "ddCommandString"; Dd cs skip;
              Log Debug "scpCommandString";
              Scp chunkP (take (Z.to_nat cs)
                            (drop (Z.to_nat (skip * cs)) (localFile w)));
              Cat (0 <? b) chunkP final] ];
    (repeat split; try reflexivity;
     try (rewrite <- !app_assoc; reflexivity); simpl; lia).
Qed.

Lemma posixChunkBody_next_inv env fileSize cs final chunkP st w st' w' :
  posixChunkBody env fileSize cs final chunkP st w = (Val (Next st'), w') ->
  flagsAt env (polls w) = false
  /\ exitCode env (procs w) = 0
  /\ exitCode env (S (procs w)) = 0
  /\ exitCode env (S (S (procs w))) = 0
  /\ flagsAt env (S (polls w)) = false.
Proof.
  destruct st as [b skip]. unfold flagsAt.
  unfold posixChunkBody, bind, shouldAbort, logger, popen, getLocalChunk,
    unlinkChunkFile, progressCallback, emit, raise, ret.
  simpl.
  destruct (shuttingDown env (polls w) || canceled env (polls w));
    [discriminate |]. simpl.
  destruct (Z.eqb_spec (exitCode env (procs w)) 0) as [Hdd | _];
    [| discriminate]. simpl.
  destruct (Z.eqb_spec (exitCode env (S (procs w))) 0) as [Hscp | _];
    [| discriminate]. simpl.
  destruct (osFails env (oscalls w)); simpl;
    (destruct (Z.eqb_spec (exitCode env (S (S (procs w)))) 0) as [Hcat | _];
     [| discriminate]); simpl;
    (destruct (shuttingDown env (S (polls w)) || canceled env (S (polls w)));
     [discriminate |]); intros _; auto.
Qed.

Lemma ddSkips_app t1 t2 : ddSkips (t1 ++ t2) = ddSkips t1 ++ ddSkips t2.
Proof. unfold ddSkips. apply List.flat_map_app. Qed.

(** *** The chunk path is not the file path *)

Lemma string_length_app (a b : string) :
  String.length (a ++ b)%string = (String.length a + String.length b)%nat.
Proof. induction a as [| c a IH]; simpl; [reflexivity | now rewrite IH]. Qed.

Lemma splitLastSlash_tail (p h t : string) :
  splitLastSlash p = Some (h, t) -> splitLastSlash t = None.
Proof.
  revert h t. induction p as [| c p IH]; intros h t Hs; [discriminate |].
  simpl in Hs. destruct (splitLastSlash p) as [[h' t'] |] eqn:Hp.
  - inversion Hs; subst. eapply IH; reflexivity.
  - destruct (isSlash c); [| discriminate]. now inversion Hs; subst.
Qed.

Lemma basename_no_slash (p : string) : splitLastSlash (basename p) = None.
Proof.
  unfold basename, pathSplit.
  destruct (splitLastSlash p) as [[h t] |] eqn:Hs; simpl.
  - eapply splitLastSlash_tail; eassumption.
  - assumption.
Qed.

Lemma splitLastSlash_app_None (a b : string) :
  splitLastSlash a = None -> splitLastSlash b = None ->
  splitLastSlash (a ++ b)%string = None.
Proof.
  intros Ha Hb. induction a as [| c a IH]; simpl in *; [assumption |].
  destruct (splitLastSlash a) as [[h t] |]; [discriminate |].
  rewrite IH by reflexivity. destruct (isSlash c); [discriminate | reflexivity].
Qed.

Lemma splitLastSlash_after_slash (x y : string) :
  splitLastSlash y = None ->
  splitLastSlash (x ++ String "/" y)%string = Some ((x ++ "/")%string, y).
Proof.
  intros Hy. induction x as [| c x IH]; simpl.
  - now rewrite Hy.
  - now rewrite IH.
Qed.

Lemma basename_remoteChunkPathOf (p : string) :
  basename (remoteChunkPathOf p) = ("." ++ basename p ++ ".chunk")%string.
Proof.
  unfold remoteChunkPathOf.
  change (dirname p ++ "/." ++ basename p ++ ".chunk")%string
    with (dirname p ++ String "/" ("." ++ basename p ++ ".chunk"))%string.
  unfold basename at 1. unfold pathSplit.
  rewrite splitLastSlash_after_slash; [reflexivity |].
  apply (splitLastSlash_app_None "."); [reflexivity |].
  apply splitLastSlash_app_None; [apply basename_no_slash | reflexivity].
Qed.

Lemma remoteChunkPathOf_neq (p : string) : remoteChunkPathOf p <> p.
Proof.
  intros Heq. pose proof (basename_remoteChunkPathOf p) as Hb.
  rewrite Heq in Hb. apply (f_equal String.length) in Hb.
  rewrite !string_length_app in Hb. simpl in Hb. lia.
Qed.

(** *** Loop heads and the loop *)

Lemma while_loopHead {W T} (cond : T -> bool) (body : T -> St W (Ctl T))
    (n : nat) :
  forall fuel s w s' w',
    loopHead cond body n s w = Some (s', w') ->
    (n <= fuel)%nat ->
    while fuel cond body s w = while (fuel - n) cond body s' w'.
Proof.
  induction n as [| n IH]; intros fuel s w s' w' Hhead Hle.
  - inversion Hhead; subst. now rewrite Nat.sub_0_r.
  - simpl in Hhead.
    destruct (loopHead cond body n s w) as [[s1 w1] |] eqn:Hn; [| discriminate].
    destruct (cond s1) eqn:Hc; [| discriminate].
    destruct (body s1 w1) as [[[s2 |] | |] w2] eqn:Hb; try discriminate.
    inversion Hhead; subst.
    rewrite (IH fuel s w s1 w1 Hn) by lia.
    replace (fuel - n)%nat with (S (fuel - S n)) by lia.
    simpl. rewrite Hc. unfold bind. now rewrite Hb.
Qed.

Lemma while_done {W T} (cond : T -> bool) (body : T -> St W (Ctl T))
    (fuel : nat) (s : T) (w : W) :
  cond s = false -> while (S fuel) cond body s w = (Val (Next s), w).
Proof. intros Hc. simpl. now rewrite Hc. Qed.

Lemma while_return {W T} (cond : T -> bool) (body : T -> St W (Ctl T))
    (fuel : nat) (s : T) (w w' : W) :
  cond s = true -> body s w = (Val Return, w') ->
  while (S fuel) cond body s w = (Val Return, w').
Proof. intros Hc Hb. simpl. rewrite Hc. unfold bind. now rewrite Hb. Qed.

Lemma loopHead_S {W T} (cond : T -> bool) (body : T -> St W (Ctl T))
    (n : nat) (s : T) (w : W) (s2 : T) (w2 : W) :
  loopHead cond body (S n) s w = Some (s2, w2) ->
  exists s1 w1,
    loopHead cond body n s w = Some (s1, w1)
    /\ cond s1 = true
    /\ body s1 w1 = (Val (Next s2), w2).
Proof.
  simpl.
  destruct (loopHead cond body n s w) as [[s1 w1] |]; [| discriminate].
  destruct (cond s1) eqn:Hc; [| discriminate].
  destruct (body s1 w1) as [[[s2' |] | |] w2'] eqn:Hb; try discriminate.
  intros Heq; inversion Heq; subst. eauto.
Qed.

(** What one whole pass through the body leaves behind. *)
Lemma posixChunkBody_next env fileSize cs final chunkP b skip w st' w' :
  chunkP <> final ->
  posixChunkBody env fileSize cs final chunkP (b, skip) w
    = (Val (Next st'), w') ->
  st' = (b + Z.of_nat (length (chunkOf cs skip w)), skip + 1)
  /\ chunkSent fileSize cs final chunkP b skip w w'.
Proof.
  intros Hneq Hrun.
  destruct (posixChunkBody_next_inv _ _ _ _ _ _ _ _ _ Hrun)
    as (Hf & Hdd & Hscp & Hcat & Hf2).
  destruct (posixChunkBody_ok env fileSize cs final chunkP b skip w
              Hneq Hf Hdd Hscp Hcat) as (w1 & Heq & Hsent).
  rewrite Hf2, Hrun in Heq. inversion Heq; subst. auto.
Qed.

(** *** The loop after [n] passes *)

Section PosixLoop.

Variable env : Env.
Variables fileSize cs : Z.
Variables final chunkP : string.
Hypothesis cs_pos : 0 < cs.
Hypothesis paths_differ : chunkP <> final.

Local Abbreviation body := (posixChunkBody env fileSize cs final chunkP).
Local Abbreviation cond := (fun st : Z * Z => fst st <? fileSize).

Lemma chunkOf_length (skip : Z) (w : World) :
  0 <= skip ->
  skip * cs <= Z.of_nat (length (localFile w)) ->
  Z.of_nat (length (chunkOf cs skip w))
  = Z.min cs (Z.of_nat (length (localFile w)) - skip * cs).
Proof.
  intros Hskip Hle. unfold chunkOf. rewrite length_take, length_drop.
  assert (0 <= skip * cs) by nia. lia.
Qed.

Lemma take_chunks (l : list Byte.byte) (skip : Z) (n : nat) :
  0 <= skip ->
  take (Z.to_nat (Z.of_nat n * cs)) (drop (Z.to_nat (skip * cs)) l)
    ++ take (Z.to_nat cs) (drop (Z.to_nat ((skip + Z.of_nat n) * cs)) l)
  = take (Z.to_nat (Z.of_nat (S n) * cs)) (drop (Z.to_nat (skip * cs)) l).
Proof.
  intros Hskip.
  assert (Hs : 0 <= skip * cs) by nia.
  assert (Hn : 0 <= Z.of_nat n * cs) by nia.
  replace (Z.to_nat ((skip + Z.of_nat n) * cs))
    with (Z.to_nat (skip * cs) + Z.to_nat (Z.of_nat n * cs))%nat by lia.
  rewrite <- drop_drop, take_take_drop. f_equal. lia.
Qed.

Lemma afterChunks_start (skip : Z) (w : World) :
  skip * cs <= fileSize ->
  afterChunks fileSize cs final 0 skip w (skip * cs, skip) w.
Proof.
  intros Hstart. unfold afterChunks.
  repeat split; try lia; try reflexivity. f_equal; lia.
Qed.

(** One more chunk. *)
Lemma afterChunks_step (n : nat) (skip : Z) (w : World)
    (s1 : Z * Z) (w1 w2 : World) :
  0 <= skip -> skip * cs <= fileSize ->
  Z.of_nat (length (localFile w)) = fileSize ->
  afterChunks fileSize cs final n skip w s1 w1 ->
  fst s1 < fileSize ->
  chunkSent fileSize cs final chunkP (fst s1) (snd s1) w1 w2 ->
  afterChunks fileSize cs final (S n) skip w
    (fst s1 + Z.of_nat (length (chunkOf cs (snd s1) w1)), snd s1 + 1) w2.
Proof.
  intros Hskip Hstart Hlen (-> & Hl1 & Hp1 & Hq1 & Hd1 & Hzero & Hpos) Hc
    (Hl2 & Hr2 & Hp2 & Hq2 & Hd2 & evs2 & He2 & Hops2 & Hs2 & Hk2).
  simpl fst in *. simpl snd in *.
  set (X := (skip + Z.of_nat n) * cs) in *.
  assert (HX : X < fileSize) by lia.
  rewrite Z.min_l in * by lia.
  assert (HX0 : 0 <= X) by (subst X; nia).
  assert (Hchunk : Z.of_nat (length (chunkOf cs (skip + Z.of_nat n) w1))
                   = Z.min cs (fileSize - X)).
  { rewrite chunkOf_length; rewrite ?Hl1, ?Hlen; fold X; lia. }
  assert (HX' : (skip + Z.of_nat (S n)) * cs = X + cs) by (subst X; lia).
  unfold afterChunks.
  split; [f_equal; lia |].
  split; [congruence |]. split; [lia |]. split; [lia |].
  split; [congruence |]. split; [discriminate |].
  intros _. split; [lia |]. split.
  - rewrite Hr2, lookup_insert_eq. f_equal.
    unfold chunkOf. rewrite Hl1. fold X.
    destruct n as [| n].
    + rewrite (Hzero eq_refl).
      replace X with (skip * cs) by (subst X; lia).
      f_equal. f_equal. lia.
    + destruct Hpos as (_ & Hrem & _); [lia |].
      assert (0 < X) by (subst X; nia).
      destruct (Z.ltb_spec 0 X); [| lia].
      rewrite Hrem. simpl default. rewrite <- app_assoc. f_equal.
      subst X. apply take_chunks. assumption.
  - simpl fst.
    destruct n as [| n].
    + rewrite (Hzero eq_refl) in *. exists evs2.
      replace X with (skip * cs) in * by (subst X; lia).
      split; [exact He2 |]. split; [lia |].
      split; [rewrite Hk2; simpl; f_equal; lia |].
      rewrite Hops2. reflexivity.
    + destruct Hpos as (_ & _ & evs1 & He1 & Hs1 & Hk1 & Ho1); [lia |].
      exists (evs1 ++ [Progress (Some X) fileSize None] ++ evs2).
      split; [rewrite He2, He1, <- !app_assoc; reflexivity |].
      split; [rewrite !bytesSent_app; simpl; lia |].
      split.
      * rewrite !ddSkips_app, Hk1, Hk2.
        replace (S (S n)) with (S n + 1)%nat by lia.
        rewrite List.seq_app, List.map_app. reflexivity.
      * rewrite !remoteOps_app, !length_app, Ho1, Hops2. simpl. lia.
Qed.

(** The state at a loop head reached after [n] passes, for a loop that
    starts on a chunk boundary of a local file of the declared size. *)
Lemma posix_loopHead_inv (n : nat) :
  forall skip w st' w',
    0 <= skip -> skip * cs <= fileSize ->
    Z.of_nat (length (localFile w)) = fileSize ->
    loopHead cond body n (skip * cs, skip) w = Some (st', w') ->
    afterChunks fileSize cs final n skip w st' w'.
Proof.
  induction n as [| n IH]; intros skip w st' w' Hskip Hstart Hlen Hhead.
  - simpl in Hhead. inversion Hhead; subst st' w'. now apply afterChunks_start.
  - destruct (loopHead_S _ _ _ _ _ _ _ Hhead) as (s1 & w1 & Hn & Hc & Hb).
    pose proof (IH skip w s1 w1 Hskip Hstart Hlen Hn) as Hafter.
    simpl in Hc. apply Z.ltb_lt in Hc. destruct s1 as [b1 skip1].
    destruct (posixChunkBody_next _ _ _ _ _ _ _ _ _ _ paths_differ Hb)
      as (-> & Hsent).
    exact (afterChunks_step n skip w (b1, skip1) w1 w' Hskip Hstart Hlen
             Hafter Hc Hsent).
Qed.

Lemma posixChunkBody_abort_first (b skip : Z) (w : World) :
  flagsAt env (polls w) = true ->
  body (b, skip) w =
    (Val Return,
     addEvent (Log Debug "UploadLargeFileFromPosixSystem 1: Aborting upload")
              (tickPolls w)).
Proof.
  unfold flagsAt. intros Hflag.
  unfold posixChunkBody, bind, shouldAbort. now rewrite Hflag.
Qed.

(** With the commands succeeding and the flags down, the loop gets through
    [n] passes as long as there is something left to send at each. *)
Lemma posix_loopHead_runs (n : nat) :
  forall skip w,
    0 <= skip -> skip * cs <= fileSize ->
    Z.of_nat (length (localFile w)) = fileSize ->
    ((1 <= n)%nat -> (skip + Z.of_nat n - 1) * cs < fileSize) ->
    (forall i, (i < 3 * n)%nat -> exitCode env (procs w + i) = 0) ->
    (forall i, (i < 2 * n)%nat -> flagsAt env (polls w + i) = false) ->
    exists st' w', loopHead cond body n (skip * cs, skip) w = Some (st', w').
Proof.
  induction n as [| n IH]; intros skip w Hskip Hstart Hlen Hmore Hrc Hfl.
  - simpl. eauto.
  - destruct (IH skip w Hskip Hstart Hlen) as (s1 & w1 & Hn).
    { intros _. specialize (Hmore ltac:(lia)). nia. }
    { intros i Hi. apply Hrc. lia. }
    { intros i Hi. apply Hfl. lia. }
    destruct (posix_loopHead_inv n skip w s1 w1 Hskip Hstart Hlen Hn)
      as (-> & Hl1 & Hp1 & Hq1 & _).
    specialize (Hmore ltac:(lia)).
    assert (HX : (skip + Z.of_nat n) * cs < fileSize) by lia.
    destruct (posixChunkBody_ok env fileSize cs final chunkP
                ((skip + Z.of_nat n) * cs) (skip + Z.of_nat n) w1 paths_differ)
      as (w2 & Hrun & _).
    { rewrite Hq1. apply Hfl. lia. }
    { rewrite Hp1. apply Hrc. lia. }
    { rewrite Hp1. replace (S (procs w + 3 * n)) with (procs w + (3 * n + 1))%nat by lia.
      apply Hrc. lia. }
    { rewrite Hp1. replace (S (S (procs w + 3 * n))) with (procs w + (3 * n + 2))%nat by lia.
      apply Hrc. lia. }
    simpl in Hrun.
    rewrite Hq1 in Hrun.
    replace (S (polls w + 2 * n)) with (polls w + (2 * n + 1))%nat in Hrun by lia.
    rewrite Hfl in Hrun by lia.
    simpl. rewrite Hn. simpl. rewrite Z.min_l by lia.
    destruct (Z.ltb_spec ((skip + Z.of_nat n) * cs) fileSize); [| lia].
    rewrite Hrun. eauto.
Qed.

(** The flags go up after chunk number [n] of this run, with more of the
    file still to send: the loop returns, and the world is the one after
    [n] chunks with one more line in the log. *)
Lemma posix_loop_canceled (n : nat) (skip : Z) (w : World) (fuel : nat) :
  (1 <= n)%nat ->
  0 <= skip -> skip * cs <= fileSize ->
  Z.of_nat (length (localFile w)) = fileSize ->
  (skip + Z.of_nat n) * cs < fileSize ->
  (forall i, (i < 3 * n)%nat -> exitCode env (procs w + i) = 0) ->
  (forall i, (i < 2 * n - 1)%nat -> flagsAt env (polls w + i) = false) ->
  flagsAt env (polls w + (2 * n - 1)) = true
  \/ flagsAt env (polls w + 2 * n) = true ->
  (n < fuel)%nat ->
  exists st1 w1 w' message,
    afterChunks fileSize cs final n skip w st1 w1
    /\ while fuel cond body (skip * cs, skip) w = (Val Return, w')
    /\ events w' = events w1 ++ [Log Debug message]
    /\ remote w' = remote w1
    /\ procs w' = procs w1.
Proof.
  intros Hn Hskip Hstart Hlen Hmore Hrc Hfl Hup Hfuel.
  destruct (flagsAt env (polls w + (2 * n - 1))) eqn:Hpost.
  - (* seen right after the chunk *)
    destruct n as [| j]; [lia |].
    destruct (posix_loopHead_runs j skip w Hskip Hstart Hlen)
      as (s1 & w1 & Hhead).
    { intros _. nia. }
    { intros i Hi. apply Hrc. lia. }
    { intros i Hi. apply Hfl. lia. }
    pose proof (posix_loopHead_inv j skip w s1 w1 Hskip Hstart Hlen Hhead)
      as Hafter.
    pose proof Hafter as (Hs1 & Hl1 & Hp1 & Hq1 & _).
    assert (HX : (skip + Z.of_nat j) * cs < fileSize) by nia.
    rewrite Z.min_l in Hs1 by lia.
    destruct (posixChunkBody_ok env fileSize cs final chunkP
                ((skip + Z.of_nat j) * cs) (skip + Z.of_nat j) w1 paths_differ)
      as (w2 & Hrun & Hsent).
    { rewrite Hq1. apply Hfl. lia. }
    { rewrite Hp1. apply Hrc. lia. }
    { rewrite Hp1.
      replace (S (procs w + 3 * j)) with (procs w + (3 * j + 1))%nat by lia.
      apply Hrc. lia. }
    { rewrite Hp1.
      replace (S (S (procs w + 3 * j))) with (procs w + (3 * j + 2))%nat by lia.
      apply Hrc. lia. }
    rewrite Hq1 in Hrun.
    replace (S (polls w + 2 * j)) with (polls w + (2 * S j - 1))%nat
      in Hrun by lia.
    rewrite Hpost in Hrun.
    pose proof (afterChunks_step j skip w s1 w1 w2 Hskip Hstart Hlen Hafter)
      as Hstep.
    rewrite Hs1 in Hstep. simpl fst in Hstep. simpl snd in Hstep.
    specialize (Hstep HX Hsent).
    eexists. exists w2. eexists. eexists.
    split; [exact Hstep |].
    split.
    { rewrite (while_loopHead _ _ j fuel _ _ _ _ Hhead) by lia.
      replace (fuel - j)%nat with (S (fuel - j - 1)) by lia.
      apply while_return; [| rewrite Hs1; exact Hrun].
      rewrite Hs1. simpl. apply Z.ltb_lt. lia. }
    repeat split.
  - (* seen before the next chunk *)
    destruct Hup as [Hup | Hup]; [discriminate |].
    destruct (posix_loopHead_runs n skip w Hskip Hstart Hlen)
      as (s1 & w1 & Hhead).
    { intros _. nia. }
    { exact Hrc. }
    { intros i Hi. destruct (Nat.eq_dec i (2 * n - 1)%nat) as [-> | Hne];
        [exact Hpost | apply Hfl; lia]. }
    pose proof (posix_loopHead_inv n skip w s1 w1 Hskip Hstart Hlen Hhead)
      as Hafter.
    pose proof Hafter as (Hs1 & Hl1 & Hp1 & Hq1 & _).
    exists s1, w1. eexists. eexists.
    split; [exact Hafter |].
    split.
    { rewrite (while_loopHead _ _ n fuel _ _ _ _ Hhead) by lia.
      replace (fuel - n)%nat with (S (fuel - n - 1)) by lia.
      apply while_return.
      - rewrite Hs1. simpl. apply Z.ltb_lt. lia.
      - rewrite Hs1. apply posixChunkBody_abort_first.
        rewrite Hq1. exact Hup. }
    repeat split.
Qed.

End PosixLoop.

(** ** Whole runs of the POSIX uploader *)

Lemma lastProgress_snoc (t : list Event) (e : Event) :
  lastProgress (t ++ [e])
  = match e with Progress b _ _ => Some b | _ => lastProgress t end.
Proof. unfold lastProgress. rewrite List.fold_left_app. now destruct e. Qed.

Lemma posixResume_run (fileSize cs b : Z) (w : World) :
  0 < cs ->
  posixResume fileSize cs b w =
    (Val (posixFirstChunk fileSize cs b * cs, posixFirstChunk fileSize cs b),
     if (0 <? b) && (b <? fileSize) && (b mod cs =? 0)
     then addEvent (Progress (Some b) fileSize None)
            (addEvent (Progress (Some b) fileSize
               (Some "Performing seek on file, so we can resume the upload."%string)) w)
     else w).
Proof.
  intros Hcs. unfold posixResume, posixFirstChunk.
  destruct ((0 <? b) && (b <? fileSize) && (b mod cs =? 0)) eqn:Hres.
  - apply andb_true_iff in Hres as [_ Hmod]. apply Z.eqb_eq in Hmod.
    unfold bind, progressCallback, emit, ret. simpl. do 3 f_equal.
    rewrite Z.mul_comm. apply Z.div_exact; lia.
  - reflexivity.
Qed.

Lemma posixFirstChunk_bounds (fileSize cs b : Z) :
  0 < cs -> 0 <= fileSize ->
  0 <= posixFirstChunk fileSize cs b
  /\ posixFirstChunk fileSize cs b * cs <= fileSize.
Proof.
  intros Hcs Hsize. unfold posixFirstChunk.
  destruct ((0 <? b) && (b <? fileSize) && (b mod cs =? 0)) eqn:Hres; [| lia].
  apply andb_true_iff in Hres as [Hres Hmod].
  apply andb_true_iff in Hres as [Hpos Hlt].
  apply Z.ltb_lt in Hpos, Hlt. apply Z.eqb_eq in Hmod.
  split; [apply Z.div_pos; lia |].
  rewrite Z.mul_comm. pose proof (Z.mul_div_le b cs Hcs). lia.
Qed.

(** The uploader up to its chunk loop, when [mkdir -p] and the first
    [rm -f] exit with 0. *)
Lemma UploadLargeFileFromPosixSystem_loop
    (env : Env) (fuel : nat) (cfg : Settings) (fileSize : Z)
    (remoteFilePath : string) (b : Z) (w : World) (cs : Z) :
  0 < cs ->
  chooseChunkSize fuel fileSize (defaultChunkSize cfg) (maxChunkSize cfg)
    = Val cs ->
  exitCode env (procs w) = 0 ->
  exitCode env (S (procs w)) = 0 ->
  UploadLargeFileFromPosixSystem env fuel cfg fileSize remoteFilePath b w =
    let (r, w') :=
      posixChunkLoop env fuel fileSize cs remoteFilePath
        (remoteChunkPathOf remoteFilePath)
        (posixFirstChunk fileSize cs b * cs, posixFirstChunk fileSize cs b)
        (posixLoopStart fileSize cs remoteFilePath b w) in
    match r with
    | Val (Next _) => posixCleanup env (remoteChunkPathOf remoteFilePath) w'
    | Val Return => (Val tt, w')
    | Raise e => (Raise e, w')
    | Diverge => (Diverge, w')
    end.
Proof.
  intros Hcs Hch H0 H1.
  unfold UploadLargeFileFromPosixSystem.
  unfold bind at 1. unfold logger at 1. unfold bind at 1. unfold popen at 1.
  simpl. rewrite H0. simpl.
  unfold bind at 1. unfold logger at 1. unfold bind at 1. unfold popen at 1.
  simpl. rewrite H1. simpl.
  unfold bind at 1. unfold liftRes at 1. rewrite Hch.
  unfold bind at 1. rewrite posixResume_run by assumption.
  unfold bind at 1. unfold posixLoopStart.
  destruct (posixChunkLoop _ _ _ _ _ _ _ _) as [[[st |] | e |] w'];
    reflexivity.
Qed.

Lemma posixLoopStart_facts (fileSize cs : Z) (remoteFilePath : string)
    (b : Z) (w : World) :
  let w0 := posixLoopStart fileSize cs remoteFilePath b w in
  localFile w0 = localFile w
  /\ procs w0 = S (S (procs w))
  /\ polls w0 = polls w
  /\ remote w0 = delete (remoteChunkPathOf remoteFilePath) (remote w)
  /\ exists evs,
       events w0 = events w ++ evs
       /\ bytesSent evs = 0
       /\ ddSkips evs = []
       /\ remoteOps evs = [Mkdir (dirname remoteFilePath);
                           RmChunk (remoteChunkPathOf remoteFilePath)].
Proof.
  unfold posixLoopStart.
  destruct ((0 <? b) && (b <? fileSize) && (b mod cs =? 0)); simpl;
    repeat split; eexists;
    (split; [rewrite <- !app_assoc; reflexivity | repeat split]).
Qed.

Lemma posixCleanup_run (env : Env) (chunkP : string) (w : World) :
  posixCleanup env chunkP w =
    (if exitCode env (procs w) =? 0 then Val tt
     else Raise (SshException (exitCode env (procs w))),
     let w1 := tickProcs (addEvent (RmChunk chunkP) w) in
     if exitCode env (procs w) =? 0 then rmEffect chunkP w1 else w1).
Proof.
  unfold posixCleanup, bind, popen, raise, ret.
  destruct (exitCode env (procs w) =? 0); reflexivity.
Qed.

Lemma chunksLeft_spec (fileSize cs skip : Z) :
  0 < cs -> skip * cs <= fileSize ->
  let k := Z.of_nat (chunksLeft fileSize cs skip) in
  fileSize <= (skip + k) * cs
  /\ (0 < k -> (skip + k - 1) * cs < fileSize)
  /\ (skip * cs < fileSize -> 0 < k).
Proof.
  intros Hcs Hle. unfold chunksLeft, chunkCount.
  set (R := fileSize - skip * cs).
  assert (HR : 0 <= R) by (subst R; lia).
  pose proof (Z.mul_div_le (R + cs - 1) cs Hcs) as Hlo.
  pose proof (Z.mul_succ_div_gt (R + cs - 1) cs Hcs) as Hhi.
  assert (Hq : 0 <= (R + cs - 1) / cs) by (apply Z.div_pos; lia).
  rewrite Z2Nat.id by assumption.
  set (q := (R + cs - 1) / cs) in *.
  repeat split; intros; subst R; nia.
Qed.

(** A run in which every command up to the last chunk exits with 0 and the
    flags stay down: the uploader sends the chunks that are left and ends
    with the removal of the remote chunk file, run in the world [w1]. *)
Lemma posix_complete_run
    (env : Env) (fuel : nat) (cfg : Settings) (fileSize : Z)
    (remoteFilePath : string) (b : Z) (w : World) (cs : Z) :
  0 < cs ->
  chooseChunkSize fuel fileSize (defaultChunkSize cfg) (maxChunkSize cfg)
    = Val cs ->
  Z.of_nat (length (localFile w)) = fileSize ->
  let skip := posixFirstChunk fileSize cs b in
  let k := chunksLeft fileSize cs skip in
  let chunkP := remoteChunkPathOf remoteFilePath in
  (forall i, (i < 2 + 3 * k)%nat -> exitCode env (procs w + i) = 0) ->
  (forall i, (i < 2 * k)%nat -> flagsAt env (polls w + i) = false) ->
  (k < fuel)%nat ->
  exists w1,
    UploadLargeFileFromPosixSystem env fuel cfg fileSize remoteFilePath b w
      = posixCleanup env chunkP w1
    /\ localFile w1 = localFile w
    /\ procs w1 = (procs w + 2 + 3 * k)%nat
    /\ polls w1 = (polls w + 2 * k)%nat
    /\ (exists evs,
          events w1 = events w ++ evs
          /\ bytesSent evs = fileSize - skip * cs
          /\ ddSkips evs = map (fun i => skip + Z.of_nat i) (seq 0 k)
          /\ length (remoteOps evs) = (2 + 2 * k)%nat)
    /\ ((1 <= k)%nat ->
        lastProgress (events w1) = Some (Some fileSize)
        /\ remote w1 !! remoteFilePath =
             Some ((if 0 <? skip * cs
                    then default [] (remote w !! remoteFilePath) else [])
                   ++ drop (Z.to_nat (skip * cs)) (localFile w))).
Proof.
  intros Hcs Hch Hlen skip k chunkP Hrc Hfl Hfuel.
  assert (Hsize : 0 <= fileSize) by lia.
  destruct (posixFirstChunk_bounds fileSize cs b Hcs Hsize) as [Hskip Hstart].
  fold skip in Hskip, Hstart.
  destruct (chunksLeft_spec fileSize cs skip Hcs Hstart) as (Hend & Hlast & _).
  fold k in Hend, Hlast. clearbody k.
  pose proof (remoteChunkPathOf_neq remoteFilePath) as Hneq. fold chunkP in Hneq.
  rewrite (UploadLargeFileFromPosixSystem_loop env fuel cfg fileSize
             remoteFilePath b w cs Hcs Hch).
  2: { rewrite <- (Nat.add_0_r (procs w)). apply Hrc. lia. }
  2: { rewrite <- Nat.add_1_r. apply Hrc. lia. }
  fold skip chunkP.
  set (w0 := posixLoopStart fileSize cs remoteFilePath b w).
  destruct (posixLoopStart_facts fileSize cs remoteFilePath b w)
    as (Hl0 & Hp0 & Hq0 & Hr0 & evs0 & He0 & Hs0 & Hk0 & Ho0).
  fold w0 chunkP in Hl0, Hp0, Hq0, Hr0, He0, Ho0.
  assert (Hlen0 : Z.of_nat (length (localFile w0)) = fileSize) by congruence.
  destruct (posix_loopHead_runs env fileSize cs remoteFilePath chunkP Hcs Hneq
              k skip w0 Hskip Hstart Hlen0) as (st' & w1 & Hhead).
  { intros Hk. apply Hlast. lia. }
  { intros i Hi. rewrite Hp0.
    replace (S (S (procs w)) + i)%nat with (procs w + (2 + i))%nat by lia.
    apply Hrc. lia. }
  { intros i Hi. rewrite Hq0. apply Hfl. assumption. }
  destruct (posix_loopHead_inv env fileSize cs remoteFilePath chunkP Hcs Hneq
              k skip w0 st' w1 Hskip Hstart Hlen0 Hhead)
    as (-> & Hl1 & Hp1 & Hq1 & _ & Hzero & Hpos).
  rewrite Z.min_r in * by lia.
  unfold posixChunkLoop.
  rewrite (while_loopHead _ _ k fuel _ _ _ _ Hhead) by lia.
  replace (fuel - k)%nat with (S (fuel - k - 1)) by lia.
  rewrite while_done by (simpl; apply Z.ltb_irrefl).
  exists w1. split; [reflexivity |].
  split; [congruence |]. split; [lia |]. split; [lia |].
  split.
  - destruct (Nat.eq_dec k 0%nat) as [Hk | Hk].
    + rewrite (Hzero Hk). subst k. exists evs0.
      split; [assumption |]. split; [lia |]. split; [assumption |].
      now rewrite Ho0.
    + destruct Hpos as (_ & _ & evs & He & Hs & Hd & Ho); [lia |].
      simpl fst in *.
      exists (evs0 ++ evs ++ [Progress (Some fileSize) fileSize None]).
      split; [rewrite He, He0, <- !app_assoc; reflexivity |].
      split; [rewrite !bytesSent_app; simpl; lia |].
      split; [rewrite !ddSkips_app, Hk0, Hd; simpl; apply app_nil_r |].
      rewrite !remoteOps_app, !length_app, Ho0, Ho. simpl. lia.
  - intros Hk. destruct Hpos as (_ & Hrem & evs & He & _); [assumption |].
    split.
    + rewrite He, app_assoc. apply lastProgress_snoc_progress.
    + rewrite Hrem, Hr0, lookup_delete_ne, Hl0 by assumption.
      do 2 f_equal. apply take_ge. rewrite length_drop. nia.
Qed.

(** ** The claims about the uploaders *)

(** C4: when the byte count found on the server equals the declared size,
    [UploadFile] returns at once: it starts no command, sends no byte and
    reports no progress; all it leaves behind is one debug line in the
    log. *)
Theorem UploadFile_fully_uploaded_is_noop
    (env : Env) (isWindows : bool) (fuel : nat) (cfg : Settings)
    (filePath : string) (fileSize : Z)
    (privateKeyFilePath remoteFilePath : string) (w : World) :
  exists w',
    UploadFile env isWindows fuel cfg filePath fileSize privateKeyFilePath
               remoteFilePath (Some fileSize) w = (Val tt, w')
    /\ remote w' = remote w
    /\ procs w' = procs w
    /\ exists evs,
         events w' = events w ++ evs
         /\ remoteOps evs = []
         /\ bytesSent evs = 0
         /\ lastProgress (events w') = lastProgress (events w).
Proof.
  unfold UploadFile.
  rewrite Z.ltb_irrefl, andb_false_r, Z.eqb_refl.
  eexists. split; [reflexivity |]. simpl.
  split; [reflexivity |]. split; [reflexivity |].
  eexists. split; [reflexivity |].
  split; [reflexivity |]. split; [reflexivity |].
  apply lastProgress_snoc_log.
Qed.



(** Whatever one pass through the body of the chunk loop comes to (the next
    state, a return, an exception), the remote file is either what it was or
    what it was with the whole chunk at its end. *)
Lemma posixChunkBody_final_file env fileSize cs final chunkP b skip w :
  chunkP <> final ->
  let w' := snd (posixChunkBody env fileSize cs final chunkP (b, skip) w) in
  remote w' !! final = remote w !! final
  \/ remote w' !! final =
       Some ((if 0 <? b then default [] (remote w !! final) else [])
             ++ chunkOf cs skip w).
Proof.
  intros Hneq.
  unfold posixChunkBody, bind, shouldAbort, logger, popen, getLocalChunk,
    unlinkChunkFile, progressCallback, emit, raise, ret.
  simpl.
  destruct (shuttingDown env (polls w) || canceled env (polls w));
    [left; reflexivity |]. simpl.
  destruct (Z.eqb_spec (exitCode env (procs w)) 0) as [Hdd | _];
    [| left; reflexivity]. simpl.
  destruct (Z.eqb_spec (exitCode env (S (procs w))) 0) as [Hscp | _];
    [| left; reflexivity]. simpl.
  assert (Hkeep : <[chunkP := chunkOf cs skip w]> (remote w) !! final
                  = remote w !! final)
    by (apply lookup_insert_ne; assumption).
  destruct (osFails env (oscalls w)); simpl;
    (destruct (Z.eqb_spec (exitCode env (S (S (procs w)))) 0) as [Hcat | _];
     [| left; exact Hkeep]); simpl;
    (destruct (shuttingDown env (S (polls w)) || canceled env (S (polls w)));
     (simpl; right; unfold catEffect; simpl;
      rewrite lookup_insert_eq; do 2 f_equal;
      [unfold chunkOf in Hkeep; now rewrite Hkeep
      | now rewrite lookup_insert_eq])).
Qed.








(** ** Folder scans *)

Local Open Scope upload_scope.

Lemma raisesOnly_mono {W A} (ok1 ok2 : Exn -> bool) (m : St W A) :
  (forall e, ok1 e = true -> ok2 e = true) ->
  raisesOnly ok1 m -> raisesOnly ok2 m.
Proof.
  intros Hsub Hm w. specialize (Hm w).
  destruct (fst (m w)); auto.
Qed.

Lemma raisesOnly_ret {W A} ok (a : A) : raisesOnly (W := W) ok (ret a).
Proof. intros w. exact I. Qed.

Lemma raisesOnly_bind {W A B} ok (m : St W A) (f : A -> St W B) :
  raisesOnly ok m -> (forall a, raisesOnly ok (f a)) ->
  raisesOnly ok (bind m f).
Proof.
  intros Hm Hf w. unfold bind. specialize (Hm w).
  destruct (m w) as [[a | e |] w1]; simpl in *; try assumption.
  apply Hf.
Qed.

Lemma raisesOnly_raise {W A} ok (e : Exn) :
  ok e = true -> raisesOnly (W := W) (A := A) ok (raise e).
Proof. intros He w. exact He. Qed.

Lemma raisesOnly_logger {W} `{HasLog W} ok level message :
  raisesOnly (W := W) ok (logger level message).
Proof. intros w. exact I. Qed.

(** A [try] lets through what its body raises and no clause handles, and
    what the handlers raise. *)
Lemma raisesOnly_tryExcept {W A} ok1 ok (body : St W A) handles handler :
  raisesOnly ok1 body ->
  (forall e, ok1 e = true -> handles e = false -> ok e = true) ->
  (forall e, raisesOnly ok (handler e)) ->
  raisesOnly ok (tryExcept body handles handler).
Proof.
  intros Hb Hsub Hh w. unfold tryExcept. specialize (Hb w).
  destruct (body w) as [[a | e |] w1]; simpl in *; try assumption.
  destruct (handles e) eqn:He; [apply Hh | simpl; auto].
Qed.

Lemma raisesOnly_forEach {W A} ok (xs : list A) (body : A -> St W unit) :
  (forall x, raisesOnly ok (body x)) -> raisesOnly ok (forEach xs body).
Proof.
  intros Hb. induction xs as [| x xs IH]; simpl.
  - apply raisesOnly_ret.
  - apply raisesOnly_bind; [apply Hb | intros _; exact IH].
Qed.

Lemma raisesOnly_foldEach {W A B} ok (xs : list A) (b : B)
    (body : B -> A -> St W B) :
  (forall b x, raisesOnly ok (body b x)) -> raisesOnly ok (foldEach xs b body).
Proof.
  intros Hb. revert b. induction xs as [| x xs IH]; intros b; simpl.
  - apply raisesOnly_ret.
  - apply raisesOnly_bind; [apply Hb | intros b'; apply IH].
Qed.

Lemma raisesOnly_forEachCtl {W A} ok (xs : list A)
    (body : A -> St W (Ctl unit)) :
  (forall x, raisesOnly ok (body x)) -> raisesOnly ok (forEachCtl xs body).
Proof.
  intros Hb. induction xs as [| x xs IH]; simpl.
  - apply raisesOnly_ret.
  - apply raisesOnly_bind; [apply Hb |].
    intros [[] |]; [exact IH | apply raisesOnly_ret].
Qed.

Lemma raisesOnly_onView {A} ok (m : St FoldersView A) :
  raisesOnly ok m -> raisesOnly ok (onView m).
Proof.
  intros Hm s. unfold onView. specialize (Hm (view s)).
  destruct (m (view s)) as [r v]. exact Hm.
Qed.

Lemma noStructureError_filterOutRow q row : noStructureError (filterOutRow q row).
Proof.
  intros v. unfold filterOutRow.
  destruct (foldersData v !! row) as [fd |]; [| reflexivity].
  destruct (negb (matchesQuery q fd)); exact I.
Qed.

Lemma noStructureError_filterInRow q row : noStructureError (filterInRow q row).
Proof.
  intros v. unfold filterInRow.
  destruct (ffd v !! row) as [fd |]; [| reflexivity].
  destruct (matchesQuery q fd); exact I.
Qed.

Lemma noStructureError_Filter q : noStructureError (Filter q).
Proof.
  intros v. unfold Filter.
  apply raisesOnly_bind.
  - apply raisesOnly_forEach. intros row. apply noStructureError_filterOutRow.
  - intros _. apply raisesOnly_bind; [intros v2; exact I |].
    intros n. apply raisesOnly_forEach. intros row.
    apply noStructureError_filterInRow.
Qed.

Lemma noStructureError_AddRow value : noStructureError (AddRow value).
Proof.
  unfold AddRow.
  apply raisesOnly_bind; [apply noStructureError_Filter |]. intros _.
  apply raisesOnly_bind; [intros v; exact I |]. intros _.
  apply raisesOnly_bind; [intros v; exact I |]. intros s.
  apply noStructureError_Filter.
Qed.

Lemma noStructureError_GetUserByUsername {W} `{HasLog W} requestsGet username :
  noStructureError (W := W) (GetUserByUsername requestsGet username).
Proof.
  intros w. unfold GetUserByUsername.
  destruct (requestsGet (UserByUsername username)) as [response |];
    [| reflexivity].
  destruct (negb (status_code response =? 200)); [reflexivity |].
  destruct (body response) as [j |]; [| reflexivity].
  destruct (total_count j =? 0); [reflexivity |].
  unfold bind, logger. simpl.
  destruct (objects j); [reflexivity | exact I].
Qed.

Lemma noStructureError_GetUserByEmail {W} `{HasLog W} requestsGet email :
  noStructureError (W := W) (GetUserByEmail requestsGet email).
Proof.
  intros w. unfold GetUserByEmail.
  destruct (requestsGet (UserByEmail email)) as [response |];
    [| reflexivity].
  destruct (negb (status_code response =? 200)); [reflexivity |].
  destruct (body response) as [j |]; [| reflexivity].
  destruct (total_count j =? 0); [reflexivity |].
  unfold bind, logger. simpl.
  destruct (objects j); [reflexivity | exact I].
Qed.

Lemma noStructureError_ignoredAsOld nowAt datasetFolder :
  noStructureError (ignoredAsOld nowAt datasetFolder).
Proof.
  intros s. unfold ignoredAsOld, bind, olderThanInterval, logger, ret. simpl.
  destruct (ignoreOldDatasets (agePolicy s)); [| exact I].
  destruct (_ <? _); exact I.
Qed.

Lemma noStructureError_addDatasetFolder name loc d owner group title :
  noStructureError (addDatasetFolder name loc d owner group title).
Proof.
  unfold addDatasetFolder.
  apply raisesOnly_bind.
  - apply raisesOnly_onView. intros v. exact I.
  - intros maxId. apply raisesOnly_onView, noStructureError_AddRow.
Qed.

Lemma noStructureError_importInstrumentFolder settingsModel requestsGet nowAt
    groupFolderPath instrumentFolderName instrumentFolder groupModel :
  noStructureError
    (importInstrumentFolder settingsModel requestsGet nowAt groupFolderPath
       instrumentFolderName instrumentFolder groupModel).
Proof.
  unfold importInstrumentFolder.
  apply raisesOnly_bind; [apply raisesOnly_logger |]. intros _.
  apply raisesOnly_forEach. intros [userFolderName userFolder].
  apply raisesOnly_bind.
  { eapply raisesOnly_tryExcept;
      [apply noStructureError_GetUserByUsername
      | intros e He _; exact He
      | intros e; apply raisesOnly_ret]. }
  intros owner.
  apply raisesOnly_bind; [apply raisesOnly_logger |]. intros _.
  apply raisesOnly_forEach. intros [datasetFolderName datasetFolder].
  apply raisesOnly_bind; [apply noStructureError_ignoredAsOld |].
  intros [|]; [apply raisesOnly_ret | apply noStructureError_addDatasetFolder].
Qed.

(** C7, as the claim has it, fails: run by hand (not in the background), a
    group folder whose one instrument folder is called "Microscope B" while
    the settings say "Microscope A" is scanned, no error is raised, and the
    dataset folder under it becomes a row of the folders view; the
    mismatch is a warning in the log. *)
Lemma instrument_mismatch_is_scanned_not_raised :
  let run :=
    ImportGroupFolders groupSettings oneMatch (fun _ => 0) "/data/GroupA"
      mismatchGroupFolder (mkGroupModel 1 "GroupA") emptyScan in
  runningInBackgroundMode groupSettings = false
  /\ fst run = Val tt
  /\ map folder (foldersData (view (snd run))) = ["ds1"%string]
  /\ map location (foldersData (view (snd run)))
     = ["/data/GroupA/Microscope B/alice"%string]
  /\ In (Warning, "Instrument folder name doesn't match instrument name in MyData Settings"%string)
        (logs (output (snd run))).
Proof. vm_compute. repeat split. right. left. reflexivity. Qed.

(** C7, amended: for a group folder whose one instrument folder has a name
    other than the configured instrument name, [ImportGroupFolders] logs a
    warning and goes on to scan that instrument folder; it returns, and
    raises no [InvalidFolderStructure], in the background or not.  What the
    scan of the instrument folder raises (nothing of that kind) is logged
    as an error. *)
Theorem instrument_mismatch_only_warns
    (settingsModel : ScanSettings) (requestsGet : Query -> option Response)
    (nowAt : nat -> Z) (groupFolderPath : string) (c : Z)
    (instrumentFolderName : string) (instrumentFolder : Dir)
    (groupModel : GroupModel) (s : Scan) :
  instrumentFolderName <> instrumentName settingsModel ->
  let groupFolder := MkDir c [(instrumentFolderName, instrumentFolder)] in
  let run :=
    ImportGroupFolders settingsModel requestsGet nowAt groupFolderPath
                       groupFolder groupModel s in
  let s1 :=
    addLog Warning "Instrument folder name doesn't match instrument name in MyData Settings"
      (addLog Debug "Scanning for instrument folders..." s) in
  fst run = Val tt
  /\ match importInstrumentFolder settingsModel requestsGet nowAt
             groupFolderPath instrumentFolderName instrumentFolder
             groupModel s1 with
     | (Val _, s2) => snd run = s2
     | (Raise e, s2) =>
         isInvalidFolderStructure e = false
         /\ snd run = addLog Error "traceback" s2
     | (Diverge, _) => False
     end
  /\ forall background,
       ImportGroupFolders (withBackgroundMode background settingsModel)
         requestsGet nowAt groupFolderPath groupFolder groupModel s = run.
Proof.
  intros Hne groupFolder run s1.
  assert (Hrun : run =
            tryExcept (importInstrumentFolder settingsModel requestsGet nowAt
                         groupFolderPath instrumentFolderName instrumentFolder
                         groupModel)
              (fun e => negb (isInvalidFolderStructure e))
              (fun _ => logger Error "traceback") s1).
  { subst run groupFolder. unfold ImportGroupFolders, importGroupFoldersBody.
    simpl walkDirs. cbv beta iota.
    destruct (String.eqb_spec instrumentFolderName (instrumentName settingsModel))
      as [Heq | _]; [contradiction |].
    unfold tryExcept, bind, logger. simpl. fold s1.
    destruct (importInstrumentFolder _ _ _ _ _ _ _ s1) as [[u | e |] s2];
      try reflexivity.
    destruct e; reflexivity. }
  pose proof (noStructureError_importInstrumentFolder settingsModel requestsGet
                nowAt groupFolderPath instrumentFolderName instrumentFolder
                groupModel s1) as Hno.
  split; [| split].
  - rewrite Hrun. unfold tryExcept.
    destruct (importInstrumentFolder _ _ _ _ _ _ _ s1) as [[[] | e |] s2];
      simpl in *; [reflexivity | | contradiction].
    rewrite Hno. reflexivity.
  - rewrite Hrun. unfold tryExcept.
    destruct (importInstrumentFolder _ _ _ _ _ _ _ s1) as [[[] | e |] s2];
      simpl in *; [reflexivity | | contradiction].
    rewrite Hno. simpl. split; [| reflexivity].
    now apply negb_true_iff.
  - intros background. reflexivity.
Qed.

Lemma instrument_mismatch_only_warns_witness :
  let groupFolder := mismatchGroupFolder in
  let run :=
    ImportGroupFolders groupSettings oneMatch (fun _ => 0) "/data/GroupA"
                       groupFolder (mkGroupModel 1 "GroupA") emptyScan in
  let s1 :=
    addLog Warning "Instrument folder name doesn't match instrument name in MyData Settings"
      (addLog Debug "Scanning for instrument folders..." emptyScan) in
  fst run = Val tt
  /\ match importInstrumentFolder groupSettings oneMatch (fun _ => 0)
             "/data/GroupA" "Microscope B"
             (MkDir 0 [("alice"%string, MkDir 0 [("ds1"%string, MkDir 0 [])])])
             (mkGroupModel 1 "GroupA") s1 with
     | (Val _, s2) => snd run = s2
     | (Raise e, s2) =>
         isInvalidFolderStructure e = false
         /\ snd run = addLog Error "traceback" s2
     | (Diverge, _) => False
     end
  /\ forall background,
       ImportGroupFolders (withBackgroundMode background groupSettings)
         oneMatch (fun _ => 0) "/data/GroupA" groupFolder
         (mkGroupModel 1 "GroupA") emptyScan = run.
Proof.
  apply (instrument_mismatch_only_warns groupSettings oneMatch (fun _ => 0)
           "/data/GroupA" 0 "Microscope B"
           (MkDir 0 [("alice"%string, MkDir 0 [("ds1"%string, MkDir 0 [])])])
           (mkGroupModel 1 "GroupA") emptyScan).
  vm_compute. discriminate.
Defined.

Lemma noStructureError_ImportFoldersUsingSpecialSchema nowAt path d owner :
  noStructureError (ImportFoldersUsingSpecialSchema nowAt path d owner).
Proof.
  unfold ImportFoldersUsingSpecialSchema.
  apply raisesOnly_forEach. intros [expFolderName expFolder].
  apply raisesOnly_forEach. intros [datasetFolderName datasetFolder].
  apply raisesOnly_bind; [apply noStructureError_ignoredAsOld |].
  intros [|]; [apply raisesOnly_ret | apply noStructureError_addDatasetFolder].
Qed.

Lemma raisesOnly_anything {W A} ok (m : St W A) :
  raisesOnly ok m -> raisesOnly (fun _ => true) m.
Proof. apply raisesOnly_mono. reflexivity. Qed.

(** The [try] block of [ImportUserFolders] ends, with a value or an
    exception. *)
Lemma importUserFoldersBody_ends settingsModel nowAt userFolderPath userFolder
    owner :
  raisesOnly (fun _ => true)
    (importUserFoldersBody settingsModel nowAt userFolderPath userFolder owner).
Proof.
  unfold importUserFoldersBody.
  destruct (_ || _).
  - apply raisesOnly_bind; [apply raisesOnly_logger |]. intros _.
    apply raisesOnly_forEach. intros [datasetFolderName datasetFolder].
    destruct (String.eqb _ _).
    + apply raisesOnly_bind; [apply raisesOnly_logger |]. intros _.
      eapply raisesOnly_anything,
        noStructureError_ImportFoldersUsingSpecialSchema.
    + apply raisesOnly_bind;
        [eapply raisesOnly_anything, noStructureError_ignoredAsOld |].
      intros [|]; [apply raisesOnly_ret |].
      eapply raisesOnly_anything, noStructureError_addDatasetFolder.
  - destruct (String.eqb _ _); [| apply raisesOnly_ret].
    apply raisesOnly_bind; [apply raisesOnly_logger |]. intros _.
    apply raisesOnly_bind.
    + apply raisesOnly_foldEach. intros found [folderName subfolder].
      destruct (String.eqb _ _); [| apply raisesOnly_ret].
      apply raisesOnly_bind; [apply raisesOnly_logger |]. intros _.
      apply raisesOnly_bind; [| intros _; apply raisesOnly_ret].
      eapply raisesOnly_anything,
        noStructureError_ImportFoldersUsingSpecialSchema.
    + intros [|]; [apply raisesOnly_ret | now apply raisesOnly_raise].
Qed.

(** The bare [except:] of [ImportUserFolders] lets nothing through. *)
Lemma ImportUserFolders_neverRaises settingsModel nowAt userFolderPath
    userFolder owner :
  neverRaises
    (ImportUserFolders settingsModel nowAt userFolderPath userFolder owner).
Proof.
  unfold ImportUserFolders.
  eapply raisesOnly_tryExcept.
  - apply importUserFoldersBody_ends.
  - intros e _ Hh. discriminate.
  - intros e w. exact I.
Qed.

Lemma noStructureError_returnIfAborted abortAt rest :
  noStructureError rest -> noStructureError (returnIfAborted abortAt rest).
Proof.
  intros Hrest s. unfold returnIfAborted, bind, shouldAbortScan. simpl.
  destruct (abortAt (abortPolls s)); [exact I | apply Hrest].
Qed.

Lemma noStructureError_scanUserFolder settingsModel requestsGet abortAt nowAt
    userFolderName userFolder :
  noStructureError
    (scanUserFolder settingsModel requestsGet abortAt nowAt
                    userFolderName userFolder).
Proof.
  assert (Himport : forall path d owner,
            noStructureError (ImportUserFolders settingsModel nowAt path d owner)).
  { intros path d owner.
    eapply raisesOnly_mono; [| apply ImportUserFolders_neverRaises].
    discriminate. }
  unfold scanUserFolder.
  apply noStructureError_returnIfAborted.
  apply raisesOnly_bind.
  { destruct (String.prefix _ _); [apply raisesOnly_logger |].
    destruct (String.prefix _ _); [apply raisesOnly_logger | apply raisesOnly_ret]. }
  intros _. apply raisesOnly_bind; [intros s; exact I |].
  intros usersDataViewId. apply raisesOnly_bind.
  { eapply raisesOnly_tryExcept with
      (ok1 := fun e => negb (isInvalidFolderStructure e)).
    - destruct (String.prefix _ _).
      + apply raisesOnly_bind; [apply noStructureError_GetUserByUsername |].
        intros u. apply raisesOnly_ret.
      + destruct (String.prefix _ _); [| apply raisesOnly_ret].
        apply raisesOnly_bind; [apply noStructureError_GetUserByEmail |].
        intros u. apply raisesOnly_ret.
    - intros e He _. exact He.
    - intros e. apply raisesOnly_ret. }
  intros userRecord. apply noStructureError_returnIfAborted.
  destruct userRecord as [[userRecord |] |].
  - apply raisesOnly_bind; [intros s; exact I |]. intros _.
    apply raisesOnly_bind; [apply Himport |]. intros _.
    apply noStructureError_returnIfAborted.
    apply raisesOnly_bind; [intros s; exact I | intros _; apply raisesOnly_ret].
  - apply raisesOnly_bind; [apply raisesOnly_logger |]. intros _.
    apply noStructureError_returnIfAborted.
    apply raisesOnly_bind; [intros s; exact I |]. intros _.
    apply noStructureError_returnIfAborted.
    apply raisesOnly_bind; [apply Himport |]. intros _.
    apply raisesOnly_bind; [intros s; exact I | intros _; apply raisesOnly_ret].
  - now apply raisesOnly_raise.
Qed.

Lemma noStructureError_ScanForUserFolders settingsModel requestsGet abortAt
    nowAt dataDir :
  noStructureError
    (ScanForUserFolders settingsModel requestsGet abortAt nowAt dataDir).
Proof.
  unfold ScanForUserFolders.
  apply raisesOnly_bind; [| intros _; apply raisesOnly_ret].
  apply raisesOnly_forEachCtl. intros [userFolderName userFolder].
  apply noStructureError_scanUserFolder.
Qed.

(** Looking for the "MyTardis" folder among folders none of which is
    called that finds nothing and changes nothing. *)
Lemma foldEach_without_mytardis nowAt userFolderPath owner
    (folders : list (string * Dir)) (s : Scan) :
  Forall (fun entry => lower (fst entry) <> "mytardis"%string) folders ->
  foldEach folders false
    (fun foundMyTardisFolder '(folderName, subfolder) =>
       if String.eqb (lower folderName) "mytardis" then
         logger Debug "Found '%s' folder in %s folder." ;;
         ImportFoldersUsingSpecialSchema nowAt
           (pathJoin userFolderPath folderName) subfolder owner ;;
         ret true
       else ret foundMyTardisFolder) s
  = (Val false, s).
Proof.
  induction 1 as [| [folderName subfolder] folders Hname _ IH]; simpl.
  - reflexivity.
  - unfold bind at 1. simpl in Hname.
    destruct (String.eqb_spec (lower folderName) "mytardis"); [contradiction |].
    simpl. exact IH.
Qed.

(** C8, what the code does: in the schema with the "MyTardis" folder, a
    user folder without one makes the [try] block of [ImportUserFolders]
    raise [InvalidFolderStructure], and the bare [except:] around it prints
    the traceback and returns; the folders view is left as it was.  No scan
    for user folders, whatever the data directory, ends with
    [InvalidFolderStructure]. *)
Theorem missing_MyTardis_folder_is_not_raised
    (settingsModel : ScanSettings) (requestsGet : Query -> option Response)
    (abortAt : nat -> bool) (nowAt : nat -> Z)
    (userFolderPath : string) (userFolder : Dir) (owner : UserModel)
    (s : Scan) :
  folderStructure settingsModel = usernameMyTardisExperimentDataset ->
  Forall (fun entry => lower (fst entry) <> "mytardis"%string)
         (walkDirs userFolder) ->
  let s1 := addLog Debug "Scanning for a MyTardis folder..." s in
  importUserFoldersBody settingsModel nowAt userFolderPath userFolder owner s
    = (Raise (InvalidFolderStructure "MyTardis folder not found in %s"), s1)
  /\ ImportUserFolders settingsModel nowAt userFolderPath userFolder owner s
     = printTraceback s1
  /\ fst (printTraceback s1) = Val tt
  /\ view (snd (printTraceback s1)) = view s
  /\ forall dataDir s0 message,
       fst (ScanForUserFolders settingsModel requestsGet abortAt nowAt
                               dataDir s0)
       <> Raise (InvalidFolderStructure message).
Proof.
  intros Hschema Hnone s1.
  assert (Hbody :
    importUserFoldersBody settingsModel nowAt userFolderPath userFolder owner s
    = (Raise (InvalidFolderStructure "MyTardis folder not found in %s"), s1)).
  { unfold importUserFoldersBody. rewrite Hschema.
    change (String.eqb usernameMyTardisExperimentDataset "Username / Dataset"
            || String.eqb usernameMyTardisExperimentDataset "Email / Dataset")
      with false.
    rewrite String.eqb_refl. cbv beta iota.
    unfold bind at 1. unfold logger at 1. fold s1.
    unfold bind at 1.
    rewrite (foldEach_without_mytardis nowAt userFolderPath owner
               (walkDirs userFolder) s1 Hnone).
    reflexivity. }
  split; [exact Hbody |].
  split; [unfold ImportUserFolders, tryExcept; rewrite Hbody; reflexivity |].
  split; [reflexivity |]. split; [reflexivity |].
  intros dataDir s0 message Hraise.
  pose proof (noStructureError_ScanForUserFolders settingsModel requestsGet
                abortAt nowAt dataDir s0) as Hno.
  rewrite Hraise in Hno. discriminate.
Qed.

Lemma missing_MyTardis_folder_is_not_raised_witness :
  let s1 := addLog Debug "Scanning for a MyTardis folder..." emptyScan in
  importUserFoldersBody specialSchemaSettings (fun _ => 0) "/data/alice"
                        aliceWithoutMyTardis facilityOwner emptyScan
    = (Raise (InvalidFolderStructure "MyTardis folder not found in %s"), s1)
  /\ ImportUserFolders specialSchemaSettings (fun _ => 0) "/data/alice"
                       aliceWithoutMyTardis facilityOwner emptyScan
     = printTraceback s1
  /\ fst (printTraceback s1) = Val tt
  /\ view (snd (printTraceback s1)) = view emptyScan
  /\ forall dataDir s0 message,
       fst (ScanForUserFolders specialSchemaSettings oneMatch (fun _ => false)
                               (fun _ => 0) dataDir s0)
       <> Raise (InvalidFolderStructure message).
Proof.
  apply (missing_MyTardis_folder_is_not_raised specialSchemaSettings oneMatch
           (fun _ => false) (fun _ => 0) "/data/alice" aliceWithoutMyTardis
           facilityOwner emptyScan).
  - reflexivity.
  - repeat constructor; simpl; discriminate.
Defined.

(** The scan of a data directory in which the folder of the first user has
    no "MyTardis" folder: it runs to the end, the error shows only as a
    traceback on standard output, and the dataset of the second user is in
    the folders view. *)
Example scan_goes_on_after_missing_MyTardis_folder :
  let run :=
    ScanForUserFolders specialSchemaSettings oneMatch (fun _ => false)
                       (fun _ => 0) dataDirWithOneBadUser emptyScan in
  fst run = Val tt
  /\ stdout (output (snd run)) = ["traceback"%string]
  /\ map folder (foldersData (view (snd run))) = ["ds1"%string]
  /\ map location (foldersData (view (snd run)))
     = ["/data/bob/MyTardis/exp1"%string]
  /\ progressTicks (output (snd run)) = 2%nat
  /\ length (usersRows (users (snd run))) = 2%nat.
Proof. vm_compute. repeat split. Qed.

Local Close Scope upload_scope.

(** ** The folders view: [Filter], [AddRow], [GetMaxDataViewId] *)

Section FilterLoops.

Variable q : string.

Local Abbreviation m := (matchesQuery q).
Local Abbreviation nm := (fun fd => negb (matchesQuery q fd)).

(** The first loop of [Filter], over the rows [pre] from the last one to
    the first: the rows that do not match go to the end of [ffd]. *)
Lemma filterOut_loop (pre : list FolderModel) :
  forall rest u f fl s mx,
    forEach (reverse (seq 0 (length pre))) (filterOutRow q)
            (mkFoldersView (pre ++ rest) u f fl s mx)
    = (Val tt,
       mkFoldersView (List.filter m pre ++ rest) u
                     (f ++ reverse (List.filter nm pre))
                     (fl || existsb nm pre) s mx).
Proof.
  induction pre as [| x pre' IH] using rev_ind; intros rest u f fl s mx.
  - simpl. now rewrite app_nil_r, orb_false_r.
  - rewrite length_app. simpl length.
    rewrite Nat.add_1_r, seq_S, reverse_app. simpl.
    unfold bind at 1. unfold filterOutRow at 1. simpl foldersData.
    rewrite <- app_assoc. simpl app.
    rewrite (list_lookup_middle pre' rest x (length pre') eq_refl).
    rewrite !List.filter_app, existsb_app. simpl.
    destruct (matchesQuery q x) eqn:Hx; simpl.
    + rewrite IH. rewrite !app_nil_r, orb_false_r, <- app_assoc. reflexivity.
    + replace (delete (length pre') (pre' ++ x :: rest)) with (pre' ++ rest).
      2: { symmetry. rewrite delete_middle. reflexivity. }
      rewrite IH. rewrite reverse_app. simpl.
      rewrite app_nil_r, <- app_assoc, orb_true_r. simpl.
      now rewrite orb_true_r.
Qed.

(** The second loop of [Filter], over the hidden rows [pre] from the last
    one to the first: the rows that match are put back by id. *)
Lemma filterIn_loop (pre : list FolderModel) :
  forall kept rows u fl s mx,
    exists fl',
      forEach (reverse (seq 0 (length pre))) (filterInRow q)
              (mkFoldersView rows u (pre ++ kept) fl s mx)
      = (Val tt,
         mkFoldersView (insertMatching q (reverse pre) rows) u
                       (List.filter nm pre ++ kept) fl' s mx).
Proof.
  induction pre as [| x pre' IH] using rev_ind; intros kept rows u fl s mx.
  - simpl. eauto.
  - rewrite length_app. simpl length.
    rewrite Nat.add_1_r, seq_S, !reverse_app. simpl.
    unfold bind at 1. unfold filterInRow at 1. simpl ffd.
    rewrite <- app_assoc. simpl app.
    rewrite (list_lookup_middle pre' kept x (length pre') eq_refl).
    rewrite List.filter_app. simpl. unfold insertMatching. simpl.
    destruct (matchesQuery q x) eqn:Hx; simpl.
    + rewrite delete_middle.
      replace (if (insertionRow rows x =? length rows)%nat
               then rows ++ [x]
               else take (insertionRow rows x) rows
                    ++ x :: drop (insertionRow rows x) rows)
        with (insertById x rows).
      2: { unfold insertById.
           destruct (Nat.eqb_spec (insertionRow rows x) (length rows)) as [-> |];
             [| reflexivity].
           now rewrite take_ge, drop_ge by lia. }
      destruct (IH kept (insertById x rows) u
                  (if (length (pre' ++ kept) =? 0)%nat then false else fl) s mx)
        as (fl' & ->).
      exists fl'. now rewrite app_nil_r.
    + destruct (IH (x :: kept) rows u fl s mx) as (fl' & ->).
      exists fl'. now rewrite <- app_assoc.
Qed.

End FilterLoops.

(** What [Filter] comes to: it returns, with the rows that do not match
    hidden and the hidden rows that match put back. *)
Lemma Filter_run (query : string) (v : FoldersView) :
  let q := lower query in
  let hidden :=
    ffd v ++ reverse (List.filter (fun fd => negb (matchesQuery q fd))
                                  (foldersData v)) in
  exists v',
    Filter query v = (Val tt, v')
    /\ foldersData v'
       = insertMatching q (reverse hidden)
                        (List.filter (matchesQuery q) (foldersData v))
    /\ ffd v' = List.filter (fun fd => negb (matchesQuery q fd)) hidden
    /\ searchString v' = query
    /\ maxDataViewId v' = maxDataViewId v.
Proof.
  intros q hidden. unfold Filter. fold q.
  unfold bind at 1. simpl foldersData.
  pose proof (filterOut_loop q (foldersData v) []) as H1.
  setoid_rewrite app_nil_r in H1. rewrite H1. clear H1.
  unfold bind at 1. simpl ffd. fold hidden.
  destruct (filterIn_loop q hidden [] (List.filter (matchesQuery q) (foldersData v))
              (if filtered v then ufd v else UfdList (foldersData v))
              (filtered v
               || existsb (fun fd => negb (matchesQuery q fd)) (foldersData v))
              query (maxDataViewId v)) as (fl' & H2).
  rewrite !app_nil_r in H2. rewrite H2.
  eexists. split; [reflexivity |]. simpl. auto.
Qed.

Lemma insertById_cons (x r : FolderModel) (rows : list FolderModel) :
  insertById x (r :: rows)
  = if folderDataViewId r <? folderDataViewId x
    then r :: insertById x rows
    else x :: r :: rows.
Proof.
  unfold insertById. simpl.
  destruct (folderDataViewId r <? folderDataViewId x); reflexivity.
Qed.

Lemma insertById_perm (x : FolderModel) (rows : list FolderModel) :
  Permutation (insertById x rows) (x :: rows).
Proof.
  unfold insertById.
  rewrite <- Permutation_middle, take_drop. reflexivity.
Qed.

Lemma filter_partition_perm {A} (f : A -> bool) (l : list A) :
  Permutation (List.filter f l ++ List.filter (fun a => negb (f a)) l) l.
Proof.
  induction l as [| a l IH]; simpl; [constructor |].
  destruct (f a); simpl.
  - now constructor.
  - rewrite <- Permutation_middle. now constructor.
Qed.

Lemma insertMatching_perm (q : string) (items rows : list FolderModel) :
  Permutation (insertMatching q items rows)
              (List.filter (matchesQuery q) items ++ rows).
Proof.
  unfold insertMatching. revert rows.
  induction items as [| x items IH]; intros rows; simpl; [reflexivity |].
  destruct (matchesQuery q x); [| apply IH].
  rewrite IH, insertById_perm. simpl. symmetry. apply Permutation_middle.
Qed.

Lemma filter_negb_twice {A} (f : A -> bool) (l : list A) :
  List.filter f (List.filter (fun a => negb (f a)) l) = [].
Proof.
  induction l as [| a l IH]; simpl; [reflexivity |].
  destruct (f a) eqn:Ha; simpl; [assumption |]. now rewrite Ha.
Qed.

Lemma filter_idem {A} (f : A -> bool) (l : list A) :
  List.filter f (List.filter f l) = List.filter f l.
Proof.
  induction l as [| a l IH]; simpl; [reflexivity |].
  destruct (f a) eqn:Ha; simpl; [rewrite Ha; now f_equal | assumption].
Qed.

Lemma filter_reverse {A} (f : A -> bool) (l : list A) :
  List.filter f (reverse l) = reverse (List.filter f l).
Proof.
  induction l as [| a l IH]; simpl; [reflexivity |].
  rewrite reverse_cons, List.filter_app, IH. simpl.
  destruct (f a); [now rewrite reverse_cons | now rewrite app_nil_r].
Qed.

Lemma Forall_insertMatching (P : FolderModel -> Prop) (q : string)
    (items rows : list FolderModel) :
  (forall x, In x items -> matchesQuery q x = true -> P x) ->
  Forall P rows -> Forall P (insertMatching q items rows).
Proof.
  intros Hitems Hrows.
  rewrite insertMatching_perm. apply Forall_app. split; [| assumption].
  apply List.Forall_forall. intros x Hx.
  apply List.filter_In in Hx as [Hin Hm]. now apply Hitems.
Qed.

(** X1: [Filter] returns for every search string and every view, raising
    no [IndexError], and it loses no row and makes none twice: the shown
    and the hidden rows after it are the shown and the hidden rows before
    it, rearranged.  The search string is stored as given. *)
Theorem Filter_returns_and_keeps_every_row
    (query : string) (v : FoldersView) :
  exists v',
    Filter query v = (Val tt, v')
    /\ Permutation (foldersData v' ++ ffd v') (foldersData v ++ ffd v)
    /\ searchString v' = query
    /\ maxDataViewId v' = maxDataViewId v.
Proof.
  destruct (Filter_run query v) as (v' & Hrun & Hrows & Hffd & Hs & Hmx).
  exists v'. split; [exact Hrun |]. split; [| auto].
  rewrite Hrows, Hffd, insertMatching_perm.
  set (q := lower query).
  set (A := List.filter (matchesQuery q) (foldersData v)).
  set (B := List.filter (fun fd => negb (matchesQuery q fd)) (foldersData v)).
  set (hidden := ffd v ++ reverse B).
  assert (HH : Permutation hidden (ffd v ++ B))
    by (subst hidden; now rewrite reverse_Permutation).
  rewrite filter_reverse, reverse_Permutation.
  rewrite (Permutation_app_comm (List.filter (matchesQuery q) hidden) A).
  rewrite <- app_assoc, (filter_partition_perm (matchesQuery q) hidden), HH.
  rewrite (Permutation_app_comm (ffd v) B), app_assoc.
  subst A B. now rewrite filter_partition_perm.
Qed.

(** X2: after [Filter], every row that is shown matches the search string
    (lower-cased) in its folder name, location, owner's username or
    experiment title, and no hidden row does. *)
Theorem Filter_shows_the_matches_and_hides_the_rest
    (query : string) (v : FoldersView) (fd : FolderModel) :
  let v' := snd (Filter query v) in
  (In fd (foldersData v') -> matchesQuery (lower query) fd = true)
  /\ (In fd (ffd v') -> matchesQuery (lower query) fd = false).
Proof.
  destruct (Filter_run query v) as (v' & Hrun & Hrows & Hffd & _).
  rewrite Hrun. simpl. split; intros Hin.
  - rewrite Hrows in Hin.
    assert (Hall : Forall (fun x => matchesQuery (lower query) x = true)
                          (foldersData v')).
    { rewrite Hrows. apply Forall_insertMatching; [auto |].
      apply List.Forall_forall. intros x Hx.
      now apply List.filter_In in Hx as [_ Hm]. }
    rewrite <- Hrows in Hin.
    rewrite List.Forall_forall in Hall. now apply Hall.
  - rewrite Hffd in Hin. apply List.filter_In in Hin as [_ Hm].
    now apply negb_true_iff.
Qed.

Lemma Forall_idsOf_perm (P : Z -> Prop) (l l' : list FolderModel) :
  Permutation l l' -> Forall P (idsOf l) -> Forall P (idsOf l').
Proof. intros Hp. unfold idsOf. now rewrite Hp. Qed.

Lemma insertById_sorted (x : FolderModel) (rows : list FolderModel) :
  StronglySorted Z.le (idsOf rows) ->
  StronglySorted Z.le (idsOf (insertById x rows)).
Proof.
  induction rows as [| r rows IH]; intros Hs.
  - repeat constructor.
  - rewrite insertById_cons. simpl in Hs.
    apply StronglySorted_inv in Hs as [Hs Hr].
    destruct (Z.ltb_spec (folderDataViewId r) (folderDataViewId x)).
    + simpl. constructor; [now apply IH |].
      apply (Forall_idsOf_perm _ (x :: rows)); [symmetry; apply insertById_perm |].
      simpl. constructor; [lia | exact Hr].
    + simpl. constructor; [constructor; assumption |].
      constructor; [assumption |].
      eapply List.Forall_impl; [| exact Hr]. simpl. intros; lia.
Qed.

Lemma insertMatching_sorted (q : string) (items rows : list FolderModel) :
  StronglySorted Z.le (idsOf rows) ->
  StronglySorted Z.le (idsOf (insertMatching q items rows)).
Proof.
  unfold insertMatching. revert rows.
  induction items as [| x items IH]; intros rows Hs; simpl; [assumption |].
  destruct (matchesQuery q x); apply IH; [now apply insertById_sorted | assumption].
Qed.

Lemma filter_sorted (R : Z -> Z -> Prop) (f : FolderModel -> bool)
    (rows : list FolderModel) :
  StronglySorted R (idsOf rows) -> StronglySorted R (idsOf (List.filter f rows)).
Proof.
  induction rows as [| r rows IH]; intros Hs; simpl; [constructor |].
  simpl in Hs. apply StronglySorted_inv in Hs as [Hs Hr].
  destruct (f r); [| now apply IH].
  simpl. constructor; [now apply IH |].
  rewrite List.Forall_forall in *. intros i Hi. apply Hr.
  unfold idsOf in *. apply List.in_map_iff in Hi as (y & <- & Hy).
  apply List.in_map_iff. exists y. split; [reflexivity |].
  now apply List.filter_In in Hy as [Hy _].
Qed.

(** X3: [Filter] keeps the shown rows in ascending order of their ids: when
    they are in that order before, they are after, whatever was hidden and
    comes back. *)
Theorem Filter_keeps_the_rows_in_id_order
    (query : string) (v : FoldersView) :
  StronglySorted Z.le (idsOf (foldersData v)) ->
  StronglySorted Z.le (idsOf (foldersData (snd (Filter query v)))).
Proof.
  intros Hs.
  destruct (Filter_run query v) as (v' & Hrun & Hrows & _).
  rewrite Hrun. simpl. rewrite Hrows.
  now apply insertMatching_sorted, filter_sorted.
Qed.

Lemma Filter_keeps_the_rows_in_id_order_witness :
  StronglySorted Z.le (idsOf (foldersData (snd (Filter "a" twoRows)))).
Proof.
  apply (Filter_keeps_the_rows_in_id_order "a" twoRows).
  vm_compute. repeat constructor; discriminate.
Defined.

Lemma matchesQuery_empty (fd : FolderModel) : matchesQuery EmptyString fd = true.
Proof. unfold matchesQuery. now destruct (lower (folder fd)). Qed.

Lemma filter_all {A} (f : A -> bool) (l : list A) :
  (forall a, f a = true) -> List.filter f l = l.
Proof.
  intros Hf. induction l as [| a l IH]; simpl; [reflexivity |].
  now rewrite Hf, IH.
Qed.

Lemma filter_none {A} (f : A -> bool) (l : list A) :
  (forall a, f a = false) -> List.filter f l = [].
Proof.
  intros Hf. induction l as [| a l IH]; simpl; [reflexivity |].
  now rewrite Hf.
Qed.

(** [Filter("")] *)
Lemma Filter_empty_run (v : FoldersView) :
  exists v',
    Filter EmptyString v = (Val tt, v')
    /\ foldersData v'
       = insertMatching EmptyString (reverse (ffd v)) (foldersData v)
    /\ ffd v' = []
    /\ searchString v' = EmptyString
    /\ maxDataViewId v' = maxDataViewId v.
Proof.
  destruct (Filter_run EmptyString v) as (v' & Hrun & Hrows & Hffd & Hs & Hmx).
  simpl lower in *.
  assert (Hnone : forall l : list FolderModel,
            List.filter (fun fd => negb (matchesQuery EmptyString fd)) l = []).
  { intros l. apply filter_none. intros a. now rewrite matchesQuery_empty. }
  rewrite Hnone in Hffd. rewrite Hnone in Hrows.
  rewrite filter_all in Hrows by apply matchesQuery_empty.
  simpl reverse in Hrows. rewrite app_nil_r in Hrows.
  exists v'. auto.
Qed.

(** X4: the empty search string shows everything: after [Filter("")]
    nothing is hidden, and the rows shown are the rows that were shown or
    hidden before. *)
Theorem Filter_with_the_empty_string_shows_every_row (v : FoldersView) :
  exists v',
    Filter EmptyString v = (Val tt, v')
    /\ ffd v' = []
    /\ Permutation (foldersData v') (foldersData v ++ ffd v).
Proof.
  destruct (Filter_empty_run v) as (v' & Hrun & Hrows & Hffd & _).
  exists v'. split; [exact Hrun |]. split; [exact Hffd |].
  rewrite Hrows, insertMatching_perm.
  rewrite filter_all by apply matchesQuery_empty.
  rewrite reverse_Permutation. apply Permutation_app_comm.
Qed.

(** What [AddRow] comes to. *)
Lemma AddRow_run (value : FolderModel) (v : FoldersView) :
  exists v',
    AddRow value v = (Val tt, v')
    /\ foldersData v'
       = insertMatching EmptyString (reverse (ffd v)) (foldersData v) ++ [value]
    /\ ffd v' = []
    /\ searchString v' = EmptyString
    /\ maxDataViewId v' = maxDataViewId v.
Proof.
  unfold AddRow.
  destruct (Filter_empty_run v) as (v1 & Hrun1 & Hrows1 & Hffd1 & Hs1 & Hmx1).
  unfold bind at 1. rewrite Hrun1.
  unfold bind at 1. unfold bind at 1. simpl searchString. rewrite Hs1.
  match goal with |- context [Filter EmptyString ?v2] =>
    destruct (Filter_empty_run v2) as (v3 & Hrun3 & Hrows3 & Hffd3 & Hs3 & Hmx3)
  end.
  simpl in Hrows3, Hmx3. rewrite Hrun3.
  exists v3. split; [reflexivity |].
  rewrite Hrows3, Hrows1. repeat split; try assumption. congruence.
Qed.

(** X5: [AddRow] returns for every view and puts the new row last; the rows
    that were hidden come back first, so nothing is hidden afterwards and
    the search string is the empty one: adding a row drops the filter.
    With nothing hidden the rows are the old rows followed by the new
    one. *)
Theorem AddRow_appends_and_drops_the_filter
    (value : FolderModel) (v : FoldersView) :
  exists v' shown,
    AddRow value v = (Val tt, v')
    /\ foldersData v' = shown ++ [value]
    /\ Permutation shown (foldersData v ++ ffd v)
    /\ (ffd v = [] -> shown = foldersData v)
    /\ ffd v' = []
    /\ searchString v' = EmptyString.
Proof.
  destruct (AddRow_run value v) as (v' & Hrun & Hrows & Hffd & Hs & _).
  exists v', (insertMatching EmptyString (reverse (ffd v)) (foldersData v)).
  split; [exact Hrun |]. split; [exact Hrows |].
  split.
  { rewrite insertMatching_perm, filter_all by apply matchesQuery_empty.
    rewrite reverse_Permutation. apply Permutation_app_comm. }
  split; [intros ->; reflexivity |]. auto.
Qed.

(** ** Scans and the ids of the rows they add *)

Local Open Scope upload_scope.

Section Always.

Context {W : Type} (R : W -> W -> Prop).
Hypothesis R_refl : forall w, R w w.
Hypothesis R_trans : forall w1 w2 w3, R w1 w2 -> R w2 w3 -> R w1 w3.

Lemma always_ret {A} (a : A) : always R (ret a).
Proof. intros w. apply R_refl. Qed.

Lemma always_raise {A} (e : Exn) : always R (raise (A := A) e).
Proof. intros w. apply R_refl. Qed.

Lemma always_bind {A B} (m : St W A) (f : A -> St W B) :
  always R m -> (forall a, always R (f a)) -> always R (bind m f).
Proof.
  intros Hm Hf w. unfold bind. specialize (Hm w).
  destruct (m w) as [[a | e |] w1]; simpl in *; try assumption.
  eapply R_trans; [exact Hm | apply Hf].
Qed.

Lemma always_tryExcept {A} (body : St W A) handles handler :
  always R body -> (forall e, always R (handler e)) ->
  always R (tryExcept body handles handler).
Proof.
  intros Hb Hh w. unfold tryExcept. specialize (Hb w).
  destruct (body w) as [[a | e |] w1]; simpl in *; try assumption.
  destruct (handles e); [| assumption].
  eapply R_trans; [exact Hb | apply Hh].
Qed.

Lemma always_forEach {A} (xs : list A) (body : A -> St W unit) :
  (forall x, always R (body x)) -> always R (forEach xs body).
Proof.
  intros Hb. induction xs as [| x xs IH]; simpl.
  - apply always_ret.
  - apply always_bind; [apply Hb | intros _; exact IH].
Qed.

Lemma always_foldEach {A B} (xs : list A) (b : B) (body : B -> A -> St W B) :
  (forall b x, always R (body b x)) -> always R (foldEach xs b body).
Proof.
  intros Hb. revert b. induction xs as [| x xs IH]; intros b; simpl.
  - apply always_ret.
  - apply always_bind; [apply Hb | intros b'; apply IH].
Qed.

Lemma always_forEachCtl {A} (xs : list A) (body : A -> St W (Ctl unit)) :
  (forall x, always R (body x)) -> always R (forEachCtl xs body).
Proof.
  intros Hb. induction xs as [| x xs IH]; simpl.
  - apply always_ret.
  - apply always_bind; [apply Hb |].
    intros [[] |]; [exact IH | apply always_ret].
Qed.

Lemma always_while {S} (fuel : nat) (cond : S -> bool)
    (body : S -> St W (Ctl S)) :
  (forall s, always R (body s)) -> forall s, always R (while fuel cond body s).
Proof.
  intros Hb. induction fuel as [| fuel IH]; intros s; simpl.
  - intros w. apply R_refl.
  - destruct (cond s); [| apply always_ret].
    apply always_bind; [apply Hb |].
    intros [s' |]; [apply IH | apply always_ret].
Qed.

End Always.

Lemma growsFrom_refl v : growsFrom v v.
Proof. intros Hv. split; [exact Hv |]. exists []. now rewrite app_nil_r. Qed.

Lemma growsFrom_trans v1 v2 v3 :
  growsFrom v1 v2 -> growsFrom v2 v3 -> growsFrom v1 v3.
Proof.
  intros H12 H23 H1.
  destruct (H12 H1) as (H2 & a12 & E12).
  destruct (H23 H2) as (H3 & a23 & E23).
  split; [exact H3 |]. exists (a12 ++ a23). now rewrite E23, E12, app_assoc.
Qed.

Lemma scanGrows_refl s : scanGrows s s.
Proof. apply growsFrom_refl. Qed.

Lemma scanGrows_trans s1 s2 s3 :
  scanGrows s1 s2 -> scanGrows s2 s3 -> scanGrows s1 s3.
Proof. apply growsFrom_trans. Qed.

Lemma scanGrows_same_view {A} (m : St Scan A) :
  (forall s, view (snd (m s)) = view s) -> always scanGrows m.
Proof. intros Hm s. unfold scanGrows. rewrite Hm. apply growsFrom_refl. Qed.

Lemma GetMaxDataViewIdFromExistingRows_bounds (v : FoldersView) :
  0 <= GetMaxDataViewIdFromExistingRows v
  /\ Forall (fun i => i <= GetMaxDataViewIdFromExistingRows v)
            (idsOf (foldersData v)).
Proof.
  unfold GetMaxDataViewIdFromExistingRows.
  assert (H : forall rows acc,
            acc <= List.fold_left
                     (fun mx fd => if mx <? folderDataViewId fd
                                   then folderDataViewId fd else mx) rows acc
            /\ Forall (fun i => i <= List.fold_left
                     (fun mx fd => if mx <? folderDataViewId fd
                                   then folderDataViewId fd else mx) rows acc)
                      (idsOf rows)).
  { induction rows as [| r rows IH]; intros acc; simpl.
    - split; [lia | constructor].
    - destruct (IH (if acc <? folderDataViewId r then folderDataViewId r else acc))
        as [Hacc Hall].
      destruct (Z.ltb_spec acc (folderDataViewId r));
        (split; [lia | constructor; [lia | exact Hall]]). }
  apply H.
Qed.

Lemma GetMaxDataViewId_run (v : FoldersView) :
  exists n v',
    GetMaxDataViewId v = (Val n, v')
    /\ maxDataViewId v <= n
    /\ Forall (fun i => i <= n) (idsOf (foldersData v))
    /\ maxDataViewId v' = n
    /\ foldersData v' = foldersData v
    /\ ffd v' = ffd v
    /\ GetMaxDataViewId v' = (Val n, v').
Proof.
  destruct (GetMaxDataViewIdFromExistingRows_bounds v) as [H0 Hall].
  unfold GetMaxDataViewId.
  destruct (Z.ltb_spec (maxDataViewId v) (GetMaxDataViewIdFromExistingRows v))
    as [Hlt | Hge]; simpl.
  - eexists. eexists. split; [reflexivity |]. simpl.
    split; [lia |]. split; [exact Hall |].
    repeat split.
    assert (E : forall u f fl s mx,
              GetMaxDataViewIdFromExistingRows
                (mkFoldersView (foldersData v) u f fl s mx)
              = GetMaxDataViewIdFromExistingRows v) by reflexivity.
    rewrite !E. now rewrite Z.ltb_irrefl.
  - eexists. eexists. split; [reflexivity |]. split; [lia |].
    split; [eapply List.Forall_impl; [| exact Hall]; simpl; intros; lia |].
    repeat split.
    destruct (Z.ltb_spec (maxDataViewId v) (GetMaxDataViewIdFromExistingRows v));
      [lia | reflexivity].
Qed.

(** X6: [GetMaxDataViewId] returns a number that is at least the largest id
    it has stored and at least the id of every row shown; it stores what it
    returns and leaves the rows alone, so a second call returns the
    same. *)
Theorem GetMaxDataViewId_bounds_every_shown_id (v : FoldersView) :
  exists n v',
    GetMaxDataViewId v = (Val n, v')
    /\ maxDataViewId v <= n
    /\ Forall (fun i => i <= n) (idsOf (foldersData v))
    /\ maxDataViewId v' = n
    /\ foldersData v' = foldersData v
    /\ ffd v' = ffd v
    /\ GetMaxDataViewId v' = (Val n, v').
Proof. exact (GetMaxDataViewId_run v). Qed.

Lemma StronglySorted_snoc_lt (l : list Z) (x : Z) :
  StronglySorted Z.lt l -> Forall (fun i => i < x) l ->
  StronglySorted Z.lt (l ++ [x]).
Proof.
  induction l as [| a l IH]; intros Hs Hall; simpl.
  - repeat constructor.
  - apply StronglySorted_inv in Hs as [Hs Ha].
    apply List.Forall_cons_iff in Hall as [Hax Hall].
    constructor; [now apply IH |].
    apply List.Forall_app. split; [exact Ha | repeat constructor; exact Hax].
Qed.

(** A dataset folder becomes the last row, with an id above all others. *)
Lemma addDatasetFolder_grows name loc d owner group title :
  always scanGrows (addDatasetFolder name loc d owner group title).
Proof.
  intros s. unfold scanGrows, addDatasetFolder, bind.
  destruct (GetMaxDataViewId_run (view s))
    as (n & v1 & Hmax & _ & Hall & _ & Hrows1 & Hffd1 & _).
  unfold onView at 1. rewrite Hmax.
  match goal with |- context [AddRow ?row] =>
    destruct (AddRow_run row v1) as (v2 & Hadd & Hrows2 & Hffd2 & _)
  end.
  unfold onView. simpl view. rewrite Hadd. simpl.
  intros [Hnone Hsorted].
  rewrite Hffd1, Hnone in Hrows2. simpl in Hrows2. rewrite Hrows1 in Hrows2.
  split; [| eexists; exact Hrows2].
  split; [exact Hffd2 |].
  rewrite Hrows2. unfold idsOf. rewrite map_app. simpl.
  apply StronglySorted_snoc_lt; [exact Hsorted |].
  eapply List.Forall_impl; [| exact Hall]. simpl. intros; lia.
Qed.

Lemma GetUserByUsername_view requestsGet username (s : Scan) :
  view (snd (GetUserByUsername requestsGet username s)) = view s.
Proof.
  unfold GetUserByUsername.
  destruct (requestsGet (UserByUsername username)) as [response |];
    [| reflexivity].
  destruct (negb (status_code response =? 200)); [reflexivity |].
  destruct (body response) as [j |]; [| reflexivity].
  destruct (total_count j =? 0); [reflexivity |].
  unfold bind, logger. simpl. destruct (objects j); reflexivity.
Qed.

Lemma GetUserByEmail_view requestsGet email (s : Scan) :
  view (snd (GetUserByEmail requestsGet email s)) = view s.
Proof.
  unfold GetUserByEmail.
  destruct (requestsGet (UserByEmail email)) as [response |];
    [| reflexivity].
  destruct (negb (status_code response =? 200)); [reflexivity |].
  destruct (body response) as [j |]; [| reflexivity].
  destruct (total_count j =? 0); [reflexivity |].
  unfold bind, logger. simpl. destruct (objects j); reflexivity.
Qed.

Lemma ignoredAsOld_view nowAt d (s : Scan) :
  view (snd (ignoredAsOld nowAt d s)) = view s.
Proof.
  unfold ignoredAsOld, bind, olderThanInterval, logger, ret. simpl.
  destruct (ignoreOldDatasets (agePolicy s)); [| reflexivity].
  destruct (_ <? _); reflexivity.
Qed.

Ltac g_bind := apply (always_bind scanGrows scanGrows_trans).
Ltac g_ret := apply (always_ret scanGrows scanGrows_refl).
Ltac g_raise := apply (always_raise scanGrows scanGrows_refl).
Ltac g_each := apply (always_forEach scanGrows scanGrows_refl scanGrows_trans).
Ltac g_try := apply (always_tryExcept scanGrows scanGrows_trans).
Ltac g_same := apply scanGrows_same_view; intros ?; reflexivity.
Ltac g_old :=
  apply scanGrows_same_view; intros ?; apply ignoredAsOld_view.

Lemma ImportFoldersUsingSpecialSchema_grows nowAt path d owner :
  always scanGrows (ImportFoldersUsingSpecialSchema nowAt path d owner).
Proof.
  unfold ImportFoldersUsingSpecialSchema.
  g_each. intros [expFolderName expFolder].
  g_each. intros [datasetFolderName datasetFolder].
  g_bind; [g_old |]. intros [|]; [g_ret | apply addDatasetFolder_grows].
Qed.

Lemma ImportUserFolders_grows settingsModel nowAt path d owner :
  always scanGrows (ImportUserFolders settingsModel nowAt path d owner).
Proof.
  unfold ImportUserFolders.
  g_try; [| intros e; g_same].
  unfold importUserFoldersBody.
  destruct (_ || _).
  - g_bind; [g_same |]. intros _.
    g_each. intros [datasetFolderName datasetFolder].
    destruct (String.eqb _ _).
    + g_bind; [g_same |]. intros _.
      apply ImportFoldersUsingSpecialSchema_grows.
    + g_bind; [g_old |]. intros [|]; [g_ret | apply addDatasetFolder_grows].
  - destruct (String.eqb _ _); [| g_ret].
    g_bind; [g_same |]. intros _.
    g_bind.
    + apply (always_foldEach scanGrows scanGrows_refl scanGrows_trans).
      intros found [folderName subfolder].
      destruct (String.eqb _ _); [| g_ret].
      g_bind; [g_same |]. intros _.
      g_bind; [apply ImportFoldersUsingSpecialSchema_grows |].
      intros _. g_ret.
    + intros [|]; [g_ret | g_raise].
Qed.

Lemma returnIfAborted_grows abortAt rest :
  always scanGrows rest -> always scanGrows (returnIfAborted abortAt rest).
Proof.
  intros Hrest. unfold returnIfAborted.
  g_bind; [g_same |].
  intros [|]; [| exact Hrest].
  g_bind; [g_same | intros _; g_ret].
Qed.

Lemma scanUserFolder_grows settingsModel requestsGet abortAt nowAt name d :
  always scanGrows
    (scanUserFolder settingsModel requestsGet abortAt nowAt name d).
Proof.
  unfold scanUserFolder.
  apply returnIfAborted_grows.
  g_bind.
  { destruct (String.prefix _ _); [g_same |].
    destruct (String.prefix _ _); [g_same | g_ret]. }
  intros _. g_bind; [g_same |]. intros usersDataViewId.
  g_bind.
  { g_try; [| intros e; g_ret].
    destruct (String.prefix _ _).
    - g_bind; [| intros u; g_ret].
      apply scanGrows_same_view. intros ?. apply GetUserByUsername_view.
    - destruct (String.prefix _ _); [| g_ret].
      g_bind; [| intros u; g_ret].
      apply scanGrows_same_view. intros ?. apply GetUserByEmail_view. }
  intros userRecord. apply returnIfAborted_grows.
  destruct userRecord as [[userRecord |] |]; [| | g_raise].
  - g_bind; [g_same |]. intros _.
    g_bind; [apply ImportUserFolders_grows |]. intros _.
    apply returnIfAborted_grows.
    g_bind; [g_same | intros _; g_ret].
  - g_bind; [g_same |]. intros _.
    apply returnIfAborted_grows.
    g_bind; [g_same |]. intros _.
    apply returnIfAborted_grows.
    g_bind; [apply ImportUserFolders_grows |]. intros _.
    g_bind; [g_same | intros _; g_ret].
Qed.

Lemma StronglySorted_lt_NoDup (l : list Z) : StronglySorted Z.lt l -> NoDup l.
Proof.
  induction 1 as [| a l Hs IH Ha]; constructor; [| assumption].
  intros Hin. rewrite List.Forall_forall in Ha.
  apply list_elem_of_In in Hin. specialize (Ha a Hin). lia.
Qed.

(** X7: a scan for user folders that starts with nothing hidden and the rows
    in ascending order of id, none twice, ends that way, whatever it finds
    and however it ends (to the end, aborted, with an exception): the rows
    it had are still the first rows, what it found follows them with
    larger ids, and no id occurs twice. *)
Theorem ScanForUserFolders_adds_rows_with_new_ascending_ids
    (settingsModel : ScanSettings) (requestsGet : Query -> option Response)
    (abortAt : nat -> bool) (nowAt : nat -> Z) (dataDir : Dir) (s : Scan) :
  unfilteredAscending (view s) ->
  let s' := snd (ScanForUserFolders settingsModel requestsGet abortAt nowAt
                                    dataDir s) in
  unfilteredAscending (view s')
  /\ NoDup (idsOf (foldersData (view s')))
  /\ exists added, foldersData (view s') = foldersData (view s) ++ added.
Proof.
  intros Hs s'.
  assert (Hgrows : scanGrows s s').
  { subst s'. revert s Hs.
    assert (H : always scanGrows
              (ScanForUserFolders settingsModel requestsGet abortAt nowAt dataDir)).
    { unfold ScanForUserFolders.
      g_bind; [| intros _; g_ret].
      apply (always_forEachCtl scanGrows scanGrows_refl scanGrows_trans).
      intros [name d]. apply scanUserFolder_grows. }
    intros s _. apply H. }
  destruct (Hgrows Hs) as (Hs' & added & Hadded).
  split; [exact Hs' |]. split; [| eauto].
  apply StronglySorted_lt_NoDup, Hs'.
Qed.

Lemma ScanForUserFolders_adds_rows_with_new_ascending_ids_witness :
  let s' := snd (ScanForUserFolders specialSchemaSettings oneMatch
                   (fun _ => false) (fun _ => 0) dataDirWithOneBadUser
                   emptyScan) in
  unfilteredAscending (view s')
  /\ NoDup (idsOf (foldersData (view s')))
  /\ exists added, foldersData (view s') = foldersData (view emptyScan) ++ added.
Proof.
  apply (ScanForUserFolders_adds_rows_with_new_ascending_ids
           specialSchemaSettings oneMatch (fun _ => false) (fun _ => 0)
           dataDirWithOneBadUser emptyScan).
  split; [reflexivity | constructor].
Defined.

Lemma importInstrumentFolder_grows settingsModel requestsGet nowAt
    groupFolderPath instrumentFolderName instrumentFolder groupModel :
  always scanGrows
    (importInstrumentFolder settingsModel requestsGet nowAt groupFolderPath
       instrumentFolderName instrumentFolder groupModel).
Proof.
  unfold importInstrumentFolder.
  g_bind; [g_same |]. intros _.
  g_each. intros [userFolderName userFolder].
  g_bind.
  { g_try; [| intros e; g_ret].
    apply scanGrows_same_view. intros ?. apply GetUserByUsername_view. }
  intros owner. g_bind; [g_same |]. intros _.
  g_each. intros [datasetFolderName datasetFolder].
  g_bind; [g_old |]. intros [|]; [g_ret | apply addDatasetFolder_grows].
Qed.

(** X8: [ImportGroupFolders] too only adds rows at the end, with ids above
    those of the rows there are: from a view with nothing hidden and
    ascending ids it leads to such a view, with the old rows first. *)
Theorem ImportGroupFolders_adds_rows_with_new_ascending_ids
    (settingsModel : ScanSettings) (requestsGet : Query -> option Response)
    (nowAt : nat -> Z) (groupFolderPath : string) (groupFolder : Dir)
    (groupModel : GroupModel) (s : Scan) :
  unfilteredAscending (view s) ->
  let s' := snd (ImportGroupFolders settingsModel requestsGet nowAt
                   groupFolderPath groupFolder groupModel s) in
  unfilteredAscending (view s')
  /\ NoDup (idsOf (foldersData (view s')))
  /\ exists added, foldersData (view s') = foldersData (view s) ++ added.
Proof.
  intros Hs s'.
  assert (H : always scanGrows
            (ImportGroupFolders settingsModel requestsGet nowAt
               groupFolderPath groupFolder groupModel)).
  { unfold ImportGroupFolders.
    g_try; [| intros e; g_same].
    unfold importGroupFoldersBody.
    g_bind; [g_same |]. intros _.
    destruct (walkDirs groupFolder) as [| [name d] [| ? ?]].
    - g_bind; [g_same | intros _; g_raise].
    - g_bind.
      + destruct (negb _); [g_same | g_ret].
      + intros _. apply importInstrumentFolder_grows.
    - g_bind; [g_same | intros _; g_raise]. }
  destruct (H s Hs) as (Hs' & added & Hadded).
  split; [exact Hs' |]. split; [| eauto].
  apply StronglySorted_lt_NoDup, Hs'.
Qed.

Lemma ImportGroupFolders_adds_rows_with_new_ascending_ids_witness :
  let s' := snd (ImportGroupFolders groupSettings oneMatch (fun _ => 0)
                   "/data/GroupA" mismatchGroupFolder
                   (mkGroupModel 1 "GroupA") emptyScan) in
  unfilteredAscending (view s')
  /\ NoDup (idsOf (foldersData (view s')))
  /\ exists added, foldersData (view s') = foldersData (view emptyScan) ++ added.
Proof.
  apply (ImportGroupFolders_adds_rows_with_new_ascending_ids groupSettings
           oneMatch (fun _ => 0) "/data/GroupA" mismatchGroupFolder
           (mkGroupModel 1 "GroupA") emptyScan).
  split; [reflexivity | constructor].
Defined.

(** X9: a group folder with no instrument folder in it, or with more than
    one, makes [ImportGroupFolders] raise [InvalidFolderStructure] to its
    caller, past its own [except] clauses; the error is in the log and the
    view is as it was. *)
Theorem ImportGroupFolders_raises_without_exactly_one_instrument_folder
    (settingsModel : ScanSettings) (requestsGet : Query -> option Response)
    (nowAt : nat -> Z) (groupFolderPath : string) (groupFolder : Dir)
    (groupModel : GroupModel) (s : Scan) :
  length (walkDirs groupFolder) <> 1%nat ->
  let message :=
    if (length (walkDirs groupFolder) =? 0)%nat
    then "No instrument folder was found in %s"%string
    else "Multiple instrument folders found in %s"%string in
  ImportGroupFolders settingsModel requestsGet nowAt groupFolderPath
                     groupFolder groupModel s
  = (Raise (InvalidFolderStructure message),
     addLog Error message
            (addLog Debug "Scanning for instrument folders..." s)).
Proof.
  intros Hlen message. subst message.
  unfold ImportGroupFolders, importGroupFoldersBody.
  destruct (walkDirs groupFolder) as [| [name d] [| ? ?]];
    [reflexivity | simpl in Hlen; lia | reflexivity].
Qed.

Lemma ImportGroupFolders_raises_without_exactly_one_instrument_folder_witness :
  let message :=
    if (length (walkDirs (MkDir 0 [])) =? 0)%nat
    then "No instrument folder was found in %s"%string
    else "Multiple instrument folders found in %s"%string in
  ImportGroupFolders groupSettings oneMatch (fun _ => 0) "/data/GroupA"
                     (MkDir 0 []) (mkGroupModel 1 "GroupA") emptyScan
  = (Raise (InvalidFolderStructure message),
     addLog Error message
            (addLog Debug "Scanning for instrument folders..." emptyScan)).
Proof.
  apply (ImportGroupFolders_raises_without_exactly_one_instrument_folder
           groupSettings oneMatch (fun _ => 0) "/data/GroupA" (MkDir 0 [])
           (mkGroupModel 1 "GroupA") emptyScan).
  simpl. lia.
Defined.

Local Close Scope upload_scope.

(** ** More about the uploaders *)

Local Open Scope upload_scope.



Section Frame.

Variable touched : string -> Prop.

Local Abbreviation R := (sameRemoteBut touched).

Lemma sameRemoteBut_refl w : R w w.
Proof. intros p _. reflexivity. Qed.

Lemma sameRemoteBut_trans w1 w2 w3 : R w1 w2 -> R w2 w3 -> R w1 w3.
Proof. intros H12 H23 p Hp. now rewrite H23, H12. Qed.

Lemma frame_same {A} (m : M A) :
  (forall w, remote (snd (m w)) = remote w) -> always R m.
Proof. intros Hm w p _. now rewrite Hm. Qed.

Lemma frame_popen env e effect :
  (forall w, R w (effect w)) -> always R (popen env e effect).
Proof.
  intros He w p Hp. unfold popen. simpl.
  destruct (exitCode env (procs w) =? 0); [| reflexivity].
  now rewrite (He _ p Hp).
Qed.

Lemma frame_insert path data w :
  touched path -> R w (setRemote (<[path := data]> (remote w)) w).
Proof.
  intros Hpath p Hp. simpl. apply lookup_insert_ne. intros ->. contradiction.
Qed.

Lemma frame_delete path w :
  touched path -> R w (rmEffect path w).
Proof.
  intros Hpath p Hp. simpl. apply lookup_delete_ne. intros ->. contradiction.
Qed.

Lemma frame_unlinkChunkFile env : always R (unlinkChunkFile env).
Proof.
  apply frame_same. intros w. unfold unlinkChunkFile.
  destruct (osFails env (oscalls w)); reflexivity.
Qed.

Lemma frame_liftRes {A} (r : Res A) : always R (liftRes r).
Proof. now apply frame_same. Qed.

End Frame.

Ltac f_bind := apply always_bind; [apply sameRemoteBut_trans | |].
Ltac f_same := apply frame_same; intros ?; reflexivity.
Ltac f_ret := apply always_ret; apply sameRemoteBut_refl.

Lemma frame_posixChunkBody touched env fileSize cs final chunkP st :
  touched final -> touched chunkP ->
  always (sameRemoteBut touched)
         (posixChunkBody env fileSize cs final chunkP st).
Proof.
  intros Hfinal Hchunk. destruct st as [b skip]. unfold posixChunkBody.
  f_bind; [f_same |]. intros [|].
  { f_bind; [f_same | intros _; f_ret]. }
  f_bind; [f_same |]. intros _.
  f_bind; [f_same |]. intros _.
  f_bind; [apply frame_popen; intros w p _; reflexivity |]. intros rc.
  destruct (negb (rc =? 0)); [f_same |].
  f_bind; [f_same |]. intros chunk.
  f_bind; [f_same |]. intros _.
  f_bind; [apply frame_popen; intros w; now apply frame_insert |]. intros rc2.
  destruct (negb (rc2 =? 0)); [f_same |].
  f_bind; [apply frame_unlinkChunkFile |]. intros _.
  f_bind; [apply frame_popen; intros w; now apply frame_insert |]. intros rc3.
  destruct (negb (rc3 =? 0)); [f_same |].
  f_bind; [f_same |]. intros _.
  f_bind; [f_same |]. intros [|]; [| f_ret].
  f_bind; [f_same | intros _; f_ret].
Qed.

Lemma frame_UploadLargeFileFromPosixSystem touched env fuel cfg fileSize
    remoteFilePath b :
  touched remoteFilePath -> touched (remoteChunkPathOf remoteFilePath) ->
  always (sameRemoteBut touched)
         (UploadLargeFileFromPosixSystem env fuel cfg fileSize remoteFilePath b).
Proof.
  intros Hfinal Hchunk. unfold UploadLargeFileFromPosixSystem.
  f_bind; [f_same |]. intros _.
  f_bind; [apply frame_popen; intros w; apply sameRemoteBut_refl |]. intros rc.
  destruct (negb (rc =? 0)).
  { f_bind; [f_same | intros _; f_same]. }
  f_bind; [f_same |]. intros _.
  f_bind; [apply frame_popen; intros w; now apply frame_delete |]. intros rc2.
  destruct (negb (rc2 =? 0)); [f_same |].
  f_bind; [apply frame_liftRes |]. intros cs.
  f_bind.
  { unfold posixResume. destruct (_ && _); [| f_ret].
    f_bind; [f_same |]. intros _. f_bind; [f_same | intros _; f_ret]. }
  intros st. f_bind.
  { unfold posixChunkLoop.
    apply always_while;
      [apply sameRemoteBut_refl | apply sameRemoteBut_trans |].
    intros s. now apply frame_posixChunkBody. }
  intros [s |]; [| f_ret].
  unfold posixCleanup.
  f_bind; [apply frame_popen; intros w; now apply frame_delete |]. intros rc3.
  destruct (negb (rc3 =? 0)); [f_same | f_ret].
Qed.

Lemma frame_writeChunkFile touched cs skip :
  always (sameRemoteBut touched) (writeChunkFile cs skip).
Proof.
  apply frame_same. intros w. unfold writeChunkFile.
  destruct (skip * cs <? 0); [reflexivity |].
  destruct (smallChunking 5 cs 1). reflexivity.
Qed.

Lemma frame_windowsChunkBody touched env fileSize cs key final chunkP st :
  touched final -> touched chunkP ->
  always (sameRemoteBut touched)
         (windowsChunkBody env fileSize cs key final chunkP st).
Proof.
  intros Hfinal Hchunk. destruct st as [b skip]. unfold windowsChunkBody.
  f_bind; [f_same |]. intros [|].
  { f_bind; [f_same | intros _; f_ret]. }
  f_bind; [f_same |]. intros _.
  f_bind; [apply frame_writeChunkFile |]. intros _.
  f_bind; [f_same |]. intros chunk.
  f_bind; [f_same |]. intros [|].
  { f_bind; [f_same | intros _; f_ret]. }
  f_bind; [apply frame_liftRes |]. intros _.
  f_bind; [f_same |]. intros _.
  f_bind; [apply frame_popen; intros w; now apply frame_insert |]. intros rc2.
  destruct (negb (rc2 =? 0)); [f_same |].
  f_bind; [apply frame_unlinkChunkFile |]. intros _.
  f_bind; [apply frame_liftRes |]. intros _.
  f_bind; [apply frame_popen; intros w; now apply frame_insert |]. intros rc3.
  destruct (negb (rc3 =? 0)); [f_same |].
  f_bind; [f_same |]. intros _.
  f_bind; [f_same |]. intros [|]; [| f_ret].
  f_bind; [f_same | intros _; f_ret].
Qed.

Lemma frame_UploadLargeFileFromWindows touched env fuel cfg fileSize key
    remoteFilePath b :
  touched remoteFilePath -> touched (remoteChunkPathOf remoteFilePath) ->
  always (sameRemoteBut touched)
         (UploadLargeFileFromWindows env fuel cfg fileSize key remoteFilePath b).
Proof.
  intros Hfinal Hchunk. unfold UploadLargeFileFromWindows.
  f_bind; [f_same |]. intros _.
  f_bind; [apply frame_popen; intros w; apply sameRemoteBut_refl |]. intros rc.
  destruct (negb (rc =? 0)); [f_same |].
  f_bind; [apply frame_liftRes |]. intros cs.
  f_bind.
  { unfold windowsResume. destruct (_ && _).
    - f_bind; [f_same |]. intros _. f_bind; [f_same | intros _; f_ret].
    - destruct (_ && _); [| f_ret].
      f_bind; [f_same | intros _; f_ret]. }
  intros st. f_bind.
  { apply always_while;
      [apply sameRemoteBut_refl | apply sameRemoteBut_trans |].
    intros s. now apply frame_windowsChunkBody. }
  intros [s |]; [| f_ret].
  apply frame_same. intros w. unfold windowsCleanup.
  destruct (_ || _); reflexivity.
Qed.

Lemma frame_ensureRemoteDir touched env remoteDir :
  always (sameRemoteBut touched) (ensureRemoteDir env remoteDir).
Proof.
  intros w. unfold ensureRemoteDir.
  destruct (bool_decide _); [apply sameRemoteBut_refl |].
  revert w.
  change (always (sameRemoteBut touched)
            (logger Debug "mkdirCmdString" ;;
             rc <- popen env (Mkdir remoteDir) id ;;
             if negb (rc =? 0) then raise (SshException rc)
             else fun w' => (Val tt, setRemoteDirsCreated
                                       ({[remoteDir]} ∪ remoteDirsCreated w') w'))).
  f_bind; [f_same |]. intros _.
  f_bind; [apply frame_popen; intros w; apply sameRemoteBut_refl |]. intros rc.
  destruct (negb (rc =? 0)); f_same.
Qed.

Lemma frame_UploadSmallFileFromPosixSystem touched env filePath fileSize
    remoteFilePath :
  (forall localPath, touched (scpIntoDir (dirname remoteFilePath) localPath)) ->
  always (sameRemoteBut touched)
         (UploadSmallFileFromPosixSystem env filePath fileSize remoteFilePath).
Proof.
  intros Hdest. unfold UploadSmallFileFromPosixSystem.
  f_bind; [apply frame_ensureRemoteDir |]. intros _.
  f_bind; [f_same |]. intros [|]; [f_same |].
  f_bind; [f_same |]. intros _.
  f_bind; [f_same |]. intros data.
  f_bind; [apply frame_popen; intros w; now apply frame_insert |]. intros rc.
  destruct (negb (rc =? 0)); f_same.
Qed.

Lemma frame_UploadSmallFileFromWindows touched env filePath fileSize key
    remoteFilePath :
  (forall localPath, touched (scpIntoDir (dirname remoteFilePath) localPath)) ->
  always (sameRemoteBut touched)
         (UploadSmallFileFromWindows env filePath fileSize key remoteFilePath).
Proof.
  intros Hdest. unfold UploadSmallFileFromWindows.
  f_bind; [apply frame_ensureRemoteDir |]. intros _.
  f_bind; [f_same |]. intros [|]; [f_same |].
  f_bind; [apply frame_liftRes |]. intros _.
  f_bind; [apply frame_liftRes |]. intros cygFilePath.
  f_bind; [f_same |]. intros _.
  f_bind; [f_same |]. intros data.
  f_bind; [apply frame_popen; intros w; now apply frame_insert |]. intros rc.
  destruct (negb (rc =? 0)); f_same.
Qed.



(** What [ensureRemoteDir] comes to. *)
Lemma ensureRemoteDir_run env remoteDir w :
  ensureRemoteDir env remoteDir w =
    if bool_decide (remoteDir ∈ remoteDirsCreated w) then (Val tt, w)
    else
      let w1 := tickProcs (addEvent (Mkdir remoteDir)
                             (addEvent (Log Debug "mkdirCmdString") w)) in
      if exitCode env (procs w) =? 0
      then (Val tt, setRemoteDirsCreated ({[remoteDir]} ∪ remoteDirsCreated w) w1)
      else (Raise (SshException (exitCode env (procs w))), w1).
Proof.
  unfold ensureRemoteDir.
  destruct (bool_decide _); [reflexivity |].
  unfold bind, logger, popen, raise. simpl.
  destruct (exitCode env (procs w) =? 0); reflexivity.
Qed.



Lemma small_posix_upload_remembers_the_directory env filePath fileSize
    remoteFilePath w w1 :
  UploadSmallFileFromPosixSystem env filePath fileSize remoteFilePath w
    = (Val tt, w1) ->
  dirname remoteFilePath ∈ remoteDirsCreated w1.
Proof.
  unfold UploadSmallFileFromPosixSystem.
  unfold bind at 1. rewrite ensureRemoteDir_run.
  destruct (bool_decide (dirname remoteFilePath ∈ remoteDirsCreated w)) eqn:Hin.
  - apply bool_decide_eq_true in Hin.
    unfold bind, uploadCanceled, logger, getLocalFile, popen, progressCallback,
      emit, raise. simpl.
    destruct (canceled env (polls w)); simpl.
    + intros H. inversion H; subst. exact Hin.
    + destruct (exitCode env (procs w) =? 0); simpl; intros H;
        inversion H; subst. exact Hin.
  - cbv zeta. destruct (exitCode env (procs w) =? 0); [| discriminate].
    unfold bind, uploadCanceled, logger, getLocalFile, popen, progressCallback,
      emit, raise. simpl.
    destruct (canceled env (polls w)); simpl.
    + intros H. inversion H; subst. simpl. set_solver.
    + destruct (exitCode env (S (procs w)) =? 0); simpl; intros H;
        inversion H; subst. simpl. set_solver.
Qed.

Lemma small_posix_upload_without_mkdir env filePath fileSize remoteFilePath w :
  dirname remoteFilePath ∈ remoteDirsCreated w ->
  noMkdirSince w
    (snd (UploadSmallFileFromPosixSystem env filePath fileSize remoteFilePath w)).
Proof.
  intros Hin. unfold UploadSmallFileFromPosixSystem.
  unfold bind at 1. rewrite ensureRemoteDir_run.
  rewrite bool_decide_eq_true_2 by exact Hin.
  unfold bind, uploadCanceled, logger, getLocalFile, popen, progressCallback,
    emit, raise, noMkdirSince. simpl.
  destruct (canceled env (polls w)); simpl.
  - eexists. split; reflexivity.
  - destruct (exitCode env (procs w) =? 0); simpl;
      (eexists; split; [rewrite <- !app_assoc; reflexivity | reflexivity]).
Qed.

(** X13: the directories created on the server are remembered
    ([REMOTE_DIRS_CREATED]): after a small upload that returned, another
    small upload into the same remote directory runs no [mkdir], whatever
    else happens in it. *)
Theorem second_small_upload_into_a_directory_runs_no_mkdir
    (env : Env) (filePath1 filePath2 : string) (fileSize1 fileSize2 : Z)
    (remoteFilePath1 remoteFilePath2 : string) (w w1 : World) :
  UploadSmallFileFromPosixSystem env filePath1 fileSize1 remoteFilePath1 w
    = (Val tt, w1) ->
  dirname remoteFilePath2 = dirname remoteFilePath1 ->
  exists evs,
    events (snd (UploadSmallFileFromPosixSystem env filePath2 fileSize2
                   remoteFilePath2 w1))
    = events w1 ++ evs
    /\ forall remoteDir, ~ In (Mkdir remoteDir) evs.
Proof.
  intros Hfirst Hdir.
  pose proof (small_posix_upload_remembers_the_directory _ _ _ _ _ _ Hfirst)
    as Hin.
  rewrite <- Hdir in Hin.
  destruct (small_posix_upload_without_mkdir env filePath2 fileSize2
              remoteFilePath2 w1 Hin) as (evs & Hev & Hno).
  exists evs. split; [exact Hev |].
  intros remoteDir Hmk. rewrite forallb_forall in Hno.
  specialize (Hno _ Hmk). discriminate.
Qed.

Lemma second_small_upload_into_a_directory_runs_no_mkdir_witness :
  exists evs,
    events (snd (UploadSmallFileFromPosixSystem quietEnv "/home/me/g.dat" 10
                   "/staging/g.dat"
                   (snd (UploadSmallFileFromPosixSystem quietEnv
                           "/home/me/f.dat" 10 "/staging/f.dat"
                           (emptyWorld tenBytes)))))
    = events (snd (UploadSmallFileFromPosixSystem quietEnv "/home/me/f.dat" 10
                     "/staging/f.dat" (emptyWorld tenBytes))) ++ evs
    /\ forall remoteDir, ~ In (Mkdir remoteDir) evs.
Proof.
  apply (second_small_upload_into_a_directory_runs_no_mkdir quietEnv
           "/home/me/f.dat" "/home/me/g.dat" 10 10
           "/staging/f.dat" "/staging/g.dat" (emptyWorld tenBytes));
    reflexivity.
Defined.

(** *** The Windows uploader *)

Lemma smallChunking_product (rounds : nat) :
  forall sz c, let '(sz', c') := smallChunking rounds sz c in sz' * c' = sz * c.
Proof.
  induction rounds as [| rounds IH]; intros sz c; simpl; [reflexivity |].
  destruct (8 * 1024 * 1024 <? sz); simpl; [| reflexivity].
  destruct (Z.eqb_spec (sz mod 2) 0) as [Heven | _]; simpl; [| reflexivity].
  destruct (c <? 32); [| reflexivity].
  specialize (IH (sz / 2) (c * 2)).
  destruct (smallChunking rounds (sz / 2) (c * 2)) as [sz' c'].
  rewrite IH. pose proof (Z.div_exact sz 2 ltac:(lia)) as [_ Hex].
  specialize (Hex Heven). lia.
Qed.

Lemma smallChunking_exit (rounds : nat) :
  forall sz c,
    let '(sz', c') := smallChunking rounds sz c in
    exists i : nat,
      (i <= rounds)%nat
      /\ c' = c * 2 ^ Z.of_nat i
      /\ ((i < rounds)%nat ->
          sz' <= 8 * 1024 * 1024 \/ sz' mod 2 <> 0 \/ 32 <= c').
Proof.
  induction rounds as [| rounds IH]; intros sz c; simpl.
  - exists 0%nat. split; [lia |]. split; [simpl; lia | lia].
  - destruct (Z.ltb_spec (8 * 1024 * 1024) sz); simpl.
    2: { exists 0%nat. split; [lia |]. split; [simpl; lia | intros _; lia]. }
    destruct (Z.eqb_spec (sz mod 2) 0); simpl.
    2: { exists 0%nat. split; [lia |]. split; [simpl; lia | intros _; lia]. }
    destruct (Z.ltb_spec c 32).
    2: { exists 0%nat. split; [lia |]. split; [simpl; lia | intros _; lia]. }
    specialize (IH (sz / 2) (c * 2)).
    destruct (smallChunking rounds (sz / 2) (c * 2)) as [sz' c'].
    destruct IH as (i & Hi & Hc & Hexit).
    exists (S i). split; [lia |]. split.
    + rewrite Hc, Nat2Z.inj_succ, Z.pow_succ_r by lia. lia.
    + intros Hlt. apply Hexit. lia.
Qed.

Lemma smallChunking_more (n : nat) :
  forall m sz c,
    0 < c -> 32 <= c * 2 ^ Z.of_nat n -> (n <= m)%nat ->
    smallChunking m sz c = smallChunking n sz c.
Proof.
  induction n as [| n IH]; intros m sz c Hc Hbig Hle.
  - simpl in Hbig. destruct m as [| m]; simpl; [reflexivity |].
    destruct (Z.ltb_spec c 32); [lia |]. now rewrite andb_false_r.
  - destruct m as [| m]; [lia |]. simpl.
    destruct (_ && _); [| reflexivity].
    apply IH; [lia | | lia].
    rewrite Nat2Z.inj_succ, Z.pow_succ_r in Hbig by lia. lia.
Qed.

(** X14: the reads the Windows uploader cuts a chunk into add up to the
    chunk: the size of a read times the number of reads is the chunk size.
    The number of reads is a power of two up to 32, the loop that halves
    the reads stops after five rounds at the latest, and it stops only at
    a read of at most 8 MiB, at an odd size, or at 32 reads. *)
Theorem smallChunking_cuts_the_chunk_into_equal_reads (chunkSize : Z) :
  let '(smallChunkSize, count) := smallChunking 5 chunkSize 1 in
  smallChunkSize * count = chunkSize
  /\ In count [1; 2; 4; 8; 16; 32]
  /\ (smallChunkSize <= 8 * 1024 * 1024
      \/ smallChunkSize mod 2 <> 0 \/ count = 32)
  /\ forall rounds,
       (5 <= rounds)%nat ->
       smallChunking rounds chunkSize 1 = (smallChunkSize, count).
Proof.
  pose proof (smallChunking_product 5 chunkSize 1) as Hprod.
  pose proof (smallChunking_exit 5 chunkSize 1) as Hexit.
  pose proof (fun m => smallChunking_more 5 m chunkSize 1) as Hmore.
  destruct (smallChunking 5 chunkSize 1) as [sz cnt].
  destruct Hexit as (i & Hi & Hc & Hex).
  split; [lia |].
  assert (Hcases : (i = 0 \/ i = 1 \/ i = 2 \/ i = 3 \/ i = 4 \/ i = 5)%nat)
    by lia.
  split.
  { destruct Hcases as [-> | [-> | [-> | [-> | [-> | ->]]]]]; subst cnt;
      simpl; auto 10. }
  split.
  { destruct (Nat.eq_dec i 5%nat) as [-> | Hne].
    - right. right. subst cnt. reflexivity.
    - destruct (Hex ltac:(lia)) as [H | [H | H]]; auto.
      exfalso.
      destruct Hcases as [-> | [-> | [-> | [-> | [-> | ->]]]]]; subst cnt;
        simpl in H; lia. }
  intros rounds Hr. apply Hmore; [lia | simpl; lia | exact Hr].
Qed.

Lemma readSmallChunks_take (count : nat) :
  forall sz rest,
    0 <= sz ->
    readSmallChunks count sz rest = take (count * Z.to_nat sz) rest.
Proof.
  induction count as [| count IH]; intros sz rest Hsz; simpl; [reflexivity |].
  unfold pyRead. destruct (Z.ltb_spec sz 0); [lia |].
  rewrite IH by assumption. apply take_take_drop.
Qed.

(** X15: the chunk file the Windows uploader writes with its small reads
    holds the same bytes as the chunk [dd bs=chunkSize skip=skip count=1]
    cuts on a POSIX system: the [chunkSize] bytes of the local file from
    [skip * chunkSize] on, or what is left of the file there. *)
Theorem windows_chunk_file_holds_what_dd_would_cut
    (chunkSize skip : Z) (w : World) :
  0 < chunkSize -> 0 <= skip ->
  exists w',
    writeChunkFile chunkSize skip w = (Val tt, w')
    /\ localChunk w'
       = Some (take (Z.to_nat chunkSize)
                    (drop (Z.to_nat (skip * chunkSize)) (localFile w)))
    /\ localChunk w' = localChunk (ddEffect chunkSize skip w)
    /\ remote w' = remote w
    /\ localFile w' = localFile w.
Proof.
  intros Hcs Hskip. unfold writeChunkFile.
  destruct (Z.ltb_spec (skip * chunkSize) 0); [nia |].
  pose proof (smallChunking_product 5 chunkSize 1) as Hprod.
  pose proof (smallChunking_exit 5 chunkSize 1) as Hexit.
  destruct (smallChunking 5 chunkSize 1) as [sz cnt].
  destruct Hexit as (i & _ & Hc & _).
  assert (Hcnt : 0 < cnt) by (subst cnt; pose proof (Z.pow_pos_nonneg 2 (Z.of_nat i)); lia).
  assert (Hsz : 0 < sz) by nia.
  eexists. split; [reflexivity |]. simpl.
  rewrite readSmallChunks_take by lia.
  replace (Z.to_nat cnt * Z.to_nat sz)%nat with (Z.to_nat chunkSize) by nia.
  auto.
Qed.

Lemma windows_chunk_file_holds_what_dd_would_cut_witness :
  exists w',
    writeChunkFile 4 1 (emptyWorld tenBytes) = (Val tt, w')
    /\ localChunk w'
       = Some (take (Z.to_nat 4)
                    (drop (Z.to_nat (1 * 4)) (localFile (emptyWorld tenBytes))))
    /\ localChunk w' = localChunk (ddEffect 4 1 (emptyWorld tenBytes))
    /\ remote w' = remote (emptyWorld tenBytes)
    /\ localFile w' = localFile (emptyWorld tenBytes).
Proof.
  apply (windows_chunk_file_holds_what_dd_would_cut 4 1 (emptyWorld tenBytes));
    lia.
Defined.

(** X16: on Windows a remote file that is longer than the local file, by a
    size that is a whole number of chunks, is left as it is: the uploader
    creates the directory, finds nothing to send and returns, having sent
    no byte and reported no progress.  (The POSIX uploader starts such an
    upload again from the first chunk.) *)
Theorem windows_upload_leaves_a_longer_remote_file_as_it_is
    (env : Env) (fuel : nat) (cfg : Settings) (fileSize : Z)
    (privateKeyFilePath remoteFilePath : string) (b cs : Z) (w : World) :
  chooseChunkSize fuel fileSize (defaultChunkSize cfg) (maxChunkSize cfg)
    = Val cs ->
  fileSize <= b ->
  b mod cs = 0 ->
  exitCode env (procs w) = 0 ->
  exists w' evs,
    UploadLargeFileFromWindows env fuel cfg fileSize privateKeyFilePath
                               remoteFilePath b w = (Val tt, w')
    /\ remote w' = remote w
    /\ events w' = events w ++ evs
    /\ remoteOps evs = [Mkdir (dirname remoteFilePath)]
    /\ bytesSent evs = 0
    /\ lastProgress (events w') = lastProgress (events w)
    /\ posixFirstChunk fileSize cs b = 0.
Proof.
  intros Hch Hbig Hmod Hrc.
  assert (Hfuel : exists fuel', fuel = S fuel').
  { destruct fuel; [discriminate | eauto]. }
  destruct Hfuel as (fuel' & ->).
  assert (Hfirst : posixFirstChunk fileSize cs b = 0).
  { unfold posixFirstChunk. destruct (Z.ltb_spec b fileSize); [lia |].
    now rewrite andb_false_r. }
  unfold UploadLargeFileFromWindows. rewrite Hch.
  unfold bind, logger, popen, liftRes, ret, windowsCleanup, windowsResume.
  simpl. rewrite Hrc. simpl.
  destruct (Z.ltb_spec b fileSize) as [| _]; [lia |].
  rewrite andb_false_r. simpl. rewrite Hmod. simpl. rewrite andb_false_r.
  unfold ret. simpl.
  destruct (Z.ltb_spec b fileSize) as [| _]; [lia |].
  match goal with |- context [if ?c then _ else _] => destruct c end;
    (eexists; eexists; split; [reflexivity |]; simpl;
     split; [reflexivity |];
     split; [rewrite <- !app_assoc; reflexivity |];
     split; [reflexivity |]; split; [reflexivity |];
     split; [now rewrite !lastProgress_snoc | exact Hfirst]).
Qed.

Lemma windows_upload_leaves_a_longer_remote_file_as_it_is_witness :
  exists w' evs,
    UploadLargeFileFromWindows quietEnv 20 smallSettings 10 windowsKeyPath
                               "/staging/f.dat" 12 twelveBytesUploaded
      = (Val tt, w')
    /\ remote w' = remote twelveBytesUploaded
    /\ events w' = events twelveBytesUploaded ++ evs
    /\ remoteOps evs = [Mkdir (dirname "/staging/f.dat")]
    /\ bytesSent evs = 0
    /\ lastProgress (events w') = lastProgress (events twelveBytesUploaded)
    /\ posixFirstChunk 10 4 12 = 0.
Proof.
  apply (windows_upload_leaves_a_longer_remote_file_as_it_is quietEnv 20
           smallSettings 10 windowsKeyPath "/staging/f.dat" 12 4
           twelveBytesUploaded);
    try reflexivity; lia.
Defined.

(** *** [GetCygwinPath] *)

Lemma hasChar_backslashToSlash (s : string) :
  hasChar "\"%char (backslashToSlash s) = false.
Proof.
  induction s as [| c s IH]; cbn [hasChar backslashToSlash]; [reflexivity |].
  rewrite IH, orb_false_r.
  destruct (Ascii.eqb_spec c "\"%char) as [-> | Hne]; [reflexivity |].
  apply Ascii.eqb_neq. congruence.
Qed.

Lemma hasChar_untilNewline (s : string) :
  hasChar "010"%char (untilNewline s) = false.
Proof.
  induction s as [| c s IH]; cbn [hasChar untilNewline]; [reflexivity |].
  destruct (Ascii.eqb_spec c "010"%char) as [-> | Hne]; [reflexivity |].
  cbn [hasChar]. rewrite IH, orb_false_r. apply Ascii.eqb_neq. congruence.
Qed.

Lemma hasChar_newline_backslashToSlash (s : string) :
  hasChar "010"%char s = false ->
  hasChar "010"%char (backslashToSlash s) = false.
Proof.
  induction s as [| c s IH]; cbn [hasChar backslashToSlash]; [reflexivity |].
  intros H. apply orb_false_iff in H as [Hc Hs].
  rewrite (IH Hs), orb_false_r.
  destruct (Ascii.eqb_spec c "\"%char) as [-> | _]; [reflexivity | exact Hc].
Qed.


(** The path of the private key of the examples. *)
Example GetCygwinPath_of_a_key_path :
  GetCygwinPath windowsKeyPath = Val "/cygdrive/C/Users/me/.ssh/MyData"%string.
Proof. reflexivity. Qed.

(** ** More about the choice of the chunk size *)

(** The chunk size a run of the loop returns is the one the loop stops
    at. *)
Lemma chooseChunkSize_result (S0 d m c : Z) (fuel : nat) :
  0 < d ->
  chooseChunkSize fuel S0 d m = Val c ->
  exists k : nat,
    c = d * 2 ^ Z.of_nat k
    /\ (S0 / c <= numIncrements \/ m <= c)
    /\ (forall j : nat, (j < k)%nat ->
          numIncrements < S0 / (d * 2 ^ Z.of_nat j) /\ d * 2 ^ Z.of_nat j < m).
Proof.
  intros Hd Hrun.
  destruct (chooseChunkSize_run S0 m (Z.to_nat (S0 / d)) d Hd eq_refl)
    as (k & Hk & Hstop & Hmin).
  exists k.
  assert (Hc : c = d * 2 ^ Z.of_nat k).
  { pose proof (chooseChunkSize_fuel_mono S0 m fuel d c Hrun
                  (Nat.max fuel (S k)) ltac:(lia)) as H1.
    rewrite (Hk (Nat.max fuel (S k))) in H1 by lia. now inversion H1. }
  rewrite Hc. auto.
Qed.

(** X18: the chunk size the uploaders choose is never below the default
    chunk size; it exceeds the cap by less than a factor of two, unless it
    is the default itself; and whenever it is below the cap it cuts a file
    of size [S0 >= 0] into at most 51 chunks.  The loop ends: some amount
    of fuel is enough. *)
Theorem chooseChunkSize_bounds (S0 d m : Z) :
  0 < d -> 0 <= S0 ->
  exists c (fuel0 : nat),
    (forall fuel, (fuel0 <= fuel)%nat -> chooseChunkSize fuel S0 d m = Val c)
    /\ d <= c
    /\ (c = d \/ c < 2 * m)
    /\ (c < m -> chunkCount S0 c <= 51).
Proof.
  intros Hd HS.
  destruct (chooseChunkSize_run S0 m (Z.to_nat (S0 / d)) d Hd eq_refl)
    as (k & Hk & Hstop & Hmin).
  set (c := d * 2 ^ Z.of_nat k) in *.
  assert (Hpow : 1 <= 2 ^ Z.of_nat k)
    by (pose proof (Z.pow_pos_nonneg 2 (Z.of_nat k)); lia).
  exists c, (S k). split; [intros fuel Hf; apply Hk; lia |].
  split; [subst c; nia |].
  split.
  { destruct k as [| k]; [left; subst c; simpl; lia | right].
    destruct (Hmin k ltac:(lia)) as [_ Hlt].
    subst c. rewrite Nat2Z.inj_succ, Z.pow_succ_r by lia. lia. }
  intros Hcap. destruct Hstop as [Hstop | Hstop]; [| lia].
  unfold chunkCount, numIncrements in *.
  assert (Hc : 0 < c) by (subst c; nia).
  replace (S0 + c - 1) with (S0 - 1 + 1 * c) by lia.
  rewrite Z.div_add by lia.
  pose proof (Z.div_le_mono (S0 - 1) S0 c Hc ltac:(lia)). lia.
Qed.

Lemma chooseChunkSize_bounds_witness :
  exists c (fuel0 : nat),
    (forall fuel, (fuel0 <= fuel)%nat ->
       chooseChunkSize fuel 101 2 1000 = Val c)
    /\ 2 <= c
    /\ (c = 2 \/ c < 2 * 1000)
    /\ (c < 1000 -> chunkCount 101 c <= 51).
Proof.
  apply (chooseChunkSize_bounds 101 2 1000); lia.
Defined.

(** X19: a larger file never gets a smaller chunk size: for the same default
    and cap, the chunk size chosen for [S1] is at most the one chosen for
    [S2] when [S1 <= S2]. *)
Theorem chooseChunkSize_grows_with_the_file
    (S1 S2 d m c1 c2 : Z) (fuel1 fuel2 : nat) :
  0 < d ->
  S1 <= S2 ->
  chooseChunkSize fuel1 S1 d m = Val c1 ->
  chooseChunkSize fuel2 S2 d m = Val c2 ->
  c1 <= c2.
Proof.
  intros Hd Hle H1 H2.
  destruct (chooseChunkSize_result S1 d m c1 fuel1 Hd H1)
    as (k1 & -> & _ & Hmin1).
  destruct (chooseChunkSize_result S2 d m c2 fuel2 Hd H2)
    as (k2 & -> & Hstop2 & _).
  apply Z.mul_le_mono_nonneg_l; [lia |].
  apply Z.pow_le_mono_r; [lia |].
  destruct (Nat.le_gt_cases k1 k2) as [Hk | Hk]; [lia | exfalso].
  destruct (Hmin1 k2 Hk) as [Hbig Hcap].
  destruct Hstop2 as [Hfew | Hcap2]; [| lia].
  assert (Hpos : 0 < d * 2 ^ Z.of_nat k2)
    by (pose proof (Z.pow_pos_nonneg 2 (Z.of_nat k2)); nia).
  pose proof (Z.div_le_mono S1 S2 _ Hpos Hle). lia.
Qed.

Lemma chooseChunkSize_grows_with_the_file_witness :
  chooseChunkSize 10 100 4 64 = Val 4
  /\ chooseChunkSize 10 300 4 64 = Val 8
  /\ 4 <= 8.
Proof.
  split; [reflexivity |]. split; [reflexivity |].
  apply (chooseChunkSize_grows_with_the_file 100 300 4 64 4 8 10 10);
    (lia || reflexivity).
Defined.

(** ** Quoting *)

Lemma replaceChar_absent (c : ascii) (new s : string) :
  hasChar c s = false -> replaceChar c new s = s.
Proof.
  induction s as [| x s IH]; cbn [hasChar replaceChar]; [reflexivity |].
  intros H. apply orb_false_iff in H as [Hx Hs].
  rewrite Ascii.eqb_sym, Hx. now rewrite IH.
Qed.

Lemma hasChar_replaceChar (c d : ascii) (new s : string) :
  hasChar c new = false -> hasChar c s = false ->
  hasChar c (replaceChar d new s) = false.
Proof.
  intros Hnew. induction s as [| x s IH]; cbn [hasChar replaceChar];
    [reflexivity |].
  intros H. apply orb_false_iff in H as [Hx Hs].
  destruct (Ascii.eqb x d).
  - assert (Happ : forall a b, hasChar c a = false -> hasChar c b = false ->
                               hasChar c (a ++ b) = false).
    { induction a as [| y a IHa]; simpl; [auto |].
      intros b Ha Hb. apply orb_false_iff in Ha as [Hy Ha].
      now rewrite Hy, IHa. }
    apply Happ; [exact Hnew | now apply IH].
  - cbn [hasChar]. now rewrite Hx, IH.
Qed.

Lemma append_two (a b : ascii) (r : string) :
  (String a (String b EmptyString) ++ r)%string = String a (String b r).
Proof. reflexivity. Qed.

Lemma append_three (a b c : ascii) (r : string) :
  (String a (String b (String c EmptyString)) ++ r)%string
  = String a (String b (String c r)).
Proof. reflexivity. Qed.

(** After [s.replace(c, "\" + c)] every [c] comes after a backslash. *)
Lemma escapedFrom_replaceChar (c : ascii) (s : string) :
  c <> backslash ->
  forall prev,
    escapedFrom prev c (replaceChar c (String backslash (String c EmptyString)) s)
    = true.
Proof.
  intros Hc. induction s as [| x s IH]; intros prev;
    cbn [replaceChar]; [reflexivity |].
  destruct (Ascii.eqb_spec x c) as [-> | Hx].
  - rewrite ?append_two, ?append_three. cbn [escapedFrom].
    rewrite (proj2 (Ascii.eqb_neq backslash c)) by congruence.
    rewrite !Ascii.eqb_refl. simpl. apply IH.
  - cbn [escapedFrom].
    rewrite (proj2 (Ascii.eqb_neq x c)) by assumption. simpl. apply IH.
Qed.

(** ... and [s.replace(c, "\\" + c)] does the same. *)
Lemma escapedFrom_replaceChar2 (c : ascii) (s : string) :
  c <> backslash ->
  forall prev,
    escapedFrom prev c
      (replaceChar c (String backslash (String backslash (String c EmptyString))) s)
    = true.
Proof.
  intros Hc. induction s as [| x s IH]; intros prev;
    cbn [replaceChar]; [reflexivity |].
  destruct (Ascii.eqb_spec x c) as [-> | Hx].
  - rewrite ?append_two, ?append_three. cbn [escapedFrom].
    rewrite (proj2 (Ascii.eqb_neq backslash c)) by congruence.
    rewrite !Ascii.eqb_refl. simpl. apply IH.
  - cbn [escapedFrom].
    rewrite (proj2 (Ascii.eqb_neq x c)) by assumption. simpl. apply IH.
Qed.

(** Escaping [d] leaves the [c]s escaped. *)
Lemma escapedFrom_replace_other (c d : ascii) (s : string) :
  c <> backslash -> c <> d ->
  forall prev,
    escapedFrom prev c s = true ->
    escapedFrom prev c
      (replaceChar d (String backslash (String backslash (String d EmptyString))) s)
    = true.
Proof.
  intros Hc Hcd. induction s as [| x s IH]; intros prev;
    cbn [replaceChar escapedFrom]; [reflexivity |].
  intros H. apply andb_true_iff in H as [Hx Hs].
  destruct (Ascii.eqb_spec x d) as [-> | Hxd].
  - rewrite ?append_two, ?append_three. cbn [escapedFrom].
    rewrite (proj2 (Ascii.eqb_neq backslash c)) by congruence.
    rewrite (proj2 (Ascii.eqb_neq d c)) by congruence.
    simpl. now apply IH.
  - cbn [escapedFrom]. rewrite Hx. simpl. now apply IH.
Qed.

(** X20: [DoubleQuote] and [DoubleQuoteRemotePath] put their argument
    between two double quotes; in between, every double quote comes right
    after a backslash, and for [DoubleQuoteRemotePath] so does every
    backtick and every dollar sign.  An argument without these characters
    is only wrapped. *)
Theorem DoubleQuote_puts_a_backslash_before_each_special_character
    (s : string) :
  (exists inner,
     DoubleQuote s = (dq ++ inner ++ dq)%string
     /\ escapedIn quoteChar inner = true
     /\ (hasChar quoteChar s = false -> inner = s))
  /\ (exists inner,
        DoubleQuoteRemotePath s = (dq ++ inner ++ dq)%string
        /\ escapedIn quoteChar inner = true
        /\ escapedIn "`" inner = true
        /\ escapedIn "$" inner = true
        /\ (hasChar quoteChar s = false -> hasChar "`" s = false ->
            hasChar "$" s = false -> inner = s)).
Proof.
  split.
  - eexists. split; [reflexivity |]. split.
    + apply (escapedFrom_replaceChar quoteChar); discriminate.
    + intros H. now apply replaceChar_absent.
  - eexists. split; [reflexivity |].
    split; [| split; [| split]].
    + apply escapedFrom_replace_other; [discriminate | discriminate |].
      apply escapedFrom_replace_other; [discriminate | discriminate |].
      apply (escapedFrom_replaceChar quoteChar); discriminate.
    + apply escapedFrom_replace_other; [discriminate | discriminate |].
      apply (escapedFrom_replaceChar2 "`"); discriminate.
    + apply (escapedFrom_replaceChar2 "$"); discriminate.
    + intros Hq Hb Hd.
      rewrite (replaceChar_absent quoteChar _ s Hq).
      rewrite (replaceChar_absent "`" _ s Hb).
      now rewrite (replaceChar_absent "$" _ s Hd).
Qed.

(** A remote path with a dollar sign and a double quote in it. *)
Example DoubleQuoteRemotePath_of_a_path :
  DoubleQuoteRemotePath ("/staging/a$b" ++ dq ++ "c")
  = (dq ++ "/staging/a\\$b\" ++ dq ++ "c" ++ dq)%string.
Proof. reflexivity. Qed.

(** ** The size of the remote file *)

Section Counting.

Context {W : Type} `{HasLog W}.

Lemma countFromLines_undecided (pre rest : list string) (w : W) :
  Forall (fun line => lineOutcome line = None) pre ->
  countFromLines (pre ++ rest) w = countFromLines rest (debugLogged pre w).
Proof.
  intros Hpre. revert w.
  induction Hpre as [| line pre Hline _ IH]; intros w; simpl; [reflexivity |].
  rewrite Hline. unfold bind, logger. simpl. apply IH.
Qed.

End Counting.

(** X21: when no line of the answer of the server is a size line ("<digits>
    <name>") or one of the error lines the function knows, for one when
    there is no answer at all, [CountBytesUploadedToStaging] returns 0:
    an answer it cannot read counts as nothing uploaded.  Every line goes
    to the debug log. *)
Theorem unreadable_wc_output_counts_as_zero_bytes
    {W : Type} `{HasLog W} (privateKeyFilePath : string)
    (lines : list string) (w : W) :
  Forall (fun line => lineOutcome line = None) lines ->
  CountBytesUploadedToStaging false privateKeyFilePath lines w
  = (Val (Counted 0), debugLogged lines (addLog Debug "cmdString" w)).
Proof.
  intros Hlines. unfold CountBytesUploadedToStaging, bind, logger, ret. simpl.
  rewrite <- (app_nil_r lines) at 1.
  now rewrite (countFromLines_undecided lines [] _ Hlines).
Qed.

Lemma unreadable_wc_output_counts_as_zero_bytes_witness :
  CountBytesUploadedToStaging false "/home/me/.ssh/MyData"
    ["Warning: Permanently added 'staging' to the list of known hosts."%string]
    (emptyWorld [])
  = (Val (Counted 0),
     debugLogged
       ["Warning: Permanently added 'staging' to the list of known hosts."%string]
       (addLog Debug "cmdString" (emptyWorld []))).
Proof.
  apply (unreadable_wc_output_counts_as_zero_bytes "/home/me/.ssh/MyData"
           ["Warning: Permanently added 'staging' to the list of known hosts."%string]
           (emptyWorld [])).
  repeat constructor.
Defined.

(** X22: the first line of the answer that is a size line or a known error
    line decides how [CountBytesUploadedToStaging] ends, whatever follows
    it; the lines before it only go to the debug log. *)
Theorem first_readable_line_of_wc_output_decides
    {W : Type} `{HasLog W} (privateKeyFilePath : string)
    (before after : list string) (line : string) (outcome : CountOutcome)
    (w : W) :
  Forall (fun l => lineOutcome l = None) before ->
  lineOutcome line = Some outcome ->
  fst (CountBytesUploadedToStaging false privateKeyFilePath
         (before ++ line :: after) w)
  = Val outcome
  /\ fst (CountBytesUploadedToStaging false privateKeyFilePath
            (before ++ line :: after) w)
     = fst (CountBytesUploadedToStaging false privateKeyFilePath
              (before ++ [line]) w).
Proof.
  intros Hbefore Hline.
  unfold CountBytesUploadedToStaging, bind, logger, ret. simpl.
  rewrite !(countFromLines_undecided before _ _ Hbefore). simpl.
  rewrite Hline. destruct outcome; split; reflexivity.
Qed.

Lemma first_readable_line_of_wc_output_decides_witness :
  fst (CountBytesUploadedToStaging false "/home/me/.ssh/MyData"
         (["Warning: Permanently added 'staging' to the list of known hosts."%string]
          ++ "1048576 /staging/f.dat"%string
          :: ["Permission denied (publickey,password)."%string])
         (emptyWorld []))
  = Val (Counted 1048576)
  /\ fst (CountBytesUploadedToStaging false "/home/me/.ssh/MyData"
            (["Warning: Permanently added 'staging' to the list of known hosts."%string]
             ++ "1048576 /staging/f.dat"%string
             :: ["Permission denied (publickey,password)."%string])
            (emptyWorld []))
     = fst (CountBytesUploadedToStaging false "/home/me/.ssh/MyData"
              (["Warning: Permanently added 'staging' to the list of known hosts."%string]
               ++ ["1048576 /staging/f.dat"%string])
              (emptyWorld [])).
Proof.
  apply (first_readable_line_of_wc_output_decides "/home/me/.ssh/MyData"
           ["Warning: Permanently added 'staging' to the list of known hosts."%string]
           ["Permission denied (publickey,password)."%string]
           "1048576 /staging/f.dat" (Counted 1048576) (emptyWorld []));
    [repeat constructor | reflexivity].
Defined.

Lemma spanChars_spec (f : ascii -> bool) (s : string) :
  let '(a, b) := spanChars f s in
  s = (a ++ b)%string
  /\ allChars f a = true
  /\ match b with String c _ => f c = false | EmptyString => True end.
Proof.
  induction s as [| c s IH]; simpl; [auto |].
  destruct (f c) eqn:Hc.
  - destruct (spanChars f s) as [a b]. destruct IH as (-> & Ha & Hb).
    simpl. rewrite Hc, Ha. auto.
  - simpl. auto.
Qed.

Lemma spanChars_app (f : ascii -> bool) (a b : string) :
  allChars f a = true ->
  match b with String c _ => f c = false | EmptyString => True end ->
  spanChars f (a ++ b) = (a, b).
Proof.
  intros Ha Hb. induction a as [| c a IH]; simpl in *.
  - destruct b as [| c b]; [reflexivity |]. simpl. now rewrite Hb.
  - apply andb_true_iff in Ha as [Hc Ha]. rewrite Hc, (IH Ha). reflexivity.
Qed.

Lemma isSpace_not_digit (c : ascii) : isSpace c = true -> isDigit c = false.
Proof.
  destruct c as [[] [] [] [] [] [] [] []]; try reflexivity; discriminate.
Qed.

(** X23: a line of the answer is taken for a size line exactly when it is
    made of one or more digits, then one or more white-space characters,
    then something that starts with another character; the digits taken
    are all the leading digits of the line. *)
Theorem wcMatch_reads_digits_white_space_and_a_name (line digits : string) :
  wcMatch line = Some digits
  <-> exists spaces name,
        line = (digits ++ spaces ++ name)%string
        /\ digits <> EmptyString /\ allChars isDigit digits = true
        /\ spaces <> EmptyString /\ allChars isSpace spaces = true
        /\ match name with
           | String c _ => isSpace c = false
           | EmptyString => False
           end.
Proof.
  unfold wcMatch. split.
  - pose proof (spanChars_spec isDigit line) as Hd.
    destruct (spanChars isDigit line) as [ds rest].
    destruct Hd as (Hline & Hds & _).
    pose proof (spanChars_spec isSpace rest) as Hs.
    destruct (spanChars isSpace rest) as [ws name].
    destruct Hs as (Hrest & Hws & Hname).
    destruct ds as [| d ds]; [discriminate |].
    destruct ws as [| s ws]; [discriminate |].
    destruct name as [| n name]; [discriminate |].
    intros H. inversion H; subst digits.
    exists (String s ws), (String n name).
    rewrite Hline, Hrest. repeat split; try assumption; discriminate.
  - intros (spaces & name & -> & Hd & Hds & Hs & Hws & Hname).
    destruct spaces as [| s ws]; [contradiction |].
    destruct name as [| n name]; [contradiction |].
    rewrite (spanChars_app isDigit digits (String s ws ++ String n name) Hds).
    2: { simpl. apply isSpace_not_digit.
         simpl in Hws. now apply andb_true_iff in Hws as [Hs' _]. }
    rewrite (spanChars_app isSpace (String s ws) (String n name) Hws Hname).
    destruct digits; [contradiction | reflexivity].
Qed.

(** ** The rows a scan adds *)

Local Open Scope upload_scope.

Section Rows.

Variable pol : AgePolicy.
Variable nowAt : nat -> Z.
Variable ownerOk : UserModel -> Prop.
Variable groupOk : option GroupModel -> Prop.

Local Abbreviation R := (addsDatasetRows pol nowAt ownerOk groupOk).

Lemma datasetRow_wider lo hi lo' hi' row :
  (lo' <= lo)%nat -> (hi <= hi')%nat ->
  datasetRow pol nowAt ownerOk groupOk lo hi row ->
  datasetRow pol nowAt ownerOk groupOk lo' hi' row.
Proof.
  intros Hlo Hhi (Ht & Ho & Hg & Hage). repeat split; auto.
  intros Hig. destruct (Hage Hig) as (n & Hn & Hle).
  exists n. split; [lia | exact Hle].
Qed.

Lemma addsDatasetRows_refl s : R s s.
Proof. intros Hp. split; [exact Hp |]. split; [lia | auto]. Qed.

Lemma addsDatasetRows_trans s1 s2 s3 : R s1 s2 -> R s2 s3 -> R s1 s3.
Proof.
  intros H12 H23 Hp.
  destruct (H12 Hp) as (Hp2 & Hc2 & Hrows2).
  destruct (H23 Hp2) as (Hp3 & Hc3 & Hrows3).
  split; [exact Hp3 |]. split; [lia |].
  intros row Hrow. destruct (Hrows3 row Hrow) as [Hin | Hnew].
  - destruct (Hrows2 row Hin) as [Hold | Hnew]; [now left | right].
    eapply datasetRow_wider; [| | exact Hnew]; lia.
  - right. eapply datasetRow_wider; [| | exact Hnew]; lia.
Qed.

Lemma rows_same {A} (m : St Scan A) :
  (forall s, view (snd (m s)) = view s
             /\ agePolicy (snd (m s)) = agePolicy s
             /\ clockReads (snd (m s)) = clockReads s) ->
  always R m.
Proof.
  intros Hm s Hp. destruct (Hm s) as (Hv & Ha & Hc).
  rewrite Hv, Ha, Hc. split; [exact Hp |]. split; [lia | auto].
Qed.

Lemma AddRow_rows (value : FolderModel) (v : FoldersView) (row : FolderModel) :
  In row (allRows (snd (AddRow value v))) -> row = value \/ In row (allRows v).
Proof.
  destruct (AddRow_run value v) as (v' & Hrun & Hrows & Hffd & _).
  rewrite Hrun. unfold allRows. simpl. rewrite Hrows, Hffd, app_nil_r.
  intros Hin. apply in_app_or in Hin as [Hin | [-> | []]]; [right | now left].
  apply (Permutation_in _ (insertMatching_perm _ _ _)) in Hin.
  apply in_app_or in Hin as [Hin | Hin]; apply in_or_app; [right | now left].
  apply List.filter_In in Hin as [Hin _].
  apply list_elem_of_In. apply list_elem_of_In in Hin.
  now rewrite elem_of_reverse in Hin.
Qed.

Lemma addDatasetFolder_rows name loc d owner0 group0 title (s0 : Scan)
    (row : FolderModel) :
  In row (allRows (view (snd (addDatasetFolder name loc d owner0 group0 title s0)))) ->
  In row (allRows (view s0))
  \/ (folder_type row = "Dataset"%string /\ owner row = owner0
      /\ group row = group0 /\ created row = ctimeOf d).
Proof.
  unfold addDatasetFolder, bind.
  destruct (GetMaxDataViewId_run (view s0))
    as (n & v1 & Hmax & _ & _ & _ & Hrows1 & Hffd1 & _).
  unfold onView at 1. rewrite Hmax.
  match goal with |- context [AddRow ?value] =>
    pose proof (AddRow_rows value v1 row) as Hrow;
    destruct (AddRow_run value v1) as (v2 & Hadd & _)
  end.
  unfold onView. simpl view. rewrite Hadd in *. simpl in *.
  intros Hin. destruct (Hrow Hin) as [-> | Hold].
  - right. simpl. auto.
  - left. unfold allRows in *. now rewrite Hrows1, Hffd1 in Hold.
Qed.

Lemma addDatasetFolder_agePolicy name loc d owner group title (s0 : Scan) :
  agePolicy (snd (addDatasetFolder name loc d owner group title s0))
  = agePolicy s0
  /\ clockReads (snd (addDatasetFolder name loc d owner group title s0))
     = clockReads s0.
Proof.
  unfold addDatasetFolder, bind, onView.
  destruct (GetMaxDataViewId (view s0)) as [[n | e |] v1]; simpl;
    try (split; reflexivity).
  destruct (AddRow _ v1); split; reflexivity.
Qed.

(** The body of every loop over dataset folders: the age test and, when
    it lets the folder through, the new row. *)
Lemma dataset_block_rows name loc d owner group title :
  ownerOk owner -> groupOk group ->
  always R
    (skip <- ignoredAsOld nowAt d ;;
     if skip : bool then ret tt
     else addDatasetFolder name loc d owner group title).
Proof.
  intros Howner Hgroup s Hp.
  assert (Hadd : forall s0 : Scan,
            view s0 = view s -> agePolicy s0 = pol ->
            (clockReads s <= clockReads s0)%nat ->
            (ignoreOldDatasets pol = true ->
             exists n, (clockReads s <= n < clockReads s0)%nat
                       /\ nowAt n - ctimeOf d
                          <= ignoreIntervalSeconds pol * 1000000) ->
            R s (snd (addDatasetFolder name loc d owner group title s0))).
  { intros s0 Hv Ha Hc Hfresh _.
    destruct (addDatasetFolder_agePolicy name loc d owner group title s0)
      as [Ha' Hc'].
    rewrite Ha', Hc'. split; [exact Ha |]. split; [exact Hc |].
    intros row Hin.
    destruct (addDatasetFolder_rows _ _ _ _ _ _ _ _ Hin)
      as [Hold | (Ht & Ho & Hg & Hcr)].
    - left. now rewrite <- Hv.
    - right. unfold datasetRow. rewrite Ht, Ho, Hg, Hcr. auto. }
  unfold bind at 1. unfold ignoredAsOld, bind, olderThanInterval, logger, ret.
  simpl.
  destruct (ignoreOldDatasets (agePolicy s)) eqn:Hig.
  - destruct (Z.ltb_spec (ignoreIntervalSeconds (agePolicy s) * 1000000)
                         (nowAt (clockReads s) - ctimeOf d)); simpl.
    + split; [exact Hp |]. split; [lia | auto].
    + apply Hadd; [reflexivity | exact Hp | simpl; lia | | exact Hp].
      intros _. exists (clockReads s). simpl. rewrite <- Hp. split; lia.
  - simpl. apply Hadd; [reflexivity | exact Hp | lia | | exact Hp].
    rewrite <- Hp, Hig. discriminate.
Qed.

End Rows.

Ltac r_bind := apply always_bind; [apply addsDatasetRows_trans | |].
Ltac r_ret := apply always_ret; apply addsDatasetRows_refl.
Ltac r_raise := apply always_raise; apply addsDatasetRows_refl.
Ltac r_each :=
  apply always_forEach; [apply addsDatasetRows_refl | apply addsDatasetRows_trans |].
Ltac r_try := apply always_tryExcept; [apply addsDatasetRows_trans | |].
Ltac r_same := apply rows_same; intros ?; repeat split; reflexivity.

Lemma GetUserByUsername_scan requestsGet username (s : Scan) :
  view (snd (GetUserByUsername requestsGet username s)) = view s
  /\ agePolicy (snd (GetUserByUsername requestsGet username s)) = agePolicy s
  /\ clockReads (snd (GetUserByUsername requestsGet username s)) = clockReads s.
Proof.
  unfold GetUserByUsername.
  destruct (requestsGet (UserByUsername username)) as [response |];
    [| repeat split; reflexivity].
  destruct (negb (status_code response =? 200)); [repeat split; reflexivity |].
  destruct (body response) as [j |]; [| repeat split; reflexivity].
  destruct (total_count j =? 0); [repeat split; reflexivity |].
  unfold bind, logger. simpl. destruct (objects j); repeat split; reflexivity.
Qed.

Lemma GetUserByEmail_scan requestsGet email (s : Scan) :
  view (snd (GetUserByEmail requestsGet email s)) = view s
  /\ agePolicy (snd (GetUserByEmail requestsGet email s)) = agePolicy s
  /\ clockReads (snd (GetUserByEmail requestsGet email s)) = clockReads s.
Proof.
  unfold GetUserByEmail.
  destruct (requestsGet (UserByEmail email)) as [response |];
    [| repeat split; reflexivity].
  destruct (negb (status_code response =? 200)); [repeat split; reflexivity |].
  destruct (body response) as [j |]; [| repeat split; reflexivity].
  destruct (total_count j =? 0); [repeat split; reflexivity |].
  unfold bind, logger. simpl. destruct (objects j); repeat split; reflexivity.
Qed.

Lemma ImportFoldersUsingSpecialSchema_rows pol nowAt (ownerOk : UserModel -> Prop)
    groupOk path d owner :
  ownerOk owner -> groupOk None ->
  always (addsDatasetRows pol nowAt ownerOk groupOk)
         (ImportFoldersUsingSpecialSchema nowAt path d owner).
Proof.
  intros Ho Hg. unfold ImportFoldersUsingSpecialSchema.
  r_each. intros [expFolderName expFolder].
  r_each. intros [datasetFolderName datasetFolder].
  now apply dataset_block_rows.
Qed.

Lemma ImportUserFolders_rows pol nowAt (ownerOk : UserModel -> Prop) groupOk
    settingsModel path d owner :
  ownerOk owner -> groupOk None ->
  always (addsDatasetRows pol nowAt ownerOk groupOk)
         (ImportUserFolders settingsModel nowAt path d owner).
Proof.
  intros Ho Hg. unfold ImportUserFolders.
  r_try; [| intros e; r_same].
  unfold importUserFoldersBody.
  destruct (_ || _).
  - r_bind; [r_same |]. intros _.
    r_each. intros [datasetFolderName datasetFolder].
    destruct (String.eqb _ _).
    + r_bind; [r_same |]. intros _.
      now apply ImportFoldersUsingSpecialSchema_rows.
    + now apply dataset_block_rows.
  - destruct (String.eqb _ _); [| r_ret].
    r_bind; [r_same |]. intros _.
    r_bind.
    + apply always_foldEach;
        [apply addsDatasetRows_refl | apply addsDatasetRows_trans |].
      intros found [folderName subfolder].
      destruct (String.eqb _ _); [| r_ret].
      r_bind; [r_same |]. intros _.
      r_bind; [now apply ImportFoldersUsingSpecialSchema_rows |].
      intros _. r_ret.
    + intros [|]; [r_ret | r_raise].
Qed.

(** X24: every row [ImportUserFolders] adds to the view is a row of type
    "Dataset" that belongs to the owner it was given and to no group; the
    rows that were there, shown or hidden, are the only others. *)
Theorem ImportUserFolders_adds_only_datasets_of_the_owner
    (settingsModel : ScanSettings) (nowAt : nat -> Z)
    (userFolderPath : string) (userFolder : Dir) (owner0 : UserModel)
    (s : Scan) (row : FolderModel) :
  let s' := snd (ImportUserFolders settingsModel nowAt userFolderPath
                                   userFolder owner0 s) in
  In row (allRows (view s')) ->
  In row (allRows (view s))
  \/ (folder_type row = "Dataset"%string
      /\ owner row = owner0
      /\ group row = None).
Proof.
  intros s' Hin.
  destruct (ImportUserFolders_rows (agePolicy s) nowAt (fun o => o = owner0)
              (fun g => g = None) settingsModel userFolderPath userFolder
              owner0 eq_refl eq_refl s eq_refl) as (_ & _ & Hrows).
  destruct (Hrows row Hin) as [Hold | (Ht & Ho & Hg & _)]; auto.
Qed.

Lemma ImportUserFolders_adds_only_datasets_of_the_owner_witness :
  In alphaRow (allRows (view emptyScan))
  \/ (folder_type alphaRow = "Dataset"%string
      /\ owner alphaRow = facilityOwner
      /\ group alphaRow = None).
Proof.
  apply (ImportUserFolders_adds_only_datasets_of_the_owner plainSettings
           (fun _ => 0) "/data/alice" (MkDir 0 [("alpha"%string, MkDir 0 [])])
           facilityOwner emptyScan alphaRow).
  vm_compute. left. reflexivity.
Defined.

Lemma returnIfAborted_rows pol nowAt (ownerOk : UserModel -> Prop) groupOk
    abortAt rest :
  always (addsDatasetRows pol nowAt ownerOk groupOk) rest ->
  always (addsDatasetRows pol nowAt ownerOk groupOk)
         (returnIfAborted abortAt rest).
Proof.
  intros Hrest. unfold returnIfAborted.
  r_bind; [r_same |].
  intros [|]; [| exact Hrest].
  r_bind; [r_same | intros _; r_ret].
Qed.

Lemma scanUserFolder_rows pol nowAt settingsModel requestsGet abortAt name d :
  always (addsDatasetRows pol nowAt (fun _ => True) (fun g => g = None))
    (scanUserFolder settingsModel requestsGet abortAt nowAt name d).
Proof.
  unfold scanUserFolder.
  apply returnIfAborted_rows.
  r_bind.
  { destruct (String.prefix _ _); [r_same |].
    destruct (String.prefix _ _); [r_same | r_ret]. }
  intros _. r_bind; [r_same |]. intros usersDataViewId.
  r_bind.
  { r_try; [| intros e; r_ret].
    destruct (String.prefix _ _).
    - r_bind; [| intros u; r_ret].
      apply rows_same. intros ?. apply GetUserByUsername_scan.
    - destruct (String.prefix _ _); [| r_ret].
      r_bind; [| intros u; r_ret].
      apply rows_same. intros ?. apply GetUserByEmail_scan. }
  intros userRecord. apply returnIfAborted_rows.
  destruct userRecord as [[userRecord |] |]; [| | r_raise].
  - r_bind; [r_same |]. intros _.
    r_bind; [now apply ImportUserFolders_rows |]. intros _.
    apply returnIfAborted_rows.
    r_bind; [r_same | intros _; r_ret].
  - r_bind; [r_same |]. intros _.
    apply returnIfAborted_rows.
    r_bind; [r_same |]. intros _.
    apply returnIfAborted_rows.
    r_bind; [now apply ImportUserFolders_rows |]. intros _.
    r_bind; [r_same | intros _; r_ret].
Qed.

(** X25: [ScanForUserFolders] adds dataset rows only, none of them in a group,
    and, when old datasets are ignored, none that the clock showed older
    than the interval: each added row was created no longer than the
    interval before one of the readings of the clock the scan made. *)
Theorem ScanForUserFolders_adds_no_dataset_older_than_the_interval
    (settingsModel : ScanSettings) (requestsGet : Query -> option Response)
    (abortAt : nat -> bool) (nowAt : nat -> Z) (dataDir : Dir) (s : Scan) :
  let s' := snd (ScanForUserFolders settingsModel requestsGet abortAt nowAt
                                    dataDir s) in
  Forall (fun row =>
            In row (allRows (view s))
            \/ (folder_type row = "Dataset"%string
                /\ group row = None
                /\ (ignoreOldDatasets (agePolicy s) = true ->
                    exists n, (clockReads s <= n < clockReads s')%nat
                              /\ nowAt n - created row
                                 <= ignoreIntervalSeconds (agePolicy s) * 1000000)))
         (allRows (view s')).
Proof.
  intros s'.
  assert (H : always (addsDatasetRows (agePolicy s) nowAt (fun _ => True)
                                      (fun g => g = None))
            (ScanForUserFolders settingsModel requestsGet abortAt nowAt dataDir)).
  { unfold ScanForUserFolders.
    r_bind; [| intros _; r_ret].
    apply always_forEachCtl;
      [apply addsDatasetRows_refl | apply addsDatasetRows_trans |].
    intros [name d]. apply scanUserFolder_rows. }
  destruct (H s eq_refl) as (_ & _ & Hrows).
  apply List.Forall_forall. intros row Hin.
  destruct (Hrows row Hin) as [Hold | (Ht & _ & Hg & Hage)]; auto.
Qed.

(** Of a new and an old dataset folder the scan takes the new one only. *)
Example scan_of_a_new_and_an_old_dataset :
  map folder
      (allRows (view (snd (ScanForUserFolders plainSettings oneMatch
                             (fun _ => false) (fun _ => 2000000000000)
                             oneNewOneOld weekScan))))
  = ["new"%string].
Proof. vm_compute. reflexivity. Qed.

Lemma importInstrumentFolder_rows pol nowAt settingsModel requestsGet
    groupFolderPath instrumentFolderName instrumentFolder groupModel :
  always (addsDatasetRows pol nowAt (fun _ => True)
                          (fun g => g = Some groupModel))
    (importInstrumentFolder settingsModel requestsGet nowAt groupFolderPath
       instrumentFolderName instrumentFolder groupModel).
Proof.
  unfold importInstrumentFolder.
  r_bind; [r_same |]. intros _.
  r_each. intros [userFolderName userFolder].
  r_bind.
  { r_try; [| intros e; r_ret].
    apply rows_same. intros ?. apply GetUserByUsername_scan. }
  intros owner0. r_bind; [r_same |]. intros _.
  r_each. intros [datasetFolderName datasetFolder].
  now apply dataset_block_rows.
Qed.

(** X26: every row [ImportGroupFolders] adds is a dataset row of the group it
    was given, and, when old datasets are ignored, one that was created no
    longer than the interval before a reading of the clock made meanwhile. *)
Theorem ImportGroupFolders_adds_datasets_of_the_group
    (settingsModel : ScanSettings) (requestsGet : Query -> option Response)
    (nowAt : nat -> Z) (groupFolderPath : string) (groupFolder : Dir)
    (groupModel : GroupModel) (s : Scan) :
  let s' := snd (ImportGroupFolders settingsModel requestsGet nowAt
                   groupFolderPath groupFolder groupModel s) in
  Forall (fun row =>
            In row (allRows (view s))
            \/ (folder_type row = "Dataset"%string
                /\ group row = Some groupModel
                /\ (ignoreOldDatasets (agePolicy s) = true ->
                    exists n, (clockReads s <= n < clockReads s')%nat
                              /\ nowAt n - created row
                                 <= ignoreIntervalSeconds (agePolicy s) * 1000000)))
         (allRows (view s')).
Proof.
  intros s'.
  assert (H : always (addsDatasetRows (agePolicy s) nowAt (fun _ => True)
                                      (fun g => g = Some groupModel))
            (ImportGroupFolders settingsModel requestsGet nowAt
               groupFolderPath groupFolder groupModel)).
  { unfold ImportGroupFolders.
    r_try; [| intros e; r_same].
    unfold importGroupFoldersBody.
    r_bind; [r_same |]. intros _.
    destruct (walkDirs groupFolder) as [| [name d] [| ? ?]].
    - r_bind; [r_same | intros _; r_raise].
    - r_bind.
      + destruct (negb _); [r_same | r_ret].
      + intros _. apply importInstrumentFolder_rows.
    - r_bind; [r_same | intros _; r_raise]. }
  destruct (H s eq_refl) as (_ & _ & Hrows).
  apply List.Forall_forall. intros row Hin.
  destruct (Hrows row Hin) as [Hold | (Ht & _ & Hg & Hage)]; auto.
Qed.

(** ** Whole runs of the Windows uploader *)

Local Open Scope upload_scope.

Lemma writeChunkFile_run (cs skip : Z) (w : World) :
  0 < cs -> 0 <= skip ->
  writeChunkFile cs skip w
  = (Val tt, setLocalChunk (Some (chunkOf cs skip w))
               (addEvent (ReadChunk (skip * cs) cs) w)).
Proof.
  intros Hcs Hskip. unfold writeChunkFile, chunkOf.
  destruct (Z.ltb_spec (skip * cs) 0); [nia |].
  pose proof (smallChunking_product 5 cs 1) as Hprod.
  pose proof (smallChunking_exit 5 cs 1) as Hexit.
  destruct (smallChunking 5 cs 1) as [sz cnt].
  destruct Hexit as (i & _ & Hc & _).
  assert (Hcnt : 0 < cnt)
    by (subst cnt; pose proof (Z.pow_pos_nonneg 2 (Z.of_nat i)); lia).
  assert (Hsz : 0 < sz) by nia.
  rewrite readSmallChunks_take by lia.
  replace (Z.to_nat cnt * Z.to_nat sz)%nat with (Z.to_nat cs) by nia.
  reflexivity.
Qed.

Section WindowsLoop.

Variable env : Env.
Variables fileSize cs : Z.
Variables key final chunkP cyg : string.
Hypothesis cs_pos : 0 < cs.
Hypothesis paths_differ : chunkP <> final.
Hypothesis key_ok : GetCygwinPath key = Val cyg.
Hypothesis quiet : forall n, exitCode env n = 0.
Hypothesis calm : forall n, flagsAt env n = false.

Local Abbreviation body := (windowsChunkBody env fileSize cs key final chunkP).
Local Abbreviation cond := (fun st : Z * Z => fst st <? fileSize).

Lemma windowsChunkBody_ok (b skip : Z) (w : World) :
  0 <= skip ->
  exists w1,
    body (b, skip) w
    = (Val (Next (b + Z.of_nat (length (chunkOf cs skip w)), skip + 1)), w1)
    /\ localFile w1 = localFile w
    /\ remote w1 =
         <[final := (if 0 <? b then default [] (remote w !! final) else [])
                    ++ chunkOf cs skip w]>
           (<[chunkP := chunkOf cs skip w]> (remote w))
    /\ lastProgress (events w1)
       = Some (Some (b + Z.of_nat (length (chunkOf cs skip w)))).
Proof.
  intros Hskip.
  assert (Hfl : forall n, shuttingDown env n || canceled env n = false)
    by exact calm.
  unfold windowsChunkBody.
  unfold bind at 1. unfold shouldAbort at 1. rewrite Hfl.
  unfold bind at 1. unfold logger at 1.
  unfold bind at 1. rewrite writeChunkFile_run by assumption.
  unfold bind at 1. unfold getLocalChunk at 1.
  simpl localChunk. simpl default.
  change (chunkOf cs skip (addLog Debug "Writing chunk to %s" (tickPolls w)))
    with (chunkOf cs skip w).
  set (chunk := chunkOf cs skip w).
  unfold bind at 1. unfold shouldAbort at 1. rewrite Hfl.
  unfold bind at 1. unfold liftRes at 1. rewrite key_ok.
  unfold bind at 1. unfold logger at 1.
  unfold bind at 1. unfold popen at 1. rewrite quiet. simpl negb. cbv iota.
  unfold bind at 1. unfold unlinkChunkFile at 1.
  clearbody chunk. change (negb (0 =? 0)) with false. cbv iota beta.
  destruct (osFails env _);
    unfold bind, liftRes, popen, progressCallback, emit, shouldAbort, ret;
    rewrite ?quiet; simpl; rewrite ?Hfl;
    (eexists; split; [reflexivity |]); simpl;
    rewrite lookup_insert_eq, lookup_insert_ne by assumption;
    (split; [reflexivity |]); (split; [reflexivity |]);
    apply lastProgress_snoc_progress.
Qed.

(** The loop gets through [n] passes as long as there is something left
    to send at each; the remote file then holds what was there at a resume
    and the [n] chunks, and the remote chunk file the last of them. *)
Lemma windows_loopHead (n : nat) :
  forall skip w,
    0 <= skip -> skip * cs <= fileSize ->
    Z.of_nat (length (localFile w)) = fileSize ->
    ((1 <= n)%nat -> (skip + Z.of_nat n - 1) * cs < fileSize) ->
    exists w',
      loopHead cond body n (skip * cs, skip) w
      = Some ((Z.min ((skip + Z.of_nat n) * cs) fileSize, skip + Z.of_nat n), w')
      /\ localFile w' = localFile w
      /\ (n = 0%nat -> w' = w)
      /\ ((1 <= n)%nat ->
          remote w' !! final
          = Some ((if 0 <? skip * cs then default [] (remote w !! final)
                   else [])
                  ++ take (Z.to_nat (Z.of_nat n * cs))
                          (drop (Z.to_nat (skip * cs)) (localFile w)))
          /\ remote w' !! chunkP
             = Some (chunkOf cs (skip + Z.of_nat n - 1) w)
          /\ lastProgress (events w')
             = Some (Some (Z.min ((skip + Z.of_nat n) * cs) fileSize))).
Proof.
  induction n as [| n IH]; intros skip w Hskip Hstart Hlen Hmore.
  - exists w. simpl. split; [do 3 f_equal; lia |].
    split; [reflexivity |]. split; [reflexivity | lia].
  - destruct (IH skip w Hskip Hstart Hlen) as (w1 & Hn & Hl1 & Hzero & Hpos).
    { intros _. specialize (Hmore ltac:(lia)). nia. }
    specialize (Hmore ltac:(lia)).
    set (X := (skip + Z.of_nat n) * cs) in *.
    assert (HX : X < fileSize) by (subst X; lia).
    assert (HX0 : 0 <= X) by (subst X; nia).
    rewrite Z.min_l in Hn, Hpos by lia.
    destruct (windowsChunkBody_ok X (skip + Z.of_nat n) w1 ltac:(lia))
      as (w2 & Hrun & Hl2 & Hr2 & Hp2).
    assert (Hsame : chunkOf cs (skip + Z.of_nat n) w1
                    = chunkOf cs (skip + Z.of_nat n) w)
      by (unfold chunkOf; now rewrite Hl1).
    rewrite Hsame in *.
    assert (Hchunk : Z.of_nat (length (chunkOf cs (skip + Z.of_nat n) w))
                     = Z.min cs (fileSize - X)).
    { rewrite (chunkOf_length cs cs_pos); fold X; lia. }
    assert (Hst : X + Z.of_nat (length (chunkOf cs (skip + Z.of_nat n) w))
                  = Z.min ((skip + Z.of_nat (S n)) * cs) fileSize)
      by (rewrite Hchunk; subst X; lia).
    exists w2. split.
    { simpl loopHead. rewrite Hn. simpl fst.
      destruct (Z.ltb_spec X fileSize); [| lia].
      rewrite Hrun, Hst. do 3 f_equal. lia. }
    split; [congruence |]. split; [discriminate |]. intros _.
    split; [| split].
    + rewrite Hr2, lookup_insert_eq. f_equal.
      destruct n as [| n].
      * rewrite (Hzero eq_refl).
        replace X with (skip * cs) by (subst X; lia).
        f_equal. unfold chunkOf. f_equal; [lia |]. do 2 f_equal. lia.
      * destruct Hpos as (Hrem & _); [lia |].
        assert (0 < X) by (subst X; nia).
        destruct (Z.ltb_spec 0 X); [| lia].
        rewrite Hrem. simpl default. rewrite <- app_assoc. f_equal.
        unfold chunkOf. subst X. apply (take_chunks cs cs_pos). assumption.
    + rewrite Hr2, lookup_insert_ne, lookup_insert_eq by congruence.
      do 2 f_equal. lia.
    + rewrite Hp2, Hst. reflexivity.
Qed.

End WindowsLoop.

Lemma windowsResume_run (fileSize cs b : Z) (w : World) :
  0 < cs -> 0 <= b -> (fileSize <= b -> b mod cs <> 0) ->
  exists w0,
    windowsResume fileSize cs b w
    = (Val (posixFirstChunk fileSize cs b * cs, posixFirstChunk fileSize cs b),
       w0)
    /\ localFile w0 = localFile w
    /\ remote w0 = remote w.
Proof.
  intros Hcs Hb Hbig. unfold windowsResume, posixFirstChunk.
  destruct ((0 <? b) && (b <? fileSize) && (b mod cs =? 0)) eqn:Hres.
  - apply andb_true_iff in Hres as [_ Hmod]. apply Z.eqb_eq in Hmod.
    replace (b / cs * cs) with b
      by (rewrite Z.mul_comm; apply Z.div_exact; lia).
    eexists. unfold bind, progressCallback, emit, ret. simpl.
    split; [reflexivity | split; reflexivity].
  - destruct (Z.ltb_spec 0 b) as [Hpos | Hzero]; simpl in *.
    + destruct (Z.eqb_spec (b mod cs) 0) as [Hmod | Hmod]; simpl.
      * destruct (Z.ltb_spec b fileSize); [discriminate |].
        exfalso. now apply Hbig.
      * eexists. unfold bind, logger, ret. simpl.
        split; [reflexivity | split; reflexivity].
    + replace b with 0 by lia.
      eexists. unfold ret. split; [reflexivity | split; reflexivity].
Qed.

(** X27: a run of the Windows large-file uploader in which every command
    exits with 0 and nobody cancels leaves the whole local file on the
    server, from scratch and on a resume alike, and with it the remote
    chunk file, which holds the last chunk of the file: unlike the POSIX
    uploader this one never removes it. *)
Theorem windows_upload_leaves_the_file_and_the_last_chunk_on_the_server
    (env : Env) (fuel0 fuel : nat) (cfg : Settings) (fileSize : Z)
    (privateKeyFilePath remoteFilePath cygwinPath : string) (b cs : Z)
    (w : World) :
  0 < defaultChunkSize cfg ->
  chooseChunkSize fuel0 fileSize (defaultChunkSize cfg) (maxChunkSize cfg)
    = Val cs ->
  0 < fileSize ->
  Z.of_nat (length (localFile w)) = fileSize ->
  GetCygwinPath privateKeyFilePath = Val cygwinPath ->
  0 <= b ->
  (fileSize <= b -> b mod cs <> 0) ->
  (0 < b < fileSize -> b mod cs = 0 ->
   remote w !! remoteFilePath = Some (take (Z.to_nat b) (localFile w))) ->
  (forall n, exitCode env n = 0) ->
  (forall n, flagsAt env n = false) ->
  (fuel0 <= fuel)%nat ->
  (Z.to_nat fileSize < fuel)%nat ->
  exists w',
    UploadLargeFileFromWindows env fuel cfg fileSize privateKeyFilePath
                               remoteFilePath b w = (Val tt, w')
    /\ remote w' !! remoteFilePath = Some (localFile w)
    /\ remote w' !! remoteChunkPathOf remoteFilePath
       = Some (chunkOf cs ((fileSize - 1) / cs) w)
    /\ lastProgress (events w') = Some (Some fileSize).
Proof.
  intros Hd Hch0 Hsize Hlen Hkey Hb Hbig Hprefix Hrc Hfl Hfuel0 Hfuel.
  assert (Hcs : 0 < cs) by exact (chooseChunkSize_pos _ _ _ _ _ Hd Hch0).
  assert (Hch : chooseChunkSize fuel fileSize (defaultChunkSize cfg)
                                (maxChunkSize cfg) = Val cs)
    by (eapply chooseChunkSize_fuel_mono; eassumption).
  destruct (posixFirstChunk_bounds fileSize cs b Hcs ltac:(lia))
    as [Hskip Hstart].
  assert (Hlt : posixFirstChunk fileSize cs b * cs < fileSize).
  { unfold posixFirstChunk.
    destruct (Z.ltb_spec 0 b); simpl; [| lia].
    destruct (Z.ltb_spec b fileSize); simpl; [| lia].
    destruct (Z.eqb_spec (b mod cs) 0); [| lia].
    pose proof (Z.mul_div_le b cs Hcs). lia. }
  assert (Hres : 0 < posixFirstChunk fileSize cs b * cs ->
                 0 < b < fileSize /\ b mod cs = 0
                 /\ posixFirstChunk fileSize cs b * cs = b).
  { unfold posixFirstChunk.
    destruct (Z.ltb_spec 0 b); simpl; [| lia].
    destruct (Z.ltb_spec b fileSize); simpl; [| lia].
    destruct (Z.eqb_spec (b mod cs) 0); [| lia].
    intros _. repeat split; try lia.
    rewrite Z.mul_comm. symmetry. apply Z.div_exact; lia. }
  set (skip := posixFirstChunk fileSize cs b) in *.
  destruct (chunksLeft_spec fileSize cs skip Hcs Hstart)
    as (Hend & Hlast & Hsome).
  set (k := chunksLeft fileSize cs skip) in *.
  assert (Hk : (1 <= k)%nat) by lia.
  assert (Hkf : (k < fuel)%nat) by nia.
  pose proof (remoteChunkPathOf_neq remoteFilePath) as Hneq.
  set (chunkP := remoteChunkPathOf remoteFilePath) in *.
  unfold UploadLargeFileFromWindows.
  unfold bind at 1. unfold logger at 1.
  unfold bind at 1. unfold popen at 1. rewrite Hrc.
  change (negb (0 =? 0)) with false. cbv iota.
  unfold bind at 1. unfold liftRes at 1. rewrite Hch.
  change (0 =? 0) with true. cbv iota. unfold id.
  unfold bind at 1.
  match goal with |- context [windowsResume _ _ _ ?w0] =>
    destruct (windowsResume_run fileSize cs b w0 Hcs Hb Hbig)
      as (w1 & Hresume & Hl1 & Hr1)
  end.
  fold skip in Hresume. rewrite Hresume.
  simpl in Hl1, Hr1.
  destruct (windows_loopHead env fileSize cs privateKeyFilePath remoteFilePath
              chunkP cygwinPath Hcs Hneq Hkey Hrc Hfl k skip w1 Hskip Hstart)
    as (w2 & Hhead & Hl2 & _ & Hpos).
  { congruence. }
  { intros _. apply Hlast. lia. }
  destruct (Hpos Hk) as (Hrem & Hchunk & Hprog).
  rewrite Z.min_r in Hhead, Hprog by lia.
  unfold bind at 1. fold chunkP.
  rewrite (while_loopHead _ _ k fuel _ _ _ _ Hhead) by lia.
  replace (fuel - k)%nat with (S (fuel - k - 1)) by lia.
  rewrite while_done by (simpl; apply Z.ltb_irrefl).
  assert (Hfile : remote w2 !! remoteFilePath = Some (localFile w)).
  { rewrite Hrem, Hr1, Hl1. f_equal.
    rewrite take_ge by (rewrite length_drop; nia).
    destruct (Z.ltb_spec 0 (skip * cs)) as [Hpos' | Hzero].
    - destruct (Hres Hpos') as (Hb1 & Hb2 & Hb3).
      rewrite (Hprefix Hb1 Hb2), Hb3. simpl. apply take_drop.
    - replace (skip * cs) with 0 by lia. reflexivity. }
  assert (Hidx : skip + Z.of_nat k - 1 = (fileSize - 1) / cs).
  { apply (Z.div_unique_pos (fileSize - 1) cs (skip + Z.of_nat k - 1)
             (fileSize - 1 - cs * (skip + Z.of_nat k - 1))); nia. }
  assert (Hlastchunk : remote w2 !! chunkP
                       = Some (chunkOf cs ((fileSize - 1) / cs) w)).
  { rewrite Hchunk, Hidx. unfold chunkOf. now rewrite Hl1. }
  unfold windowsCleanup.
  destruct (_ || _); (eexists; split; [reflexivity |]); simpl;
    (split; [exact Hfile |]); (split; [exact Hlastchunk |]);
    rewrite ?lastProgress_snoc; exact Hprog.
Qed.

Lemma windows_upload_leaves_the_file_and_the_last_chunk_on_the_server_witness :
  exists w',
    UploadLargeFileFromWindows quietEnv 20 smallSettings 10 windowsKeyPath
                               "/staging/f.dat" 4 fourBytesUploaded
      = (Val tt, w')
    /\ remote w' !! "/staging/f.dat"%string = Some (localFile fourBytesUploaded)
    /\ remote w' !! remoteChunkPathOf "/staging/f.dat"
       = Some (chunkOf 4 ((10 - 1) / 4) fourBytesUploaded)
    /\ lastProgress (events w') = Some (Some 10).
Proof.
  apply (windows_upload_leaves_the_file_and_the_last_chunk_on_the_server
           quietEnv 1 20 smallSettings 10 windowsKeyPath "/staging/f.dat"
           "/cygdrive/C/Users/me/.ssh/MyData" 4 4 fourBytesUploaded);
    try reflexivity; try lia; (vm_compute; lia).
Defined.
